(** * NoteMitra authentication subsystem: rate limiter, reset tokens, auth handlers

    A shallow embedding of
      - [server/src/middleware/rateLimiter.ts]  (module [RateLimiter]),
      - the [PasswordReset] model, the e-mail utility, the auth
        controller, the validation chains of
        [server/src/middleware/validators.ts] and the routes of
        [server/src/routes/authRoutes.ts]       (module [Auth]),
    followed by the properties of the rate limiter ([RateLimiterFacts])
    and of the credential life cycle ([AuthFacts]).

    Conventions.  JavaScript numbers that hold millisecond timestamps and
    counters are integers well inside the safe-integer range and are
    modelled as [Z].  Strings are [string]: the bytes of the UTF-8
    encoding of the text.  JavaScript's [length] counts UTF-16 code
    units and is [Auth.jsLength], which is [String.length] on ASCII text
    only; validator.js's [isLength] is a library function
    ([Auth.isLength]).  A missing or [undefined] body field is the empty
    string where the code only tests truthiness.
    Collections of the document store are lists in insertion order, so
    that [findOne] returns the first match; store operations are total
    (an unreachable database is outside the model).  Requests are handled
    one after the other. *)

From Stdlib Require Import ZArith String Ascii List Bool Lia.
From stdpp Require Import base option list gmap strings.

Local Open Scope string_scope.
Local Open Scope Z_scope.

(* ===================================================================== *)
(** ** Fixed-window rate limiter (rateLimiter.ts)                        *)
(* ===================================================================== *)

Module RateLimiter.

Record RateLimitEntry := mkEntry { count : Z; resetTime : Z }.

(** [RateLimitOptions] without [keyGenerator]: the key is computed by the
    caller (see [forgotPasswordKey] and [loginKey]). *)
Record RateLimitOptions := mkOptions {
  windowMs : Z;
  maxRequests : Z;
  message : string
}.

(** What the middleware does with the request: call [next()], or answer
    [429] with [{error, retryAfter}]. *)
Inductive Outcome :=
| Next
| TooMany (error : string) (retryAfter : Z).

Record Result := mkResult {
  store' : gmap string RateLimitEntry;
  headers : list (string * Z);
  outcome : Outcome
}.

(** [Math.ceil(x / 1000)]; [Z.div] rounds towards minus infinity. *)
Definition ceilDiv1000 (x : Z) : Z := - ((- x) / 1000).

Definition freshWindow (opts : RateLimitOptions) (key : string) (now : Z)
    (store : gmap string RateLimitEntry) : Result :=
  let entry := {| count := 1; resetTime := now + windowMs opts |} in
  {| store' := <[key := entry]> store;
     headers := [("X-RateLimit-Limit", maxRequests opts);
                 ("X-RateLimit-Remaining", maxRequests opts - 1);
                 ("X-RateLimit-Reset", resetTime entry)];
     outcome := Next |}.

(** The middleware returned by [createRateLimiter(options)], applied to
    the key of the request at time [now = Date.now()]. *)
Definition rateLimit (opts : RateLimitOptions) (key : string) (now : Z)
    (store : gmap string RateLimitEntry) : Result :=
  match store !! key with
  | None => freshWindow opts key now store
  | Some entry =>
      if resetTime entry <? now then freshWindow opts key now store
      else
        (* entry.count++ on the object held by the map *)
        let entry := {| count := count entry + 1; resetTime := resetTime entry |} in
        let store := <[key := entry]> store in
        let hdrs := [("X-RateLimit-Limit", maxRequests opts);
                     ("X-RateLimit-Remaining", Z.max 0 (maxRequests opts - count entry));
                     ("X-RateLimit-Reset", resetTime entry)] in
        if maxRequests opts <? count entry then
          let retryAfter := ceilDiv1000 (resetTime entry - now) in
          {| store' := store;
             headers := hdrs ++ [("Retry-After", retryAfter)];
             outcome := TooMany (message opts) retryAfter |}
        else
          {| store' := store; headers := hdrs; outcome := Next |}
  end.

(** The body of the [setInterval] clean-up, run at time [now]. *)
Definition sweep (now : Z) (store : gmap string RateLimitEntry)
    : gmap string RateLimitEntry :=
  filter (fun kv => ¬ (resetTime kv.2 < now)) store.

Definition admitted (r : Result) : bool :=
  match outcome r with Next => true | TooMany _ _ => false end.

(** [String.prototype.toLowerCase], exact on ASCII text: the letters
    [A]-[Z] are folded and every other byte, so every byte of a
    character outside ASCII, is kept. *)
Definition lowerAscii (c : ascii) : ascii :=
  let n := nat_of_ascii c in
  if ((65 <=? n) && (n <=? 90))%nat then ascii_of_nat (n + 32) else c.

Fixpoint toLowerCase (s : string) : string :=
  match s with
  | EmptyString => EmptyString
  | String c s' => String (lowerAscii c) (toLowerCase s')
  end.

(** [req.ip || 'unknown'] *)
Definition ipOrUnknown (ip : string) : string :=
  if String.eqb ip EmptyString then "unknown" else ip.

Definition forgotPasswordOptions : RateLimitOptions :=
  {| windowMs := 15 * 60 * 1000; maxRequests := 3;
     message := "Too many password reset requests. Please try again in 15 minutes." |}.

Definition forgotPasswordKey (ip email : string) : string :=
  "forgot-password:" ++ ipOrUnknown ip ++ ":" ++ toLowerCase email.

Definition loginOptions : RateLimitOptions :=
  {| windowMs := 15 * 60 * 1000; maxRequests := 10;
     message := "Too many login attempts. Please try again in 15 minutes." |}.

Definition loginKey (ip email : string) : string :=
  "login:" ++ ipOrUnknown ip ++ ":" ++ toLowerCase email.

Definition forgotPasswordLimiter (ip email : string) :=
  rateLimit forgotPasswordOptions (forgotPasswordKey ip email).

Definition loginLimiter (ip email : string) :=
  rateLimit loginOptions (loginKey ip email).

(** A run of the same limiter for one key at the given instants. *)
Fixpoint calls (opts : RateLimitOptions) (key : string) (times : list Z)
    (store : gmap string RateLimitEntry) : gmap string RateLimitEntry :=
  match times with
  | [] => store
  | now :: rest => calls opts key rest (store' (rateLimit opts key now store))
  end.

(** The admission rule in the wording of the specification: a fresh
    window starts when [now >= entry.resetTime]. *)
Definition specDecision (opts : RateLimitOptions) (entry : option RateLimitEntry)
    (now : Z) : RateLimitEntry * bool :=
  match entry with
  | None => ({| count := 1; resetTime := now + windowMs opts |}, true)
  | Some e =>
      if resetTime e <=? now
      then ({| count := 1; resetTime := now + windowMs opts |}, true)
      else ({| count := count e + 1; resetTime := resetTime e |},
            count e + 1 <=? maxRequests opts)
  end.

End RateLimiter.

(* ===================================================================== *)
(** ** Documents, the world a handler runs in, and the handler monad     *)
(* ===================================================================== *)

Module Auth.

Definition ObjectId := nat.

Record User := mkUser {
  _id : ObjectId;
  name : string;
  email : string;
  passwordHash : option string;   (* absent for federated-only accounts *)
  googleId : option string;
  role : string;
  section : string;
  branch : string;
  profilePic : string;
  reputation : Z
}.

Record RefreshToken := mkRefreshToken {
  rt_userId : ObjectId;
  rt_token : string;
  rt_expiresAt : Z
}.

(** The [passwordResetSchema]: no field holds the plaintext token. *)
Record PasswordReset := mkPasswordReset {
  pr_userId : ObjectId;
  tokenHash : string;
  pr_expiresAt : Z;
  used : bool
}.

Record Mail := mkMail {
  mail_to : string;
  mail_subject : string;
  mail_userName : string;
  mail_resetUrl : string
}.

Inductive Collection := Users | RefreshTokens | PasswordResets.

(** Hashing, randomness and storage operations a handler performs, in
    the order it performs them. *)
Inductive Op :=
| OpHash
| OpRandom (n : nat)
| OpFind (c : Collection)
| OpUpdate (c : Collection)
| OpCreate (c : Collection)
| OpDelete (c : Collection)
| OpSendMail.

Record World := mkWorld {
  users : list User;
  refreshTokens : list RefreshToken;
  passwordResets : list PasswordReset;
  console : list string;          (* console.log / console.warn / console.error *)
  outbox : list Mail;             (* messages accepted by the transporter *)
  ops : list Op
}.

(** What one request reads from outside the process. *)
Record Env := mkEnv {
  now : Z;                        (* Date.now() *)
  rng : nat -> Byte.byte;         (* the bytes crypto.randomBytes returns *)
  transporter : bool;             (* false: createTransporter returned null *)
  sendMailError : option string;  (* Some e: transporter.sendMail rejects with e *)
  frontendUrl : option string     (* process.env.FRONTEND_URL *)
}.

(** Code of the repository and of its libraries that is not part of the
    embedded files: [utils/jwt], the [User] model's password hook and
    [comparePassword], Node's SHA-256, and validator.js. *)
Record Collaborators := mkCollaborators {
  sha256hex : string -> string;
  bcryptHash : string -> string;
  comparePassword : User -> string -> bool;
  generateAccessToken : User -> Z -> string;
  generateRefreshToken : User -> Z -> string;
  verifyRefreshToken : Z -> string -> option ObjectId;  (* None: jwt.verify throws *)
  trim : string -> string;
  isEmail : string -> bool;
  normalizeEmail : string -> string;
  isLength : nat -> option nat -> string -> bool   (* isLength({ min, max }) *)
}.

Record Request := mkRequest {
  ip : string;
  body_email : string;
  body_password : string;
  body_confirmPassword : string;
  body_token : string;
  body_refreshToken : string;
  params_token : string;
  validationErrors : list string   (* validationResult(req).array() *)
}.

Record PublicUser := mkPublicUser {
  pu_id : ObjectId; pu_name : string; pu_email : string; pu_role : string;
  pu_section : string; pu_branch : string; pu_profilePic : string;
  pu_reputation : Z
}.

Inductive Body :=
| JErrors (errors : list string)
| JError (error : string)
| JMessage (message : string)
| JAccessToken (accessToken : string)
| JValid (valid : bool) (error : option string)
| JSession (message : string) (user : PublicUser) (accessToken refreshToken : string)
| JThrottled (error : string) (retryAfter : Z).

Record Response := mkResponse { status : Z; body : Body }.

(** [res.json(b)] and [res.status(s).json(b)] *)
Definition json (b : Body) : Response := {| status := 200; body := b |}.
Definition statusJson (s : Z) (b : Body) : Response := {| status := s; body := b |}.

(** *** State and exceptions *)

Inductive Completion (A : Type) :=
| Returned (a : A)
| Thrown (error : string).
Arguments Returned {A} a.
Arguments Thrown {A} error.

Definition M (A : Type) := World -> Completion A * World.

Definition ret {A} (a : A) : M A := fun w => (Returned a, w).

Definition throw {A} (e : string) : M A := fun w => (Thrown e, w).

Definition bind {A B} (m : M A) (k : A -> M B) : M B :=
  fun w => match m w with
           | (Returned a, w') => k a w'
           | (Thrown e, w') => (Thrown e, w')
           end.

Declare Scope handler_scope.
Delimit Scope handler_scope with handler.
Notation "x <- m ;; k" := (bind m (fun x => k))
  (at level 100, m at next level, right associativity) : handler_scope.
Notation "m ;; k" := (bind m (fun _ => k))
  (at level 100, right associativity) : handler_scope.

(** A whole handler: [try { body } catch (error) { onError }]. *)
Definition Handler := World -> Response * World.

Definition tryCatch (body : M Response) (onError : string -> Handler) : Handler :=
  fun w => match body w with
           | (Returned r, w') => (r, w')
           | (Thrown e, w') => onError e w'
           end.

Definition modify (f : World -> World) : M unit := fun w => (Returned tt, f w).

Definition record (o : Op) : M unit :=
  modify (fun w => {| users := users w; refreshTokens := refreshTokens w;
                      passwordResets := passwordResets w; console := console w;
                      outbox := outbox w; ops := ops w ++ [o] |}).

Definition consoleLog (line : string) : M unit :=
  modify (fun w => {| users := users w; refreshTokens := refreshTokens w;
                      passwordResets := passwordResets w;
                      console := console w ++ [line];
                      outbox := outbox w; ops := ops w |}).

Definition setUsers (us : list User) : M unit :=
  modify (fun w => {| users := us; refreshTokens := refreshTokens w;
                      passwordResets := passwordResets w; console := console w;
                      outbox := outbox w; ops := ops w |}).

Definition setRefreshTokens (ts : list RefreshToken) : M unit :=
  modify (fun w => {| users := users w; refreshTokens := ts;
                      passwordResets := passwordResets w; console := console w;
                      outbox := outbox w; ops := ops w |}).

Definition setPasswordResets (rs : list PasswordReset) : M unit :=
  modify (fun w => {| users := users w; refreshTokens := refreshTokens w;
                      passwordResets := rs; console := console w;
                      outbox := outbox w; ops := ops w |}).

Definition deliver (m : Mail) : M unit :=
  modify (fun w => {| users := users w; refreshTokens := refreshTokens w;
                      passwordResets := passwordResets w; console := console w;
                      outbox := outbox w ++ [m]; ops := ops w |}).

Definition get {A} (f : World -> A) : M A := fun w => (Returned (f w), w).

(** A [catch] block: [console.error(line); res.status(..).json(..)]. *)
Definition logged (line : string) (r : Response) : Handler :=
  fun w => (r, {| users := users w; refreshTokens := refreshTokens w;
                  passwordResets := passwordResets w;
                  console := console w ++ [line];
                  outbox := outbox w; ops := ops w |}).

Local Open Scope handler_scope.

(** *** Strings, hex encoding *)

(** JavaScript truthiness of an optional string field. *)
Definition truthy (o : option string) : bool :=
  match o with
  | Some s => negb (String.eqb s EmptyString)
  | None => false
  end.

(** [s.length]: the number of UTF-16 code units of the text whose UTF-8
    bytes are [s].  A code point of one, two or three bytes is one unit,
    a code point of four bytes is a surrogate pair, and a continuation
    byte adds nothing. *)
Definition utf16Units (c : ascii) : nat :=
  let n := nat_of_ascii c in
  if (n <? 128)%nat then 1%nat          (* 0xxxxxxx *)
  else if (n <? 192)%nat then 0%nat     (* 10xxxxxx *)
  else if (n <? 240)%nat then 1%nat     (* 110xxxxx, 1110xxxx *)
  else 2%nat.                           (* 11110xxx *)

Fixpoint jsLength (s : string) : nat :=
  match s with
  | EmptyString => 0%nat
  | String c s' => (utf16Units c + jsLength s')%nat
  end.

Definition endsWith (s suffix : string) : bool :=
  let n := String.length s in
  let k := String.length suffix in
  (k <=? n)%nat && String.eqb (substring (n - k) k s) suffix.

Definition hexDigit (n : N) : ascii :=
  match n with
  | 0%N => "0" | 1%N => "1" | 2%N => "2" | 3%N => "3"
  | 4%N => "4" | 5%N => "5" | 6%N => "6" | 7%N => "7"
  | 8%N => "8" | 9%N => "9" | 10%N => "a" | 11%N => "b"
  | 12%N => "c" | 13%N => "d" | 14%N => "e" | _ => "f"
  end%char.

(** [Buffer.prototype.toString('hex')] *)
Fixpoint toHex (bytes : list Byte.byte) : string :=
  match bytes with
  | [] => EmptyString
  | b :: rest =>
      let n := Byte.to_N b in
      String (hexDigit (n / 16)) (String (hexDigit (n mod 16)) (toHex rest))
  end.

Definition isLowerHexChar (c : ascii) : bool :=
  let n := nat_of_ascii c in
  (((48 <=? n) && (n <=? 57)) || ((97 <=? n) && (n <=? 102)))%nat.

Definition isHexChar (c : ascii) : bool :=
  let n := nat_of_ascii c in
  (isLowerHexChar c || ((65 <=? n) && (n <=? 70)))%nat.

Fixpoint allChars (p : ascii -> bool) (s : string) : bool :=
  match s with
  | EmptyString => true
  | String c s' => p c && allChars p s'
  end.

(** "Exactly 64 hex characters". *)
Definition is64Hex (s : string) : bool :=
  (String.length s =? 64)%nat && allChars isHexChar s.

(** *** The document store *)

(** First document satisfying the filter, with its position (the
    position plays the part of the document's [_id] for [save] and
    [deleteOne]). *)
Fixpoint findFirst {A} (p : A -> bool) (l : list A) : option (nat * A) :=
  match l with
  | [] => None
  | x :: rest =>
      if p x then Some (O, x)
      else match findFirst p rest with
           | Some (i, y) => Some (S i, y)
           | None => None
           end
  end.

(** [User.findOne({ email })] *)
Definition User_findOne (e : string) : M (option (nat * User)) :=
  record (OpFind Users) ;;
  get (fun w => findFirst (fun u => String.eqb (email u) e) (users w)).

(** [User.findById(id)] *)
Definition User_findById (id : ObjectId) : M (option (nat * User)) :=
  record (OpFind Users) ;;
  get (fun w => findFirst (fun u => Nat.eqb (_id u) id) (users w)).

(** [user.save()] on the document at position [i]. *)
Definition User_save (i : nat) (u : User) : M unit :=
  record (OpUpdate Users) ;;
  us <- get users ;;
  setUsers (<[i := u]> us).

(** [RefreshToken.create(doc)] *)
Definition RefreshToken_create (t : RefreshToken) : M unit :=
  record (OpCreate RefreshTokens) ;;
  ts <- get refreshTokens ;;
  setRefreshTokens (ts ++ [t]).

(** [RefreshToken.findOne({ token, userId })] *)
Definition RefreshToken_findOne (token : string) (userId : ObjectId)
    : M (option (nat * RefreshToken)) :=
  record (OpFind RefreshTokens) ;;
  get (fun w => findFirst
                  (fun t => String.eqb (rt_token t) token && Nat.eqb (rt_userId t) userId)
                  (refreshTokens w)).

(** [RefreshToken.deleteOne({ _id })] *)
Definition RefreshToken_deleteAt (i : nat) : M unit :=
  record (OpDelete RefreshTokens) ;;
  ts <- get refreshTokens ;;
  setRefreshTokens (delete i ts).

(** [RefreshToken.deleteOne({ token })] *)
Definition RefreshToken_deleteOne (token : string) : M unit :=
  record (OpDelete RefreshTokens) ;;
  ts <- get refreshTokens ;;
  match findFirst (fun t => String.eqb (rt_token t) token) ts with
  | Some (i, _) => setRefreshTokens (delete i ts)
  | None => ret tt
  end.

(** [RefreshToken.deleteMany({ userId })] *)
Definition RefreshToken_deleteMany (userId : ObjectId) : M unit :=
  record (OpDelete RefreshTokens) ;;
  ts <- get refreshTokens ;;
  setRefreshTokens (List.filter (fun t => negb (Nat.eqb (rt_userId t) userId)) ts).

Definition markUsed (r : PasswordReset) : PasswordReset :=
  {| pr_userId := pr_userId r; tokenHash := tokenHash r;
     pr_expiresAt := pr_expiresAt r; used := true |}.

(** The update of [updateMany({ userId, used: false }, { used: true })]. *)
Definition invalidate (userId : ObjectId) (rs : list PasswordReset)
    : list PasswordReset :=
  List.map (fun r => if Nat.eqb (pr_userId r) userId && negb (used r)
                     then markUsed r else r) rs.

Definition PasswordReset_updateMany (userId : ObjectId) : M unit :=
  record (OpUpdate PasswordResets) ;;
  rs <- get passwordResets ;;
  setPasswordResets (invalidate userId rs).

(** [PasswordReset.create(doc)] *)
Definition PasswordReset_create (r : PasswordReset) : M unit :=
  record (OpCreate PasswordResets) ;;
  rs <- get passwordResets ;;
  setPasswordResets (rs ++ [r]).

(** The filter [{ tokenHash, used: false, expiresAt: { $gt: new Date() } }]. *)
Definition validReset (h : string) (t : Z) (r : PasswordReset) : bool :=
  String.eqb (tokenHash r) h && negb (used r) && (t <? pr_expiresAt r).

Definition PasswordReset_findOne (h : string) (t : Z)
    : M (option (nat * PasswordReset)) :=
  record (OpFind PasswordResets) ;;
  get (fun w => findFirst (validReset h t) (passwordResets w)).

(** [resetRecord.save()] on the document at position [i]. *)
Definition PasswordReset_save (i : nat) (r : PasswordReset) : M unit :=
  record (OpUpdate PasswordResets) ;;
  rs <- get passwordResets ;;
  setPasswordResets (<[i := r]> rs).

(** The TTL index [{ expires: 0 }] on [expiresAt]: the store may drop
    documents whose expiry has passed. *)
Definition ttlPurge (t : Z) (w : World) : World :=
  {| users := users w; refreshTokens := refreshTokens w;
     passwordResets := List.filter (fun r => t <? pr_expiresAt r) (passwordResets w);
     console := console w; outbox := outbox w; ops := ops w |}.

(** *** utils/email.ts *)

Definition baseUrl (env : Env) : string :=
  match frontendUrl env with
  | Some u => if String.eqb u EmptyString then "http://localhost:3000" else u
  | None => "http://localhost:3000"
  end.

Definition resetUrlFor (env : Env) (resetToken : string) : string :=
  baseUrl env ++ "/auth/reset-password?token=" ++ resetToken.

Definition sendPasswordResetEmail (env : Env) (email resetToken userName : string)
    : M bool :=
  if negb (transporter env) then
    consoleLog "Email service not configured" ;;
    (* In development, log the reset link instead *)
    let resetUrl := resetUrlFor env resetToken in
    consoleLog "📧 Password Reset Email (Development Mode):" ;;
    consoleLog ("   To: " ++ email) ;;
    consoleLog ("   Reset URL: " ++ resetUrl) ;;
    consoleLog "   Token expires in 15 minutes" ;;
    ret true
  else
    let resetUrl := resetUrlFor env resetToken in
    let mailOptions := {| mail_to := email;
                          mail_subject := "Password Reset Request - NoteMitra";
                          mail_userName := userName;
                          mail_resetUrl := resetUrl |} in
    record OpSendMail ;;
    match sendMailError env with
    | None =>
        deliver mailOptions ;;
        consoleLog ("✅ Password reset email sent to " ++ email) ;;
        ret true
    | Some error =>
        consoleLog ("❌ Failed to send password reset email: " ++ error) ;;
        ret false
    end.

Section Handlers.

Variable X : Collaborators.

(** [crypto.createHash('sha256').update(s).digest('hex')] *)
Definition sha256 (s : string) : M string :=
  record OpHash ;; ret (sha256hex X s).

(** [crypto.randomBytes(n)] *)
Definition randomBytes (env : Env) (n : nat) : M (list Byte.byte) :=
  record (OpRandom n) ;; ret (List.map (rng env) (seq 0 n)).

(** [verifyRefreshToken(token)] of utils/jwt, which throws on a bad
    signature or an expired token. *)
Definition jwtVerifyRefresh (env : Env) (token : string) : M ObjectId :=
  match verifyRefreshToken X (now env) token with
  | Some userId => ret userId
  | None => throw "JsonWebTokenError"
  end.

Definition publicUser (u : User) : PublicUser :=
  {| pu_id := _id u; pu_name := name u; pu_email := email u;
     pu_role := role u; pu_section := section u; pu_branch := branch u;
     pu_profilePic := profilePic u; pu_reputation := reputation u |}.

Definition hasErrors (req : Request) : bool :=
  match validationErrors req with [] => false | _ => true end.

(** *** models/PasswordReset.ts: statics *)

Definition createReset (env : Env) (userId : ObjectId)
    : M (PasswordReset * string) :=
  PasswordReset_updateMany userId ;;
  bytes <- randomBytes env 32 ;;
  let plainToken := toHex bytes in
  tokenHash <- sha256 plainToken ;;
  let resetDoc := {| pr_userId := userId; tokenHash := tokenHash;
                     pr_expiresAt := now env + 15 * 60 * 1000;
                     used := false |} in
  PasswordReset_create resetDoc ;;
  ret (resetDoc, plainToken).

Definition verifyToken (env : Env) (token : string)
    : M (option (nat * PasswordReset)) :=
  tokenHash <- sha256 token ;;
  PasswordReset_findOne tokenHash (now env).

(** *** controllers/authController.ts *)

Definition login (env : Env) (req : Request) : Handler :=
  tryCatch
    (if hasErrors req then
       ret (statusJson 400 (JErrors (validationErrors req)))
     else
       let email := body_email req in
       let password := body_password req in
       user <- User_findOne email ;;
       match user with
       | None => ret (statusJson 401 (JError "Invalid credentials"))
       | Some (_, user) =>
           if negb (comparePassword X user password) then
             ret (statusJson 401 (JError "Invalid credentials"))
           else
             let accessToken := generateAccessToken X user (now env) in
             let refreshToken := generateRefreshToken X user (now env) in
             RefreshToken_create
               {| rt_userId := _id user; rt_token := refreshToken;
                  rt_expiresAt := now env + 7 * 24 * 60 * 60 * 1000 |} ;;
             ret (json (JSession "Login successful" (publicUser user)
                                 accessToken refreshToken))
       end)
    (fun error =>
       logged ("Login error: " ++ error)
              (statusJson 500 (JError "Login failed"))).

Definition refreshAccessToken (env : Env) (req : Request) : Handler :=
  tryCatch
    (let refreshToken := body_refreshToken req in
     if String.eqb refreshToken EmptyString then
       ret (statusJson 400 (JError "Refresh token required"))
     else
       payload_userId <- jwtVerifyRefresh env refreshToken ;;
       storedToken <- RefreshToken_findOne refreshToken payload_userId ;;
       match storedToken with
       | None => ret (statusJson 401 (JError "Invalid refresh token"))
       | Some (i, storedToken) =>
           if rt_expiresAt storedToken <? now env then
             RefreshToken_deleteAt i ;;
             ret (statusJson 401 (JError "Refresh token expired"))
           else
             user <- User_findById payload_userId ;;
             match user with
             | None => ret (statusJson 404 (JError "User not found"))
             | Some (_, user) =>
                 let accessToken := generateAccessToken X user (now env) in
                 ret (json (JAccessToken accessToken))
             end
       end)
    (fun error =>
       logged ("Token refresh error: " ++ error)
              (statusJson 401 (JError "Invalid refresh token"))).

Definition logout (env : Env) (req : Request) : Handler :=
  tryCatch
    (let refreshToken := body_refreshToken req in
     (if String.eqb refreshToken EmptyString then ret tt
      else RefreshToken_deleteOne refreshToken) ;;
     ret (json (JMessage "Logout successful")))
    (fun error =>
       logged ("Logout error: " ++ error)
              (statusJson 500 (JError "Logout failed"))).

Definition successMessage : string :=
  "If an account with that email exists, a password reset link has been sent.".

Definition forgotPassword (env : Env) (req : Request) : Handler :=
  tryCatch
    (if hasErrors req then
       ret (statusJson 400 (JErrors (validationErrors req)))
     else
       let email := body_email req in
       user <- User_findOne (RateLimiter.toLowerCase email) ;;
       match user with
       | None => ret (json (JMessage successMessage))
       | Some (_, user) =>
           if truthy (googleId user) && negb (truthy (passwordHash user)) then
             ret (json (JMessage successMessage))
           else
             bytes <- randomBytes env 32 ;;
             let plainToken := toHex bytes in
             tokenHash <- sha256 plainToken ;;
             PasswordReset_updateMany (_id user) ;;
             PasswordReset_create
               {| pr_userId := _id user; tokenHash := tokenHash;
                  pr_expiresAt := now env + 15 * 60 * 1000;
                  used := false |} ;;
             sendPasswordResetEmail env email plainToken (name user) ;;
             ret (json (JMessage successMessage))
       end)
    (fun error =>
       logged ("Forgot password error: " ++ error)
              (statusJson 500 (JError "Failed to process request. Please try again."))).

Definition setPassword (u : User) (h : string) : User :=
  {| _id := _id u; name := name u; email := email u;
     passwordHash := Some h; googleId := googleId u; role := role u;
     section := section u; branch := branch u; profilePic := profilePic u;
     reputation := reputation u |}.

Definition invalidTokenError : string :=
  "Invalid or expired reset token. Please request a new password reset.".

Definition resetPassword (env : Env) (req : Request) : Handler :=
  tryCatch
    (if hasErrors req then
       ret (statusJson 400 (JErrors (validationErrors req)))
     else
       let token := body_token req in
       let password := body_password req in
       tokenHash <- sha256 token ;;
       resetRecord <- PasswordReset_findOne tokenHash (now env) ;;
       match resetRecord with
       | None => ret (statusJson 400 (JError invalidTokenError))
       | Some (i, resetRecord) =>
           user <- User_findById (pr_userId resetRecord) ;;
           match user with
           | None => ret (statusJson 400 (JError "User not found"))
           | Some (j, user) =>
               (* the pre-save hook hashes the new password *)
               User_save j (setPassword user (bcryptHash X password)) ;;
               PasswordReset_save i (markUsed resetRecord) ;;
               RefreshToken_deleteMany (_id user) ;;
               ret (json (JMessage
                 "Password has been reset successfully. Please log in with your new password."))
           end
       end)
    (fun error =>
       logged ("Reset password error: " ++ error)
              (statusJson 500 (JError "Failed to reset password. Please try again."))).

Definition verifyResetToken (env : Env) (req : Request) : Handler :=
  tryCatch
    (let token := params_token req in
     if String.eqb token EmptyString || negb (jsLength token =? 64)%nat then
       ret (statusJson 400 (JValid false (Some "Invalid token format")))
     else
       tokenHash <- sha256 token ;;
       resetRecord <- PasswordReset_findOne tokenHash (now env) ;;
       match resetRecord with
       | None =>
           ret (statusJson 400 (JValid false (Some "Invalid or expired reset token")))
       | Some _ => ret (json (JValid true None))
       end)
    (fun error =>
       logged ("Verify reset token error: " ++ error)
              (statusJson 500 (JValid false (Some "Failed to verify token")))).

  (** *** middleware/validators.ts

    A validation chain adds one message for every validator that
    fails; sanitizers ([trim], [normalizeEmail]) replace the field in
    the request. *)

Definition check (ok : bool) (msg : string) : list string :=
  if ok then [] else [msg].

Definition ALLOWED_EMAIL_DOMAIN : string := "@mictech.edu.in".

Definition sanitized (req : Request) (e : string) (errs : list string) : Request :=
  {| ip := ip req; body_email := e; body_password := body_password req;
     body_confirmPassword := body_confirmPassword req;
     body_token := body_token req; body_refreshToken := body_refreshToken req;
     params_token := params_token req;
     validationErrors := validationErrors req ++ errs |}.

Definition validateLogin (req : Request) : Request :=
  let e := trim X (body_email req) in
  sanitized req (normalizeEmail X e)
    (check (negb (String.eqb e EmptyString)) "Email is required"
     ++ check (isEmail X e) "Invalid email format"
     ++ check (negb (String.eqb (body_password req) EmptyString)) "Password is required").

Definition validateForgotPassword (req : Request) : Request :=
  let e := trim X (body_email req) in
  let value := normalizeEmail X e in
  sanitized req value
    (check (negb (String.eqb e EmptyString)) "Email is required"
     ++ check (isEmail X e) "Invalid email format"
     ++ check (endsWith value ALLOWED_EMAIL_DOMAIN)
              ("Email must end with " ++ ALLOWED_EMAIL_DOMAIN)).

Definition validateResetPassword (req : Request) : Request :=
  let token := body_token req in
  let password := body_password req in
  let confirm := body_confirmPassword req in
  sanitized req (body_email req)
    (check (negb (String.eqb token EmptyString)) "Reset token is required"
     ++ check (isLength X 64 (Some 64%nat) token) "Invalid reset token format"
     ++ check (negb (String.eqb password EmptyString)) "Password is required"
     ++ check (isLength X 8 None password) "Password must be at least 8 characters"
     ++ check (negb (String.eqb confirm EmptyString)) "Confirm password is required"
     ++ check (String.eqb confirm password) "Passwords do not match").

(** *** routes/authRoutes.ts *)

Record Server := mkServer {
  rateLimitStore : gmap string RateLimiter.RateLimitEntry;
  world : World
}.

Definition limited (r : RateLimiter.Result) (h : Handler) (sv : Server)
    : Response * Server :=
  match RateLimiter.outcome r with
  | RateLimiter.TooMany error retryAfter =>
      (statusJson 429 (JThrottled error retryAfter),
       {| rateLimitStore := RateLimiter.store' r; world := world sv |})
  | RateLimiter.Next =>
      let (res, w) := h (world sv) in
      (res, {| rateLimitStore := RateLimiter.store' r; world := w |})
  end.

Definition unlimited (h : Handler) (sv : Server) : Response * Server :=
  let (res, w) := h (world sv) in
  (res, {| rateLimitStore := rateLimitStore sv; world := w |}).

(** [router.post('/login', loginLimiter, validateLogin, login)] *)
Definition postLogin (env : Env) (req : Request) (sv : Server) :=
  limited (RateLimiter.loginLimiter (ip req) (body_email req) (now env)
             (rateLimitStore sv))
          (login env (validateLogin req)) sv.

(** [router.post('/refresh', refreshAccessToken)] *)
Definition postRefresh (env : Env) (req : Request) (sv : Server) :=
  unlimited (refreshAccessToken env req) sv.

(** [router.post('/forgot-password', forgotPasswordLimiter,
    validateForgotPassword, forgotPassword)] *)
Definition postForgotPassword (env : Env) (req : Request) (sv : Server) :=
  limited (RateLimiter.forgotPasswordLimiter (ip req) (body_email req) (now env)
             (rateLimitStore sv))
          (forgotPassword env (validateForgotPassword req)) sv.

(** [router.post('/reset-password', validateResetPassword, resetPassword)] *)
Definition postResetPassword (env : Env) (req : Request) (sv : Server) :=
  unlimited (resetPassword env (validateResetPassword req)) sv.

(** [router.get('/verify-reset-token/:token', verifyResetToken)] *)
Definition getVerifyResetToken (env : Env) (req : Request) (sv : Server) :=
  unlimited (verifyResetToken env req) sv.

End Handlers.

(** *** Runs of requests against one world *)

Inductive Call :=
| CallLogin (env : Env) (req : Request)
| CallRefresh (env : Env) (req : Request)
| CallLogout (env : Env) (req : Request)
| CallForgotPassword (env : Env) (req : Request)
| CallResetPassword (env : Env) (req : Request)
| CallVerifyResetToken (env : Env) (req : Request)
| TtlPurge (t : Z).

Definition step (X : Collaborators) (c : Call) (w : World) : World :=
  match c with
  | CallLogin env req => (login X env req w).2
  | CallRefresh env req => (refreshAccessToken X env req w).2
  | CallLogout env req => (logout env req w).2
  | CallForgotPassword env req => (forgotPassword X env req w).2
  | CallResetPassword env req => (resetPassword X env req w).2
  | CallVerifyResetToken env req => (verifyResetToken X env req w).2
  | TtlPurge t => ttlPurge t w
  end.

Fixpoint run (X : Collaborators) (cs : list Call) (w : World) : World :=
  match cs with
  | [] => w
  | c :: rest => run X rest (step X c w)
  end.

(** The plaintext token a forgot-password request generates, and its
    digest. *)
Definition plainTokenOf (env : Env) : string :=
  toHex (List.map (rng env) (seq 0 32)).

Definition digestOf (X : Collaborators) (env : Env) : string :=
  sha256hex X (plainTokenOf env).

(** The document a forgot-password request creates for user [u]. *)
Definition issuedReset (X : Collaborators) (env : Env) (u : User) : PasswordReset :=
  {| pr_userId := _id u; tokenHash := digestOf X env;
     pr_expiresAt := now env + 15 * 60 * 1000; used := false |}.

(** What [sendPasswordResetEmail] writes to the console when the mail
    transporter is configured, and when it is not. *)
Definition mailLog (env : Env) (email : string) : list string :=
  match sendMailError env with
  | None => ["✅ Password reset email sent to " ++ email]
  | Some error => ["❌ Failed to send password reset email: " ++ error]
  end.

Definition devLog (env : Env) (email plainToken : string) : list string :=
  ["Email service not configured";
   "📧 Password Reset Email (Development Mode):";
   "   To: " ++ email;
   "   Reset URL: " ++ baseUrl env ++ "/auth/reset-password?token=" ++ plainToken;
   "   Token expires in 15 minutes"].

Definition resetMail (env : Env) (email userName plainToken : string) : Mail :=
  {| mail_to := email; mail_subject := "Password Reset Request - NoteMitra";
     mail_userName := userName;
     mail_resetUrl := baseUrl env ++ "/auth/reset-password?token=" ++ plainToken |}.

(** The user a forgot-password request issues a token for: the request
    is valid, the lower-cased e-mail is registered, and the account is
    not federated-only. *)
Definition issuesFor (req : Request) (w : World) : option User :=
  if hasErrors req then None
  else match findFirst (fun u => String.eqb (email u)
                                   (RateLimiter.toLowerCase (body_email req)))
                       (users w) with
       | Some (_, u) =>
           if truthy (googleId u) && negb (truthy (passwordHash u)) then None
           else Some u
       | None => None
       end.

(** The digest a call may add to the reset collection. *)
Definition mayIssue (X : Collaborators) (c : Call) : option string :=
  match c with
  | CallForgotPassword env _ => Some (digestOf X env)
  | _ => None
  end.

(** Reset documents of [userId] that are unused and unexpired at [t]. *)
Definition activeResets (userId : ObjectId) (t : Z) (rs : list PasswordReset)
    : list PasswordReset :=
  List.filter (fun r => Nat.eqb (pr_userId r) userId && negb (used r)
                        && (t <? pr_expiresAt r)) rs.

Definition unusedResets (userId : ObjectId) (rs : list PasswordReset)
    : list PasswordReset :=
  List.filter (fun r => Nat.eqb (pr_userId r) userId && negb (used r)) rs.

(** Reset documents that carry the digest [h]. *)
Definition holders (h : string) (rs : list PasswordReset) : list PasswordReset :=
  List.filter (fun r => String.eqb (tokenHash r) h) rs.

(** No reset document with digest [h] can be consumed any more. *)
Definition Dead (h : string) (rs : list PasswordReset) : Prop :=
  forall r, In r rs -> tokenHash r = h -> used r = true.

(** Every reset document with digest [h] belongs to [userId]. *)
Definition OwnedBy (h : string) (userId : ObjectId) (rs : list PasswordReset) : Prop :=
  forall r, In r rs -> tokenHash r = h -> pr_userId r = userId.

(** The ways one call changes the reset collection. *)
Inductive ResetsStep (X : Collaborators)
    : Call -> list PasswordReset -> list PasswordReset -> Prop :=
| RS_same c rs : ResetsStep X c rs rs
| RS_consume c rs i r :
    rs !! i = Some r -> ResetsStep X c rs (<[i := markUsed r]> rs)
| RS_issue env req rs u :
    ResetsStep X (CallForgotPassword env req) rs
               (invalidate (_id u) rs ++ [issuedReset X env u])
| RS_purge c rs t :
    ResetsStep X c rs (List.filter (fun r => t <? pr_expiresAt r) rs).

(** The body of a successful reset-password answer. *)
Definition successBody : Body :=
  JMessage "Password has been reset successfully. Please log in with your new password.".

Definition withParamsToken (token : string) : Request :=
  {| ip := EmptyString; body_email := EmptyString; body_password := EmptyString; body_confirmPassword := EmptyString;
     body_token := EmptyString; body_refreshToken := EmptyString; params_token := token;
     validationErrors := [] |}.

End Auth.

(* ===================================================================== *)
(** ** Stand-ins for the collaborators, used to run the model            *)
(* ===================================================================== *)

Module Sample.
Import Auth.

(** The number of characters (code points) of a text: its UTF-8 bytes
    without the continuation bytes. *)
Fixpoint characters (s : string) : nat :=
  match s with
  | EmptyString => 0%nat
  | String c s' =>
      let n := nat_of_ascii c in
      ((if (128 <=? n) && (n <? 192) then 0 else 1) + characters s')%nat
  end.

(** An injective stand-in for SHA-256 and simple JWT and password
    stand-ins; the theorems below hold for every [Collaborators]. *)
Definition X : Collaborators :=
  {| sha256hex := fun s => "sha256:" ++ s;
     bcryptHash := fun p => "bcrypt:" ++ p;
     comparePassword := fun u p =>
       match passwordHash u with
       | Some h => String.eqb h ("bcrypt:" ++ p)
       | None => false
       end;
     generateAccessToken := fun u _ => "access:" ++ email u;
     generateRefreshToken := fun u _ => "refresh:" ++ email u;
     verifyRefreshToken := fun _ t =>
       if String.eqb t "refresh:asha@mictech.edu.in" then Some 1%nat
       else if String.eqb t "refresh:ravi@mictech.edu.in" then Some 2%nat
       else if String.eqb t "refresh:gone@mictech.edu.in" then Some 9%nat
       else None;
     trim := fun s => s;
     isEmail := fun s => negb (String.eqb s EmptyString) ;
     normalizeEmail := fun s => RateLimiter.toLowerCase s;
     isLength := fun lo hi s =>
       (lo <=? characters s)%nat
       && match hi with
          | Some h => (characters s <=? h)%nat
          | None => true
          end |}.

Definition asha : User :=
  {| _id := 1%nat; name := "Asha"; email := "asha@mictech.edu.in";
     passwordHash := Some "bcrypt:password1"; googleId := None;
     role := "student"; section := "A"; branch := "CSE"; profilePic := EmptyString;
     reputation := 0 |}.

(** A federated-only account. *)
Definition ravi : User :=
  {| _id := 2%nat; name := "Ravi"; email := "ravi@mictech.edu.in";
     passwordHash := None; googleId := Some "google-oauth2|117";
     role := "student"; section := "B"; branch := "ECE"; profilePic := EmptyString;
     reputation := 0 |}.

Definition world0 : World :=
  {| users := [asha; ravi]; refreshTokens := []; passwordResets := [];
     console := []; outbox := []; ops := [] |}.

Definition env (t : Z) (b : Byte.byte) (smtp : bool) (err : option string) : Env :=
  {| now := t; rng := fun _ => b; transporter := smtp; sendMailError := err;
     frontendUrl := None |}.

Definition request : Request :=
  {| ip := "10.0.0.7"; body_email := EmptyString; body_password := EmptyString;
     body_confirmPassword := EmptyString; body_token := EmptyString; body_refreshToken := EmptyString;
     params_token := EmptyString; validationErrors := [] |}.

Definition withEmail (e : string) (r : Request) : Request :=
  {| ip := ip r; body_email := e; body_password := body_password r;
     body_confirmPassword := body_confirmPassword r; body_token := body_token r;
     body_refreshToken := body_refreshToken r; params_token := params_token r;
     validationErrors := validationErrors r |}.

Definition withPassword (p : string) (r : Request) : Request :=
  {| ip := ip r; body_email := body_email r; body_password := p;
     body_confirmPassword := p; body_token := body_token r;
     body_refreshToken := body_refreshToken r; params_token := params_token r;
     validationErrors := validationErrors r |}.

Definition withToken (t : string) (r : Request) : Request :=
  {| ip := ip r; body_email := body_email r; body_password := body_password r;
     body_confirmPassword := body_confirmPassword r; body_token := t;
     body_refreshToken := body_refreshToken r; params_token := t;
     validationErrors := validationErrors r |}.

Definition withRefreshToken (t : string) (r : Request) : Request :=
  {| ip := ip r; body_email := body_email r; body_password := body_password r;
     body_confirmPassword := body_confirmPassword r; body_token := body_token r;
     body_refreshToken := t; params_token := params_token r;
     validationErrors := validationErrors r |}.

(** 64 characters, none of them a hex digit. *)
Definition zToken : string :=
  "zzzzzzzzzzzzzzzzzzzzzzzzzzzzzzzzzzzzzzzzzzzzzzzzzzzzzzzzzzzzzzzz".

(** 64 characters of two bytes each. *)
Definition eToken : string :=
  "éééééééééééééééééééééééééééééééééééééééééééééééééééééééééééééééé".

End Sample.

(* ===================================================================== *)
(** ** Runs and headers of the rate limiter                              *)
(* ===================================================================== *)

Module RateLimiterRuns.
Import RateLimiter.

(** The admission decisions of a run of the same limiter for one key at
    the given instants, in order. *)
Fixpoint decisions (opts : RateLimitOptions) (key : string) (times : list Z)
    (store : gmap string RateLimitEntry) : list bool :=
  match times with
  | [] => []
  | now :: rest =>
      let r := rateLimit opts key now store in
      admitted r :: decisions opts key rest (store' r)
  end.

Definition admittedCount (ds : list bool) : nat :=
  length (List.filter (fun d => d) ds).

(** The value the response carries for a header name. *)
Definition header (name : string) (r : Result) : option Z :=
  match List.find (fun kv => String.eqb (fst kv) name) (headers r) with
  | Some kv => Some (snd kv)
  | None => None
  end.

(** [generalLimiter]: the default key generator [req.ip || 'unknown']. *)
Definition generalOptions : RateLimitOptions :=
  {| windowMs := 60 * 1000; maxRequests := 100;
     message := "Too many requests. Please slow down." |}.

Definition generalLimiter (ip : string) :=
  rateLimit generalOptions (ipOrUnknown ip).

End RateLimiterRuns.

(* ===================================================================== *)
(** ** Decoding of hex tokens and counts of session rows                 *)
(* ===================================================================== *)

Module AuthSupport.
Import Auth.

(** The value of a lower-case hex digit. *)
Definition hexValue (c : ascii) : option N :=
  let n := N_of_ascii c in
  if ((48 <=? n) && (n <=? 57))%N then Some (n - 48)%N
  else if ((97 <=? n) && (n <=? 102))%N then Some (n - 87)%N
  else None.

(** The inverse of [toHex]: two hex digits per byte. *)
Fixpoint fromHex (s : string) : option (list Byte.byte) :=
  match s with
  | EmptyString => Some []
  | String hi (String lo rest) =>
      match hexValue hi, hexValue lo, fromHex rest with
      | Some h, Some l, Some bytes =>
          match Byte.of_N (16 * h + l) with
          | Some b => Some (b :: bytes)
          | None => None
          end
      | _, _, _ => None
      end
  | String _ EmptyString => None
  end.

(** Rows of the refresh-token collection that hold the given token. *)
Definition rowsWithToken (token : string) (ts : list RefreshToken) : list RefreshToken :=
  List.filter (fun t => String.eqb (rt_token t) token) ts.

Definition withBodyToken (token password : string) : Request :=
  {| ip := EmptyString; body_email := EmptyString; body_password := password;
     body_confirmPassword := password; body_token := token;
     body_refreshToken := EmptyString; params_token := EmptyString;
     validationErrors := [] |}.

End AuthSupport.

(* ===================================================================== *)
(** ** Serving a sequence of requests on one route                       *)
(* ===================================================================== *)

Module Serving.
Import Auth.

(** The responses of a route to the given requests, handled in order by
    one server. *)
Fixpoint serve (route : Env -> Request -> Server -> Response * Server)
    (reqs : list (Env * Request)) (sv : Server) : list Response * Server :=
  match reqs with
  | [] => ([], sv)
  | (env, req) :: rest =>
      let (res, sv1) := route env req sv in
      let (more, sv2) := serve route rest sv1 in
      (res :: more, sv2)
  end.

End Serving.

(* ===================================================================== *)
(** ** Registration: the signup handler, its validation chain and route  *)
(* ===================================================================== *)

Module Registration.
Import Auth.

(** Library functions the signup path uses: JavaScript's [parseInt] and
    validator.js's [isInt({ min, max })]. *)
Record Library := mkLibrary {
  parseInt : string -> Z;
  isInt : Z -> Z -> string -> bool
}.

(** What the document store fills in when it creates a user document:
    the new [_id] and the defaults of the [User] schema, which is not
    among the embedded files. *)
Record Created := mkCreated {
  new_id : ObjectId;
  new_profilePic : string;
  new_reputation : Z
}.

(** The body of a signup request; [role] and [section] are optional. *)
Record SignupRequest := mkSignupRequest {
  su_name : string;
  su_email : string;
  su_password : string;
  su_role : option string;
  su_section : option string;
  su_branch : string;
  su_semester : string;
  su_errors : list string          (* validationResult(req).array() *)
}.

Record RegisteredUser := mkRegisteredUser {
  ru_id : ObjectId; ru_name : string; ru_email : string; ru_role : string;
  ru_section : string; ru_branch : string; ru_semester : Z; ru_profilePic : string
}.

Inductive SignupBody :=
| SErrors (errors : list string)
| SError (error : string)
| SRegistered (message : string) (user : RegisteredUser)
              (accessToken refreshToken : string).

Record SignupResponse := mkSignupResponse { su_status : Z; su_body : SignupBody }.

Definition su_hasErrors (req : SignupRequest) : bool :=
  match su_errors req with [] => false | _ => true end.

(** [role || 'student'] *)
Definition roleOrStudent (role : option string) : string :=
  if truthy role then match role with Some r => r | None => "student" end
  else "student".

Definition orEmpty (o : option string) : string :=
  match o with Some s => s | None => EmptyString end.

Local Open Scope handler_scope.

(** [User.create(doc)]: the document is stored and returned. *)
Definition User_create (u : User) : M User :=
  record (OpCreate Users) ;;
  us <- get users ;;
  setUsers (us ++ [u]) ;;
  ret u.

Definition tryCatchSignup (body : M SignupResponse)
    (onError : string -> World -> SignupResponse * World)
    : World -> SignupResponse * World :=
  fun w => match body w with
           | (Returned r, w') => (r, w')
           | (Thrown e, w') => onError e w'
           end.

Section Signup.

Variable X : Collaborators.
Variable L : Library.

Definition signup (c : Created) (env : Env) (req : SignupRequest)
    : World -> SignupResponse * World :=
  tryCatchSignup
    (if su_hasErrors req then
       ret {| su_status := 400; su_body := SErrors (su_errors req) |}
     else
       let name := su_name req in
       let email := su_email req in
       let password := su_password req in
       (* Double-check email domain on server side (defense in depth) *)
       if negb (endsWith email "@mictech.edu.in") then
         ret {| su_status := 400;
                su_body := SError "Email must be a valid college email (@mictech.edu.in)" |}
       else
         existingUser <- User_findOne email ;;
         match existingUser with
         | Some _ =>
             ret {| su_status := 409; su_body := SError "Email already registered" |}
         | None =>
             user <- User_create
                       {| _id := new_id c; name := name; email := email;
                          (* the pre-save hook hashes the password *)
                          passwordHash := Some (bcryptHash X password);
                          googleId := None;
                          role := roleOrStudent (su_role req);
                          section := orEmpty (su_section req);
                          branch := su_branch req;
                          profilePic := new_profilePic c;
                          reputation := new_reputation c |} ;;
             let accessToken := generateAccessToken X user (now env) in
             let refreshToken := generateRefreshToken X user (now env) in
             RefreshToken_create
               {| rt_userId := _id user; rt_token := refreshToken;
                  rt_expiresAt := now env + 7 * 24 * 60 * 60 * 1000 |} ;;
             ret {| su_status := 201;
                    su_body :=
                      SRegistered "User registered successfully"
                        {| ru_id := _id user; ru_name := Auth.name user;
                           ru_email := Auth.email user; ru_role := role user;
                           ru_section := section user; ru_branch := branch user;
                           ru_semester := parseInt L (su_semester req);
                           ru_profilePic := profilePic user |}
                        accessToken refreshToken |}
         end)
    (fun error w =>
       ({| su_status := 500; su_body := SError "Registration failed" |},
        {| users := users w; refreshTokens := refreshTokens w;
           passwordResets := passwordResets w;
           console := console w ++ ["Signup error: " ++ error];
           outbox := outbox w; ops := ops w |})).

(** [isIn(values)] *)
Definition isIn (values : list string) (v : string) : bool :=
  List.existsb (String.eqb v) values.

Definition BRANCHES : list string :=
  ["CSE"; "AIML"; "AIDS"; "ECE"; "EEE"; "MECH"; "CIVIL"; "IT"].

(** [validateSignup]: the chains in order; [trim] and [normalizeEmail]
    replace the field, an absent optional field is skipped. *)
Definition validateSignup (req : SignupRequest) : SignupRequest :=
  let name := trim X (su_name req) in
  let e := trim X (su_email req) in
  let value := normalizeEmail X e in
  let password := su_password req in
  let semester := su_semester req in
  let branch := su_branch req in
  let section := match su_section req with
                 | Some s => Some (trim X s)
                 | None => None
                 end in
  {| su_name := name; su_email := value; su_password := password;
     su_role := su_role req; su_section := section;
     su_branch := branch; su_semester := semester;
     su_errors :=
       su_errors req
       ++ check (negb (String.eqb name EmptyString)) "Name is required"
       ++ check (isLength X 2 (Some 100%nat) name) "Name must be 2-100 characters"
       ++ check (negb (String.eqb e EmptyString)) "Email is required"
       ++ check (isEmail X e) "Invalid email format"
       ++ check (endsWith value ALLOWED_EMAIL_DOMAIN)
                ("Email must end with " ++ ALLOWED_EMAIL_DOMAIN)
       ++ check (negb (String.eqb password EmptyString)) "Password is required"
       ++ check (isLength X 8 None password) "Password must be at least 8 characters"
       ++ check (negb (String.eqb semester EmptyString)) "Semester is required"
       ++ check (isInt L 1 8 semester) "Semester must be between 1 and 8"
       ++ check (negb (String.eqb branch EmptyString)) "Branch is required"
       ++ check (isIn BRANCHES branch) "Invalid branch selection"
       ++ match su_role req with
          | Some r => check (isIn ["student"; "teacher"] r)
                            "Role must be student or teacher"
          | None => []
          end
       ++ match section with
          | Some s => check (isLength X 0 (Some 50%nat) s) "Invalid value"
          | None => []
          end |}.

(** [router.post('/signup', validateSignup, signup)] *)
Definition postSignup (c : Created) (env : Env) (req : SignupRequest) (sv : Server)
    : SignupResponse * Server :=
  let (res, w) := signup c env (validateSignup req) (world sv) in
  (res, {| rateLimitStore := rateLimitStore sv; world := w |}).

End Signup.

(** A user document with its password hash left out: every other field
    as it is. *)
Definition withoutPasswordHash (u : User) : User :=
  {| _id := _id u; name := name u; email := email u;
     passwordHash := None; googleId := googleId u; role := role u;
     section := section u; branch := branch u; profilePic := profilePic u;
     reputation := reputation u |}.

(** The user document a successful signup stores. *)
Definition newUser (X : Collaborators) (c : Created) (req : SignupRequest) : User :=
  {| _id := new_id c; name := su_name req; email := su_email req;
     passwordHash := Some (bcryptHash X (su_password req)); googleId := None;
     role := roleOrStudent (su_role req); section := orEmpty (su_section req);
     branch := su_branch req; profilePic := new_profilePic c;
     reputation := new_reputation c |}.

End Registration.

Module SampleSignup.
Import Auth Registration.

Definition L : Library :=
  {| parseInt := fun s => if String.eqb s "3" then 3 else 1;
     isInt := fun lo hi s => String.eqb s "3" || String.eqb s "1" |}.

Definition created : Created :=
  {| new_id := 3%nat; new_profilePic := EmptyString; new_reputation := 0 |}.

Definition meera : SignupRequest :=
  {| su_name := "Meera"; su_email := "meera@mictech.edu.in";
     su_password := "password1"; su_role := None; su_section := Some "A";
     su_branch := "CSE"; su_semester := "3"; su_errors := [] |}.

End SampleSignup.

(* ===================================================================== *)
(** ** Properties of the rate limiter                                    *)
(* ===================================================================== *)

Module RateLimiterFacts.
Import RateLimiter.

Lemma ceilDiv1000_mono x y : x <= y -> ceilDiv1000 x <= ceilDiv1000 y.
Proof.
  intros Hxy. unfold ceilDiv1000.
  assert (- y / 1000 <= - x / 1000) by (apply Z.div_le_mono; lia). lia.
Qed.

Lemma ceilDiv1000_pos x : 0 < x -> 0 < ceilDiv1000 x.
Proof.
  intros Hx. unfold ceilDiv1000.
  assert (- x / 1000 < 0) by (apply Z.div_lt_upper_bound; lia). lia.
Qed.

Lemma ceilDiv1000_bounds x :
  1000 * (ceilDiv1000 x - 1) < x <= 1000 * ceilDiv1000 x.
Proof.
  unfold ceilDiv1000.
  pose proof (Z.div_mod (- x) 1000 ltac:(lia)) as Hdiv.
  pose proof (Z.mod_pos_bound (- x) 1000 ltac:(lia)) as Hmod.
  lia.
Qed.

Lemma rateLimit_fresh opts key now store :
  (store !! key = None \/ exists e, store !! key = Some e /\ resetTime e < now) ->
  rateLimit opts key now store = freshWindow opts key now store.
Proof.
  unfold rateLimit. intros [-> | (e & -> & Hlt)]; [reflexivity |].
  destruct (Z.ltb_spec (resetTime e) now); [reflexivity | lia].
Qed.

Lemma rateLimit_counted opts key now store e :
  store !! key = Some e -> now <= resetTime e ->
  store' (rateLimit opts key now store)
    = <[key := {| count := count e + 1; resetTime := resetTime e |}]> store
  /\ (admitted (rateLimit opts key now store) = true <-> count e + 1 <= maxRequests opts)
  /\ (forall msg ra, outcome (rateLimit opts key now store) = TooMany msg ra ->
        msg = message opts /\ ra = ceilDiv1000 (resetTime e - now)).
Proof.
  intros Hk Hle. unfold rateLimit, admitted. rewrite Hk.
  destruct (Z.ltb_spec (resetTime e) now); [lia |]. cbn [count resetTime].
  destruct (Z.ltb_spec (maxRequests opts) (count e + 1)); cbn.
  - repeat split; try (intros; lia || discriminate); congruence.
  - repeat split; try (intros; lia || discriminate); congruence.
Qed.

Lemma rateLimit_other_keys opts key now store k :
  k <> key -> store' (rateLimit opts key now store) !! k = store !! k.
Proof.
  intros Hne. unfold rateLimit, freshWindow.
  destruct (store !! key) as [e|] eqn:Hk; cbn.
  - destruct (resetTime e <? now); cbn; [by rewrite lookup_insert_ne |].
    destruct (maxRequests opts <? count e + 1); cbn; by rewrite lookup_insert_ne.
  - by rewrite lookup_insert_ne.
Qed.

(** The clean-up timer only drops entries whose window is over, and a
    dropped entry is treated exactly like an expired one: admission does
    not depend on whether the sweep has run. *)
Lemma sweep_lookup t store k :
  sweep t store !! k
    = match store !! k with
      | Some e => if resetTime e <? t then None else Some e
      | None => None
      end.
Proof.
  unfold sweep. destruct (store !! k) as [e|] eqn:Hk.
  - destruct (Z.ltb_spec (resetTime e) t).
    + apply map_lookup_filter_None. right. intros x Hx. cbn.
      rewrite Hk in Hx. injection Hx as <-. lia.
    + apply map_lookup_filter_Some. split; [done | cbn; lia].
  - apply map_lookup_filter_None. by left.
Qed.

Lemma sweep_irrelevant opts key now store :
  outcome (rateLimit opts key now (sweep now store))
    = outcome (rateLimit opts key now store)
  /\ store' (rateLimit opts key now (sweep now store)) !! key
     = store' (rateLimit opts key now store) !! key.
Proof.
  unfold rateLimit. rewrite sweep_lookup.
  destruct (store !! key) as [e|] eqn:Hk; cbn.
  - destruct (resetTime e <? now) eqn:Hlt; cbn.
    + by rewrite !lookup_insert_eq.
    + rewrite Hlt.
      destruct (maxRequests opts <? count e + 1); cbn; by rewrite !lookup_insert_eq.
  - by rewrite !lookup_insert_eq.
Qed.

(** C7 (as the code has it).  For every key: on the first call for the
    key, or when the stored window is over ([entry.resetTime < now],
    strictly), the entry becomes [count = 1], [resetTime = now + windowMs]
    and the call is admitted; otherwise, which includes the boundary
    instant [now = entry.resetTime], the count is incremented, the
    window end is kept, and the call is admitted if and only if the
    incremented count is at most [maxRequests].  Entries of other keys
    are not touched. *)
Theorem rateLimit_admission opts key now store :
  let r := rateLimit opts key now store in
  ((store !! key = None \/ exists e, store !! key = Some e /\ resetTime e < now) ->
     store' r !! key = Some {| count := 1; resetTime := now + windowMs opts |}
     /\ admitted r = true)
  /\ (forall e, store !! key = Some e -> now <= resetTime e ->
     store' r !! key = Some {| count := count e + 1; resetTime := resetTime e |}
     /\ (admitted r = true <-> count e + 1 <= maxRequests opts))
  /\ (forall k, k <> key -> store' r !! k = store !! k).
Proof.
  cbv zeta. split; [| split].
  - intros Hfresh. rewrite (rateLimit_fresh _ _ _ _ Hfresh).
    unfold freshWindow, admitted; cbn. by rewrite lookup_insert_eq.
  - intros e Hk Hle.
    destruct (rateLimit_counted opts key now store e Hk Hle) as (Hs & Hadm & _).
    rewrite Hs, lookup_insert_eq. by split.
  - intros k Hne. by apply rateLimit_other_keys.
Qed.

Lemma rateLimit_admission_witness :
  let opts := mkOptions 900000 3 "Too many requests." in
  let r1 := rateLimit opts "k" 5000 ∅ in
  let r2 := rateLimit opts "k" 6000 (store' r1) in
  (store' r1 !! "k" = Some (mkEntry 1 905000) /\ admitted r1 = true)
  /\ (store' r2 !! "k" = Some (mkEntry 2 905000)
      /\ (admitted r2 = true <-> 1 + 1 <= 3)).
Proof.
  cbv zeta. split.
  - destruct (rateLimit_admission (mkOptions 900000 3 "Too many requests.") "k" 5000 ∅)
      as (Hfresh & _ & _).
    apply Hfresh. left. reflexivity.
  - destruct (rateLimit_admission (mkOptions 900000 3 "Too many requests.") "k" 6000
                (store' (rateLimit (mkOptions 900000 3 "Too many requests.") "k" 5000 ∅)))
      as (_ & Hcounted & _).
    apply (Hcounted (mkEntry 1 905000)).
    + vm_compute. reflexivity.
    + cbn. lia.
Defined.

(** C7 as the specification words it fails at the boundary instant: with
    [maxRequests = 1] and a window opened at time 0 for 1000 ms, a call
    at [now = 1000 = resetTime] is counted in the old window and
    rejected, where the specification's rule opens a fresh window and
    admits. *)
Lemma rateLimit_boundary_counterexample :
  let opts := mkOptions 1000 1 "Too many requests." in
  let s1 := store' (rateLimit opts "k" 0 ∅) in
  let r := rateLimit opts "k" 1000 s1 in
  s1 !! "k" = Some (mkEntry 1 1000)
  /\ specDecision opts (s1 !! "k") 1000 = (mkEntry 1 2000, true)
  /\ store' r !! "k" = Some (mkEntry 2 1000)
  /\ outcome r = TooMany "Too many requests." 0
  /\ (store' r !! "k", admitted r)
       <> (Some (specDecision opts (s1 !! "k") 1000).1,
           (specDecision opts (s1 !! "k") 1000).2).
Proof.
  cbv zeta. repeat split; try (vm_compute; reflexivity).
  vm_compute. discriminate.
Qed.

Lemma calls_in_window opts key times : forall store e,
  store !! key = Some e ->
  Forall (fun now => now <= resetTime e) times ->
  calls opts key times store !! key
    = Some {| count := count e + Z.of_nat (length times); resetTime := resetTime e |}.
Proof.
  induction times as [| now rest IH]; intros store e Hk Hall; cbn [calls length].
  - rewrite Hk. destruct e; cbn. f_equal. f_equal. lia.
  - inversion Hall as [| ? ? Hnow Hrest]; subst.
    destruct (rateLimit_counted opts key now store e Hk Hnow) as (Hs & _ & _).
    rewrite (IH (store' (rateLimit opts key now store))
                {| count := count e + 1; resetTime := resetTime e |}).
    + cbn. f_equal. f_equal. lia.
    + rewrite Hs. apply lookup_insert_eq.
    + exact Hrest.
Qed.

(** C10.  While the window of a key is active ([now < entry.resetTime]),
    a call for that key, admitted or rejected, leaves [entry.resetTime]
    as it is and adds exactly 1 to [entry.count]; so after any run of [n]
    in-window calls the count is the old count plus [n], with no cap at
    [maxRequests], and the window end is the one set by the first call
    of the window.  A rejected call reports
    [retryAfter = ceil((resetTime - now) / 1000)]: the whole seconds left
    until the fixed window end, rounded up, so
    [1000 * (retryAfter - 1) < resetTime - now <= 1000 * retryAfter].
    It is positive, a later rejected call of the same window never
    reports more, and one made at least a second later reports less. *)
Theorem rateLimit_window_fixed opts key store e :
  store !! key = Some e ->
  (forall now, now < resetTime e ->
     let r := rateLimit opts key now store in
     store' r !! key = Some {| count := count e + 1; resetTime := resetTime e |}
     /\ (forall msg ra, outcome r = TooMany msg ra ->
            ra = ceilDiv1000 (resetTime e - now) /\ 0 < ra
            /\ 1000 * (ra - 1) < resetTime e - now <= 1000 * ra))
  /\ (forall times, Forall (fun now => now < resetTime e) times ->
       calls opts key times store !! key
         = Some {| count := count e + Z.of_nat (length times);
                   resetTime := resetTime e |})
  /\ (forall now1 now2, now1 <= now2 -> now2 < resetTime e ->
       ceilDiv1000 (resetTime e - now2) <= ceilDiv1000 (resetTime e - now1))
  /\ (forall now1 now2 store2 e2 msg1 ra1 msg2 ra2,
       now1 <= now2 -> now2 < resetTime e ->
       store2 !! key = Some e2 -> resetTime e2 = resetTime e ->
       outcome (rateLimit opts key now1 store) = TooMany msg1 ra1 ->
       outcome (rateLimit opts key now2 store2) = TooMany msg2 ra2 ->
       ra2 <= ra1 /\ (now1 + 1000 <= now2 -> ra2 < ra1)).
Proof.
  intros Hk. split; [| split; [| split]].
  - intros now Hlt r. subst r.
    destruct (rateLimit_counted opts key now store e Hk) as (Hs & _ & Hrej); [lia |].
    split.
    + rewrite Hs. apply lookup_insert_eq.
    + intros msg ra Hout. destruct (Hrej msg ra Hout) as [_ ->].
      split; [reflexivity |]. split; [apply ceilDiv1000_pos; lia |].
      apply ceilDiv1000_bounds.
  - intros times Hall. apply calls_in_window; [exact Hk |].
    eapply Forall_impl; [exact Hall | cbn; intros; lia].
  - intros now1 now2 Hle _. apply ceilDiv1000_mono. lia.
  - intros now1 now2 store2 e2 msg1 ra1 msg2 ra2 Hle Hlt Hk2 Hsame Hout1 Hout2.
    destruct (rateLimit_counted opts key now1 store e Hk) as (_ & _ & Hrej1); [lia |].
    destruct (rateLimit_counted opts key now2 store2 e2 Hk2) as (_ & _ & Hrej2); [lia |].
    destruct (Hrej1 msg1 ra1 Hout1) as [_ ->].
    destruct (Hrej2 msg2 ra2 Hout2) as [_ ->]. rewrite Hsame.
    pose proof (ceilDiv1000_bounds (resetTime e - now1)) as H1.
    pose proof (ceilDiv1000_bounds (resetTime e - now2)) as H2.
    split; [apply ceilDiv1000_mono; lia | intros Hsec; lia].
Qed.

Lemma rateLimit_window_fixed_witness :
  let opts := mkOptions 900000 3 "Too many requests." in
  let store : gmap string RateLimitEntry := {[ "k" := mkEntry 3 905000 ]} in
  (store' (rateLimit opts "k" 6000 store) !! "k" = Some (mkEntry 4 905000)
   /\ outcome (rateLimit opts "k" 6000 store) = TooMany "Too many requests." 899
   /\ 1000 * (899 - 1) < 905000 - 6000 <= 1000 * 899)
  /\ calls opts "k" [6000; 7000; 8000; 9000] store !! "k" = Some (mkEntry 7 905000)
  /\ ceilDiv1000 (905000 - 7000) <= ceilDiv1000 (905000 - 6000)
  /\ (897 <= 899 /\ (6000 + 1000 <= 8000 -> 897 < 899)).
Proof.
  cbv zeta.
  destruct (rateLimit_window_fixed (mkOptions 900000 3 "Too many requests.") "k"
              {[ "k" := mkEntry 3 905000 ]} (mkEntry 3 905000))
    as (Hcall & Hrun & Hmono & Hless); [vm_compute; reflexivity |].
  destruct (Hcall 6000) as [Hentry Hretry]; [cbn; lia |].
  split; [| split; [| split]].
  - split; [exact Hentry |]. split; [vm_compute; reflexivity |].
    apply (Hretry "Too many requests." 899). vm_compute. reflexivity.
  - apply (Hrun [6000; 7000; 8000; 9000]). repeat constructor; cbn; lia.
  - apply (Hmono 6000 7000); cbn; lia.
  - apply (Hless 6000 8000 {[ "k" := mkEntry 5 905000 ]} (mkEntry 5 905000)
             "Too many requests." 899 "Too many requests." 897);
      try (cbn; lia); vm_compute; reflexivity.
Defined.

(** The scenario of the specification's window test, with the password
    reset limiter: three admitted calls with remaining quota 2, 1, 0, a
    fourth call rejected with the seconds left in the window, and a call
    after the window that is admitted again. *)
Example forgotPasswordLimiter_scenario :
  let call := forgotPasswordLimiter "10.0.0.7" "Asha@mictech.edu.in" in
  let r1 := call 0 ∅ in
  let r2 := call 1000 (store' r1) in
  let r3 := call 2000 (store' r2) in
  let r4 := call 3000 (store' r3) in
  let r5 := call 900001 (store' r4) in
  (outcome r1, outcome r2, outcome r3) = (Next, Next, Next)
  /\ List.map (fun r => List.nth 1 (List.map snd (headers r)) (-1)) [r1; r2; r3; r4]
       = [2; 1; 0; 0]
  /\ outcome r4 = TooMany (message forgotPasswordOptions) 897
  /\ outcome r5 = Next
  /\ store' r5 !! forgotPasswordKey "10.0.0.7" "asha@mictech.edu.in"
       = Some (mkEntry 1 1800001).
Proof. cbv zeta. vm_compute. repeat split. Qed.

End RateLimiterFacts.

(* ===================================================================== *)
(** ** Properties of the auth handlers                                   *)
(* ===================================================================== *)

Module AuthFacts.
Import Auth.

(** Unfolding a handler down to the store operations. *)
Ltac step_handler :=
  unfold tryCatch, bind, ret, throw, get, modify, record, consoleLog, logged,
    setUsers, setRefreshTokens, setPasswordResets, deliver; cbn.

Ltac unfold_store :=
  unfold User_findOne, User_findById, User_save, RefreshToken_create,
    RefreshToken_findOne, RefreshToken_deleteAt, RefreshToken_deleteOne,
    RefreshToken_deleteMany, PasswordReset_updateMany, PasswordReset_create,
    PasswordReset_findOne, PasswordReset_save, sha256, randomBytes,
    jwtVerifyRefresh.

(** *** [findFirst] *)

Lemma findFirst_Some {A} (p : A -> bool) (l : list A) i x :
  findFirst p l = Some (i, x) ->
  l !! i = Some x /\ p x = true
  /\ (forall j y, (j < i)%nat -> l !! j = Some y -> p y = false).
Proof.
  revert i. induction l as [| a l IH]; intros i Hf; cbn in Hf; [discriminate |].
  destruct (p a) eqn:Hpa.
  - injection Hf as <- <-. repeat split; [done | intros j y Hj; lia].
  - destruct (findFirst p l) as [[k y] |] eqn:Hrest; [| discriminate].
    injection Hf as <- <-. destruct (IH k eq_refl) as (Hk & Hp & Hmin).
    repeat split; [done | done |].
    intros [| j] z Hj Hz; cbn in Hz; [congruence |].
    apply (Hmin j); [lia | done].
Qed.

Lemma findFirst_None {A} (p : A -> bool) (l : list A) :
  findFirst p l = None <-> (forall x, In x l -> p x = false).
Proof.
  induction l as [| a l IH]; cbn; [by split |].
  destruct (p a) eqn:Hpa.
  - split; [discriminate |]. intros H. rewrite (H a) in Hpa; [discriminate | by left].
  - destruct (findFirst p l) as [[k y] |].
    + split; [discriminate |]. intros H.
      assert (Some (k, y) = None) as Hbad; [| discriminate].
      apply IH. intros x Hx. apply H. by right.
    + split; [| done]. intros _ x [<- | Hx]; [done |].
      by apply (proj1 IH).
Qed.

Lemma findFirst_In {A} (p : A -> bool) (l : list A) i x :
  findFirst p l = Some (i, x) -> In x l.
Proof.
  intros H. apply findFirst_Some in H as (H & _ & _).
  apply list_elem_of_In. by eapply list_elem_of_lookup_2.
Qed.

(** C5.  A login for an e-mail that matches no user and a login for an
    existing e-mail with a wrong password (both past validation) get the
    same response, status 401 with body [{error: 'Invalid credentials'}],
    whatever the two requests, clocks and stores are; neither creates a
    session. *)
Theorem login_failure_uniform X env1 env2 req1 req2 w1 w2 i u :
  hasErrors req1 = false -> hasErrors req2 = false ->
  findFirst (fun v => String.eqb (email v) (body_email req1)) (users w1) = None ->
  findFirst (fun v => String.eqb (email v) (body_email req2)) (users w2) = Some (i, u) ->
  comparePassword X u (body_password req2) = false ->
  (login X env1 req1 w1).1 = statusJson 401 (JError "Invalid credentials")
  /\ (login X env2 req2 w2).1 = (login X env1 req1 w1).1
  /\ refreshTokens (login X env1 req1 w1).2 = refreshTokens w1
  /\ refreshTokens (login X env2 req2 w2).2 = refreshTokens w2.
Proof.
  intros Hv1 Hv2 Hnone Hsome Hpw.
  unfold login. rewrite Hv1, Hv2. unfold_store. step_handler.
  rewrite Hnone, Hsome. cbn. rewrite Hpw. cbn. done.
Qed.

Lemma login_failure_uniform_witness :
  let unknown := Sample.withPassword "password1"
                   (Sample.withEmail "nobody@mictech.edu.in" Sample.request) in
  let wrong := Sample.withPassword "letmein123"
                 (Sample.withEmail "asha@mictech.edu.in" Sample.request) in
  let e := Sample.env 1000 Byte.x00 true None in
  (login Sample.X e unknown Sample.world0).1
    = statusJson 401 (JError "Invalid credentials")
  /\ (login Sample.X e wrong Sample.world0).1
     = (login Sample.X e unknown Sample.world0).1
  /\ refreshTokens (login Sample.X e unknown Sample.world0).2 = []
  /\ refreshTokens (login Sample.X e wrong Sample.world0).2 = [].
Proof.
  cbv zeta.
  apply (login_failure_uniform Sample.X _ _ _ _ Sample.world0 Sample.world0
           0%nat Sample.asha); reflexivity.
Defined.

(** *** Forgot-password *)

Lemma sendPasswordResetEmail_returns env email token userName w :
  exists ok w', sendPasswordResetEmail env email token userName w = (Returned ok, w')
    /\ users w' = users w /\ refreshTokens w' = refreshTokens w
    /\ passwordResets w' = passwordResets w.
Proof.
  unfold sendPasswordResetEmail.
  destruct (transporter env); cbn; [destruct (sendMailError env) |];
    step_handler; eauto 10.
Qed.

Lemma forgotPassword_response X env req w :
  hasErrors req = false ->
  (forgotPassword X env req w).1 = json (JMessage successMessage).
Proof.
  intros Hv. unfold forgotPassword. rewrite Hv. unfold_store. step_handler.
  destruct (findFirst _ (users w)) as [[i u] |]; cbn; [| done].
  destruct (truthy (googleId u) && negb (truthy (passwordHash u))); cbn; [done |].
  match goal with
  | |- context [sendPasswordResetEmail ?e ?m ?t ?n ?w0] =>
      destruct (sendPasswordResetEmail_returns e m t n w0) as (ok & w' & -> & _)
  end.
  done.
Qed.

(** C4.  Every forgot-password request that is admitted by the rate
    limiter and passes validation is answered with status 200 and the
    one success message, for every store (the e-mail registered, not
    registered, or registered to a federated-only account) and every
    mail configuration and delivery outcome. *)
Theorem forgotPassword_response_invariant X env req sv :
  RateLimiter.admitted
    (RateLimiter.forgotPasswordLimiter (ip req) (body_email req) (now env)
       (rateLimitStore sv)) = true ->
  validationErrors (validateForgotPassword X req) = [] ->
  (postForgotPassword X env req sv).1 = json (JMessage successMessage).
Proof.
  intros Hadm Hvalid. unfold postForgotPassword, limited.
  unfold RateLimiter.admitted in Hadm.
  destruct (RateLimiter.outcome _); [| discriminate].
  assert (hasErrors (validateForgotPassword X req) = false) as Hok
    by (unfold hasErrors; by rewrite Hvalid).
  pose proof (forgotPassword_response X env _ (world sv) Hok) as H.
  destruct (forgotPassword X env (validateForgotPassword X req) (world sv)) as [res w'].
  exact H.
Qed.

Lemma forgotPassword_response_invariant_witness :
  let sv := {| rateLimitStore := ∅; world := Sample.world0 |} in
  let ask e := Sample.withEmail e Sample.request in
  let answer := json (JMessage successMessage) in
  (* registered, mail delivered *)
  (postForgotPassword Sample.X (Sample.env 1000 Byte.x2a true None)
     (ask "asha@mictech.edu.in") sv).1 = answer
  (* registered, mail transport fails *)
  /\ (postForgotPassword Sample.X (Sample.env 1000 Byte.x2a true (Some "ECONNREFUSED"))
       (ask "asha@mictech.edu.in") sv).1 = answer
  (* not registered *)
  /\ (postForgotPassword Sample.X (Sample.env 1000 Byte.x2a true None)
       (ask "nobody@mictech.edu.in") sv).1 = answer
  (* federated-only *)
  /\ (postForgotPassword Sample.X (Sample.env 1000 Byte.x2a true None)
       (ask "ravi@mictech.edu.in") sv).1 = answer.
Proof.
  cbv zeta. split; [| split; [| split]];
    apply (forgotPassword_response_invariant Sample.X); vm_compute; reflexivity.
Defined.

(** *** Refresh *)



(** *** Token format checks *)

Lemma check_false msg : check false msg = [msg].
Proof. reflexivity. Qed.

Lemma resetPassword_invalid X env req w :
  hasErrors req = true ->
  resetPassword X env req w = (statusJson 400 (JErrors (validationErrors req)), w).
Proof. intros H. unfold resetPassword. rewrite H. by step_handler. Qed.

Lemma jsLength_ascii s :
  allChars (fun c => (nat_of_ascii c <? 128)%nat) s = true ->
  jsLength s = String.length s.
Proof.
  induction s as [| c s IH]; [reflexivity |].
  cbn [allChars jsLength String.length]. intros [Hc Hs]%andb_true_iff.
  unfold utf16Units. rewrite Hc. by rewrite IH.
Qed.

Lemma allChars_impl (p q : ascii -> bool) s :
  (forall c, p c = true -> q c = true) ->
  allChars p s = true -> allChars q s = true.
Proof.
  intros Hpq. induction s as [| c s IH]; [reflexivity |].
  cbn [allChars]. intros [Hc Hs]%andb_true_iff.
  by rewrite (Hpq c Hc), IH.
Qed.

Lemma isHexChar_ascii c : isHexChar c = true -> (nat_of_ascii c <? 128)%nat = true.
Proof. destruct c as [[] [] [] [] [] [] [] []]; try discriminate; reflexivity. Qed.

Lemma isLowerHexChar_hex c : isLowerHexChar c = true -> isHexChar c = true.
Proof. unfold isHexChar. by intros ->. Qed.

(** On a string of hex digits, JavaScript's [length] is the number of
    bytes. *)
Lemma jsLength_hex s : allChars isHexChar s = true -> jsLength s = String.length s.
Proof.
  intros Hs. apply jsLength_ascii.
  revert Hs. apply allChars_impl, isHexChar_ascii.
Qed.

Lemma jsLength_empty s : jsLength s = 64%nat -> s <> EmptyString.
Proof. by intros H ->. Qed.

(** What verify-reset-token does with a token that passes its length
    test: one hash, one lookup, and an answer that says whether the
    lookup found a document. *)
Lemma verifyResetToken_hashed X env req w :
  jsLength (params_token req) = 64%nat ->
  verifyResetToken X env req w
    = (match findFirst (validReset (sha256hex X (params_token req)) (now env))
                       (passwordResets w) with
       | Some _ => json (JValid true None)
       | None => statusJson 400 (JValid false (Some "Invalid or expired reset token"))
       end,
       {| users := users w; refreshTokens := refreshTokens w;
          passwordResets := passwordResets w; console := console w;
          outbox := outbox w;
          ops := (ops w ++ [OpHash; OpFind PasswordResets])%list |}).
Proof.
  intros Hlen. unfold verifyResetToken.
  destruct (String.eqb_spec (params_token req) EmptyString) as [He | _].
  { by apply jsLength_empty in Hlen. }
  rewrite Hlen. unfold_store. step_handler.
  destruct (findFirst _ (passwordResets w)) as [[i r] |]; cbn;
    by rewrite <- app_assoc.
Qed.

Lemma verifyResetToken_format X env req w :
  jsLength (params_token req) <> 64%nat ->
  verifyResetToken X env req w
    = (statusJson 400 (JValid false (Some "Invalid token format")), w).
Proof.
  intros Hlen. unfold verifyResetToken.
  destruct (Nat.eqb_spec (jsLength (params_token req)) 64); [done |].
  rewrite orb_true_r. by step_handler.
Qed.

(** C8 (as the code has it).  Both paths check the length of the token
    only: verify-reset-token its JavaScript [length], reset-password
    with validator.js's [isLength({ min: 64, max: 64 })].  A token that
    fails the check is rejected with a format error and nothing else
    happens: verify-reset-token answers 400 [Invalid token format],
    reset-password answers 400 with the validation errors, among them
    [Invalid reset token format], and in both cases the world, in
    particular the list of hashing and storage operations, is unchanged.
    A token that passes the check, hex or not, is hashed and looked up
    (on the reset-password path once the rest of the body passes
    validation as well), and one that matches no unused, unexpired
    document gets the generic invalid-or-expired error, with nothing
    stored. *)
Theorem malformed_token_rejected X env req :
  (forall w, jsLength (params_token req) <> 64%nat ->
     verifyResetToken X env req w
       = (statusJson 400 (JValid false (Some "Invalid token format")), w))
  /\ (forall sv, isLength X 64 (Some 64%nat) (body_token req) = false ->
       exists errs,
         postResetPassword X env req sv = (statusJson 400 (JErrors errs), sv)
         /\ In "Invalid reset token format" errs)
  /\ (forall w, jsLength (params_token req) = 64%nat ->
       ops (verifyResetToken X env req w).2
         = (ops w ++ [OpHash; OpFind PasswordResets])%list
       /\ (findFirst (validReset (sha256hex X (params_token req)) (now env))
                     (passwordResets w) = None ->
           verifyResetToken X env req w
             = (statusJson 400 (JValid false (Some "Invalid or expired reset token")),
                {| users := users w; refreshTokens := refreshTokens w;
                   passwordResets := passwordResets w; console := console w;
                   outbox := outbox w;
                   ops := (ops w ++ [OpHash; OpFind PasswordResets])%list |})))
  /\ (forall sv, validationErrors (validateResetPassword X req) = [] ->
       isLength X 64 (Some 64%nat) (body_token req) = true
       /\ (exists rest,
             ops (world (postResetPassword X env req sv).2)
               = (ops (world sv) ++ OpHash :: OpFind PasswordResets :: rest)%list)
       /\ (findFirst (validReset (sha256hex X (body_token req)) (now env))
                     (passwordResets (world sv)) = None ->
           postResetPassword X env req sv
             = (statusJson 400 (JError invalidTokenError),
                {| rateLimitStore := rateLimitStore sv;
                   world :=
                     {| users := users (world sv);
                        refreshTokens := refreshTokens (world sv);
                        passwordResets := passwordResets (world sv);
                        console := console (world sv);
                        outbox := outbox (world sv);
                        ops := (ops (world sv)
                                ++ [OpHash; OpFind PasswordResets])%list |} |}))).
Proof.
  split; [| split; [| split]].
  - intros w Hlen. by apply verifyResetToken_format.
  - intros [limits w] Hlen. unfold postResetPassword, unlimited. cbn [world rateLimitStore].
    assert (In "Invalid reset token format"
              (validationErrors (validateResetPassword X req))) as Hin.
    { unfold validateResetPassword; cbn. rewrite Hlen, check_false.
      rewrite !in_app_iff. right. right. left. by left. }
    eexists. rewrite resetPassword_invalid; [by split |].
    unfold hasErrors. by destruct (validationErrors (validateResetPassword X req)).
  - intros w Hlen. rewrite (verifyResetToken_hashed X env req w Hlen).
    split; [reflexivity |]. by intros ->.
  - intros [limits w] Hvalid. cbn [world rateLimitStore]. split; [| split].
    + revert Hvalid. unfold validateResetPassword; cbn.
      destruct (isLength X 64 (Some 64%nat) (body_token req)); [done |].
      rewrite check_false. intros H.
      apply app_nil in H as [_ H]. apply app_nil in H as [_ H].
      apply app_nil in H as [H _]. discriminate.
    + unfold postResetPassword, unlimited.
      cbn [world rateLimitStore]. unfold resetPassword, hasErrors. rewrite Hvalid.
      unfold_store. step_handler.
      destruct (findFirst _ (passwordResets w)) as [[i r] |]; cbn.
      * destruct (findFirst _ (users w)) as [[j u] |]; cbn;
          rewrite <- ?app_assoc; cbn; eauto.
      * rewrite <- ?app_assoc; cbn; eauto.
    + intros Hnone. unfold postResetPassword, unlimited.
      cbn [world rateLimitStore]. unfold resetPassword, hasErrors. rewrite Hvalid.
      unfold_store. step_handler. cbn in Hnone. rewrite Hnone. cbn.
      by rewrite <- ?app_assoc.
Qed.

Lemma malformed_token_rejected_witness :
  let e := Sample.env 1000 Byte.x00 true None in
  let short := Sample.withPassword "password2" (Sample.withToken "abc123" Sample.request) in
  let long := Sample.withPassword "password2"
                (Sample.withToken Sample.eToken Sample.request) in
  let sv := {| rateLimitStore := ∅; world := Sample.world0 |} in
  verifyResetToken Sample.X e short Sample.world0
    = (statusJson 400 (JValid false (Some "Invalid token format")), Sample.world0)
  /\ (exists errs, postResetPassword Sample.X e short sv = (statusJson 400 (JErrors errs), sv)
                   /\ In "Invalid reset token format" errs)
  /\ (verifyResetToken Sample.X e long Sample.world0).1
       = statusJson 400 (JValid false (Some "Invalid or expired reset token"))
  /\ (postResetPassword Sample.X e long sv).1
       = statusJson 400 (JError invalidTokenError).
Proof.
  cbv zeta.
  destruct (malformed_token_rejected Sample.X (Sample.env 1000 Byte.x00 true None)
              (Sample.withPassword "password2" (Sample.withToken "abc123" Sample.request)))
    as (Hverify & Hreset & _ & _).
  destruct (malformed_token_rejected Sample.X (Sample.env 1000 Byte.x00 true None)
              (Sample.withPassword "password2"
                 (Sample.withToken Sample.eToken Sample.request)))
    as (_ & _ & Hhashed & Hlooked).
  split; [| split; [| split]].
  - apply Hverify. vm_compute. discriminate.
  - apply Hreset. vm_compute. reflexivity.
  - destruct (Hhashed Sample.world0) as [_ Hgeneric]; [vm_compute; reflexivity |].
    rewrite Hgeneric; [reflexivity | vm_compute; reflexivity].
  - destruct (Hlooked {| rateLimitStore := ∅; world := Sample.world0 |})
      as (_ & _ & Hgeneric); [vm_compute; reflexivity |].
    rewrite Hgeneric; [reflexivity | vm_compute; reflexivity].
Defined.

(** C8 as stated fails for a token of 64 characters that are not hex
    digits: neither path answers with a format error, and both hash the
    token and query the store before answering with the generic
    invalid-or-expired error. *)
Lemma non_hex_token_counterexample :
  let e := Sample.env 1000 Byte.x00 true None in
  let req := Sample.withPassword "password2"
               (Sample.withToken Sample.zToken Sample.request) in
  let sv := {| rateLimitStore := ∅; world := Sample.world0 |} in
  is64Hex Sample.zToken = false
  /\ (verifyResetToken Sample.X e req Sample.world0).1
       = statusJson 400 (JValid false (Some "Invalid or expired reset token"))
  /\ ops (verifyResetToken Sample.X e req Sample.world0).2
       = [OpHash; OpFind PasswordResets]
  /\ (postResetPassword Sample.X e req sv).1
       = statusJson 400 (JError invalidTokenError)
  /\ ops (world (postResetPassword Sample.X e req sv).2)
       = [OpHash; OpFind PasswordResets].
Proof. cbv zeta. vm_compute. repeat split. Qed.

(** *** Issuing a reset token *)

Lemma toHex_length bytes : String.length (toHex bytes) = (2 * length bytes)%nat.
Proof. induction bytes as [| b rest IH]; cbn [toHex String.length length]; lia. Qed.

Lemma hexDigit_lower b :
  isLowerHexChar (hexDigit (Byte.to_N b / 16)) = true
  /\ isLowerHexChar (hexDigit (Byte.to_N b mod 16)) = true.
Proof. destruct b; split; reflexivity. Qed.

Lemma toHex_lower bytes : allChars isLowerHexChar (toHex bytes) = true.
Proof.
  induction bytes as [| b rest IH]; [reflexivity |].
  cbn [toHex allChars]. destruct (hexDigit_lower b) as [-> ->]. exact IH.
Qed.

Lemma plainTokenOf_format env :
  String.length (plainTokenOf env) = 64%nat
  /\ allChars isLowerHexChar (plainTokenOf env) = true.
Proof.
  unfold plainTokenOf. split; [| apply toHex_lower].
  rewrite toHex_length, length_map, length_seq. reflexivity.
Qed.

(** The token a request issues has JavaScript length 64. *)
Lemma plainTokenOf_jsLength env : jsLength (plainTokenOf env) = 64%nat.
Proof.
  destruct (plainTokenOf_format env) as [Hlen Hhex].
  rewrite jsLength_hex; [exact Hlen |].
  revert Hhex. apply allChars_impl, isLowerHexChar_hex.
Qed.

Lemma issuesFor_Some req w u :
  issuesFor req w = Some u ->
  hasErrors req = false
  /\ (exists i, findFirst (fun v => String.eqb (email v)
                              (RateLimiter.toLowerCase (body_email req)))
                          (users w) = Some (i, u))
  /\ truthy (googleId u) && negb (truthy (passwordHash u)) = false.
Proof.
  unfold issuesFor. destruct (hasErrors req); [discriminate |].
  destruct (findFirst _ (users w)) as [[i v] |]; [| discriminate].
  destruct (truthy (googleId v) && negb (truthy (passwordHash v))) eqn:Hg;
    [discriminate |].
  intros [= <-]. eauto.
Qed.

Lemma forgotPassword_issues X env req w u :
  issuesFor req w = Some u ->
  let w' := (forgotPassword X env req w).2 in
  users w' = users w /\ refreshTokens w' = refreshTokens w
  /\ passwordResets w'
      = (invalidate (_id u) (passwordResets w) ++ [issuedReset X env u])%list.
Proof.
  intros Hissue. apply issuesFor_Some in Hissue as (Hv & (i & Hu) & Hg).
  cbv zeta. unfold forgotPassword. rewrite Hv. unfold_store. step_handler.
  rewrite Hu. cbn. rewrite Hg. cbn.
  match goal with
  | |- context [sendPasswordResetEmail ?e ?m ?t ?n ?w0] =>
      destruct (sendPasswordResetEmail_returns e m t n w0)
        as (ok & w' & -> & Hus & Hrt & Hpr)
  end.
  cbn in *. rewrite Hus, Hrt, Hpr. done.
Qed.

Lemma forgotPassword_no_issue X env req w :
  issuesFor req w = None ->
  let w' := (forgotPassword X env req w).2 in
  users w' = users w /\ refreshTokens w' = refreshTokens w
  /\ passwordResets w' = passwordResets w.
Proof.
  unfold issuesFor, forgotPassword.
  destruct (hasErrors req); [by step_handler |].
  unfold_store. step_handler.
  destruct (findFirst _ (users w)) as [[i v] |]; cbn; [| done].
  destruct (truthy (googleId v) && negb (truthy (passwordHash v))); [done |].
  discriminate.
Qed.

Lemma forgotPassword_console X env req w u :
  issuesFor req w = Some u ->
  let w' := (forgotPassword X env req w).2 in
  (transporter env = true ->
     console w' = (console w ++ mailLog env (body_email req))%list
     /\ outbox w'
         = (outbox w ++ match sendMailError env with
                        | None => [resetMail env (body_email req) (name u)
                                     (plainTokenOf env)]
                        | Some _ => []
                        end)%list)
  /\ (transporter env = false ->
       console w' = (console w ++ devLog env (body_email req) (plainTokenOf env))%list
       /\ outbox w' = outbox w).
Proof.
  intros Hissue. apply issuesFor_Some in Hissue as (Hv & (i & Hu) & Hg).
  cbv zeta. unfold forgotPassword. rewrite Hv. unfold_store. step_handler.
  rewrite Hu. cbn. rewrite Hg. cbn.
  unfold sendPasswordResetEmail, mailLog, devLog, resetMail, resetUrlFor, plainTokenOf.
  split; intros Ht; rewrite Ht; cbn.
  - destruct (sendMailError env); step_handler; by rewrite ?app_nil_r.
  - step_handler. split; [| done]. by rewrite <- !app_assoc.
Qed.

(** C6 (as the code has it).  A forgot-password request that issues a
    token draws 32 random bytes and hex-encodes them into a plaintext
    token of 64 lower-case hex characters.  It marks the user's unused
    reset documents as used and appends one document holding the
    SHA-256 hex digest of the plaintext, [expiresAt = now + 15 minutes]
    and [used = false]; users and refresh tokens are untouched, so what
    is persisted depends on the plaintext through its digest only.  The
    plaintext goes into the reset link of the e-mail.  With a configured
    mail transporter the console receives one line built from the
    e-mail address or the transport error; without one (development
    mode) the console receives the reset link, which ends with the
    plaintext token, and no mail is sent. *)
Theorem reset_token_issuance X env req w u :
  issuesFor req w = Some u ->
  let w' := (forgotPassword X env req w).2 in
  let plainToken := toHex (List.map (rng env) (seq 0 32)) in
  (String.length plainToken = 64%nat /\ allChars isLowerHexChar plainToken = true)
  /\ passwordResets w'
       = (invalidate (_id u) (passwordResets w)
          ++ [ {| pr_userId := _id u; tokenHash := sha256hex X plainToken;
                  pr_expiresAt := now env + 15 * 60 * 1000; used := false |} ])%list
  /\ users w' = users w /\ refreshTokens w' = refreshTokens w
  /\ (transporter env = true ->
       console w' = (console w ++ mailLog env (body_email req))%list
       /\ outbox w'
           = (outbox w ++ match sendMailError env with
                          | None => [resetMail env (body_email req) (name u) plainToken]
                          | Some _ => []
                          end)%list)
  /\ (transporter env = false ->
       console w' = (console w ++ devLog env (body_email req) plainToken)%list
       /\ outbox w' = outbox w).
Proof.
  intros Hissue. cbv zeta.
  destruct (forgotPassword_issues X env req w u Hissue) as (Hus & Hrt & Hpr).
  destruct (forgotPassword_console X env req w u Hissue) as (Hsmtp & Hdev).
  split; [apply (plainTokenOf_format env) |].
  repeat split; try done; try (apply Hsmtp; done); apply Hdev; done.
Qed.

Lemma reset_token_issuance_witness :
  let e := Sample.env 1000 Byte.x2a true None in
  let req := Sample.withEmail "Asha@mictech.edu.in" Sample.request in
  let w' := (forgotPassword Sample.X e req Sample.world0).2 in
  let plainToken := "2a2a2a2a2a2a2a2a2a2a2a2a2a2a2a2a2a2a2a2a2a2a2a2a2a2a2a2a2a2a2a2a" in
  passwordResets w'
    = [ {| pr_userId := 1%nat; tokenHash := "sha256:" ++ plainToken;
           pr_expiresAt := 901000; used := false |} ]
  /\ console w' = ["✅ Password reset email sent to Asha@mictech.edu.in"]
  /\ outbox w' = [resetMail e "Asha@mictech.edu.in" "Asha" plainToken].
Proof.
  cbv zeta.
  destruct (reset_token_issuance Sample.X (Sample.env 1000 Byte.x2a true None)
              (Sample.withEmail "Asha@mictech.edu.in" Sample.request)
              Sample.world0 Sample.asha)
    as (_ & Hpr & _ & _ & Hsmtp & _); [vm_compute; reflexivity |].
  destruct Hsmtp as [Hlog Hout]; [reflexivity |].
  split; [exact Hpr | split; [exact Hlog | exact Hout]].
Defined.

(** C6 as stated fails: without a configured mail transporter the
    handler writes the reset link, and with it the plaintext token, to
    the console. *)
Lemma plaintext_logged_counterexample :
  let e := Sample.env 1000 Byte.x2a false None in
  let req := Sample.withEmail "asha@mictech.edu.in" Sample.request in
  let w' := (forgotPassword Sample.X e req Sample.world0).2 in
  plainTokenOf e = "2a2a2a2a2a2a2a2a2a2a2a2a2a2a2a2a2a2a2a2a2a2a2a2a2a2a2a2a2a2a2a2a"
  /\ In ("   Reset URL: http://localhost:3000/auth/reset-password?token="
         ++ plainTokenOf e) (console w')
  /\ outbox w' = [].
Proof. cbv zeta. vm_compute. repeat split. right; right; right; left. reflexivity. Qed.

(** *** What each handler does to the stores *)

Lemma resetPassword_found X env req w i r j u :
  hasErrors req = false ->
  findFirst (validReset (sha256hex X (body_token req)) (now env)) (passwordResets w)
    = Some (i, r) ->
  findFirst (fun v => Nat.eqb (_id v) (pr_userId r)) (users w) = Some (j, u) ->
  (resetPassword X env req w).1 = json successBody
  /\ users (resetPassword X env req w).2
      = <[j := setPassword u (bcryptHash X (body_password req))]> (users w)
  /\ passwordResets (resetPassword X env req w).2
      = <[i := markUsed r]> (passwordResets w)
  /\ refreshTokens (resetPassword X env req w).2
      = List.filter (fun t => negb (Nat.eqb (rt_userId t) (_id u))) (refreshTokens w).
Proof.
  intros Hv Hrec Huser. unfold resetPassword. rewrite Hv. unfold_store. step_handler.
  rewrite Hrec. cbn. rewrite Huser. cbn. done.
Qed.

Lemma resetPassword_no_user X env req w i r :
  hasErrors req = false ->
  findFirst (validReset (sha256hex X (body_token req)) (now env)) (passwordResets w)
    = Some (i, r) ->
  findFirst (fun v => Nat.eqb (_id v) (pr_userId r)) (users w) = None ->
  (resetPassword X env req w).1 = statusJson 400 (JError "User not found")
  /\ users (resetPassword X env req w).2 = users w
  /\ passwordResets (resetPassword X env req w).2 = passwordResets w
  /\ refreshTokens (resetPassword X env req w).2 = refreshTokens w.
Proof.
  intros Hv Hrec Huser. unfold resetPassword. rewrite Hv. unfold_store. step_handler.
  rewrite Hrec. cbn. rewrite Huser. cbn. done.
Qed.

Lemma resetPassword_not_found X env req w :
  hasErrors req = false ->
  findFirst (validReset (sha256hex X (body_token req)) (now env)) (passwordResets w)
    = None ->
  (resetPassword X env req w).1 = statusJson 400 (JError invalidTokenError)
  /\ users (resetPassword X env req w).2 = users w
  /\ passwordResets (resetPassword X env req w).2 = passwordResets w
  /\ refreshTokens (resetPassword X env req w).2 = refreshTokens w.
Proof.
  intros Hv Hrec. unfold resetPassword. rewrite Hv. unfold_store. step_handler.
  rewrite Hrec. cbn. done.
Qed.

(** A 200 answer of reset-password means that the token matched a
    document and that the document's user exists. *)
Lemma resetPassword_success X env req w :
  status (resetPassword X env req w).1 = 200 ->
  hasErrors req = false
  /\ exists i r j u,
       findFirst (validReset (sha256hex X (body_token req)) (now env))
                 (passwordResets w) = Some (i, r)
       /\ findFirst (fun v => Nat.eqb (_id v) (pr_userId r)) (users w) = Some (j, u).
Proof.
  intros Hok. destruct (hasErrors req) eqn:Hv.
  { rewrite resetPassword_invalid in Hok by done. discriminate. }
  split; [done |].
  destruct (findFirst (validReset (sha256hex X (body_token req)) (now env))
                      (passwordResets w)) as [[i r] |] eqn:Hrec.
  - destruct (findFirst (fun v => Nat.eqb (_id v) (pr_userId r)) (users w))
      as [[j u] |] eqn:Huser; [by exists i, r, j, u |].
    destruct (resetPassword_no_user X env req w i r Hv Hrec Huser) as (Hr & _).
    rewrite Hr in Hok. discriminate.
  - destruct (resetPassword_not_found X env req w Hv Hrec) as (Hr & _).
    rewrite Hr in Hok. discriminate.
Qed.

Lemma login_resets X env req w :
  passwordResets (login X env req w).2 = passwordResets w.
Proof.
  unfold login. destruct (hasErrors req); [by step_handler |].
  unfold_store. step_handler.
  destruct (findFirst _ (users w)) as [[i u] |]; cbn; [| done].
  destruct (comparePassword X u (body_password req)); cbn; done.
Qed.

Lemma refresh_resets X env req w :
  passwordResets (refreshAccessToken X env req w).2 = passwordResets w.
Proof.
  unfold refreshAccessToken.
  destruct (String.eqb (body_refreshToken req) EmptyString); [by step_handler |].
  unfold_store. step_handler.
  destruct (verifyRefreshToken X (now env) (body_refreshToken req)); step_handler;
    [| done].
  destruct (findFirst _ (refreshTokens w)) as [[i t] |]; cbn; [| done].
  destruct (rt_expiresAt t <? now env); cbn; [done |].
  destruct (findFirst _ (users w)) as [[j u] |]; cbn; done.
Qed.

Lemma logout_resets env req w :
  passwordResets (logout env req w).2 = passwordResets w.
Proof.
  unfold logout. destruct (String.eqb (body_refreshToken req) EmptyString); [by step_handler |].
  unfold_store. step_handler.
  destruct (findFirst _ (refreshTokens w)) as [[i t] |]; cbn; done.
Qed.

Lemma verifyResetToken_resets X env req w :
  passwordResets (verifyResetToken X env req w).2 = passwordResets w.
Proof.
  unfold verifyResetToken.
  destruct (String.eqb (params_token req) EmptyString || _); [by step_handler |].
  unfold_store. step_handler.
  destruct (findFirst _ (passwordResets w)) as [[i r] |]; cbn; done.
Qed.

Lemma step_resets X c w :
  ResetsStep X c (passwordResets w) (passwordResets (step X c w)).
Proof.
  destruct c as [env req | env req | env req | env req | env req | env req | t];
    cbn [step].
  - rewrite login_resets. constructor.
  - rewrite refresh_resets. constructor.
  - rewrite logout_resets. constructor.
  - destruct (issuesFor req w) as [u |] eqn:Hissue.
    + destruct (forgotPassword_issues X env req w u Hissue) as (_ & _ & ->).
      constructor.
    + destruct (forgotPassword_no_issue X env req w Hissue) as (_ & _ & ->).
      constructor.
  - destruct (hasErrors req) eqn:Hv.
    { rewrite resetPassword_invalid by done. constructor. }
    destruct (findFirst (validReset (sha256hex X (body_token req)) (now env))
                        (passwordResets w)) as [[i r] |] eqn:Hrec.
    + destruct (findFirst (fun v => Nat.eqb (_id v) (pr_userId r)) (users w))
        as [[j u] |] eqn:Huser.
      * destruct (resetPassword_found X env req w i r j u Hv Hrec Huser)
          as (_ & _ & -> & _).
        constructor. by apply findFirst_Some in Hrec as (? & _).
      * destruct (resetPassword_no_user X env req w i r Hv Hrec Huser)
          as (_ & _ & -> & _).
        constructor.
    + destruct (resetPassword_not_found X env req w Hv Hrec) as (_ & _ & -> & _).
      constructor.
  - rewrite verifyResetToken_resets. constructor.
  - cbn. constructor.
Qed.

(** *** Reset revokes sessions *)

Lemma refresh_without_row X env req w :
  body_refreshToken req <> EmptyString ->
  (forall id, verifyRefreshToken X (now env) (body_refreshToken req) = Some id ->
              forall t, In t (refreshTokens w) -> rt_userId t <> id) ->
  (refreshAccessToken X env req w).1 = statusJson 401 (JError "Invalid refresh token").
Proof.
  intros Hne Hrows. unfold refreshAccessToken.
  destruct (String.eqb_spec (body_refreshToken req) EmptyString); [done |].
  unfold_store. step_handler.
  destruct (verifyRefreshToken X (now env) (body_refreshToken req)) as [id |] eqn:Hjwt;
    step_handler; [| done].
  destruct (findFirst _ (refreshTokens w)) as [[i t] |] eqn:Hrow; cbn; [| done].
  exfalso. pose proof (findFirst_In _ _ _ _ Hrow) as Hin.
  apply findFirst_Some in Hrow as (_ & Hp & _).
  apply andb_true_iff in Hp as [_ Hid]. apply Nat.eqb_eq in Hid.
  by apply (Hrows id eq_refl t Hin).
Qed.

(** C3.  When reset-password succeeds for the token of a reset document
    [r], no refresh-token document of the user [pr_userId r] is left
    (the documents of other users are kept), and from then on a refresh
    request that presents a refresh token of that user, that is a
    non-empty token whose verified payload names that user, is answered
    401, at any later time. *)
Theorem reset_revokes_sessions X env req w i r :
  status (resetPassword X env req w).1 = 200 ->
  findFirst (validReset (sha256hex X (body_token req)) (now env)) (passwordResets w)
    = Some (i, r) ->
  let w' := (resetPassword X env req w).2 in
  (forall t, In t (refreshTokens w') <->
             In t (refreshTokens w) /\ rt_userId t <> pr_userId r)
  /\ (forall env' req',
        body_refreshToken req' <> EmptyString ->
        (forall id, verifyRefreshToken X (now env') (body_refreshToken req') = Some id ->
                    id = pr_userId r) ->
        status (refreshAccessToken X env' req' w').1 = 401).
Proof.
  intros Hok Hrec. cbv zeta.
  destruct (resetPassword_success X env req w Hok) as (Hv & i' & r' & j & u & Hrec' & Hu).
  rewrite Hrec in Hrec'. injection Hrec' as <- <-.
  destruct (resetPassword_found X env req w i r j u Hv Hrec Hu) as (_ & _ & _ & Hrt).
  assert (_id u = pr_userId r) as Hid.
  { apply findFirst_Some in Hu as (_ & Hp & _). by apply Nat.eqb_eq in Hp. }
  assert (forall t, In t (refreshTokens (resetPassword X env req w).2) <->
                    In t (refreshTokens w) /\ rt_userId t <> pr_userId r) as Hrows.
  { intros t. rewrite Hrt, filter_In, Hid, negb_true_iff, Nat.eqb_neq. done. }
  split; [exact Hrows |].
  intros env' req' Hne Hjwt.
  rewrite refresh_without_row; [done | done |].
  intros id Hid' t Hin. apply Hrows in Hin as [_ Hne']. by rewrite (Hjwt id Hid').
Qed.

Lemma reset_revokes_sessions_witness :
  let token := "2a2a2a2a2a2a2a2a2a2a2a2a2a2a2a2a2a2a2a2a2a2a2a2a2a2a2a2a2a2a2a2a" in
  let session := {| rt_userId := 1%nat; rt_token := "refresh:asha@mictech.edu.in";
                    rt_expiresAt := 604800000 |} in
  let other := {| rt_userId := 2%nat; rt_token := "refresh:ravi@mictech.edu.in";
                  rt_expiresAt := 604800000 |} in
  let doc := {| pr_userId := 1%nat; tokenHash := "sha256:" ++ token;
                pr_expiresAt := 901000; used := false |} in
  let w := {| users := [Sample.asha; Sample.ravi]; refreshTokens := [session; other];
              passwordResets := [doc]; console := []; outbox := []; ops := [] |} in
  let req := Sample.withPassword "password2" (Sample.withToken token Sample.request) in
  let w' := (resetPassword Sample.X (Sample.env 2000 Byte.x00 true None) req w).2 in
  (* before the reset the session refreshes *)
  status (refreshAccessToken Sample.X (Sample.env 1500 Byte.x00 true None)
            (Sample.withRefreshToken "refresh:asha@mictech.edu.in" Sample.request) w).1
    = 200
  (* after it, it does not *)
  /\ status (refreshAccessToken Sample.X (Sample.env 3000 Byte.x00 true None)
               (Sample.withRefreshToken "refresh:asha@mictech.edu.in" Sample.request)
               w').1 = 401.
Proof.
  cbv zeta. split; [vm_compute; reflexivity |].
  eapply (reset_revokes_sessions Sample.X (Sample.env 2000 Byte.x00 true None) _ _ 0%nat).
  - vm_compute. reflexivity.
  - vm_compute. reflexivity.
  - vm_compute. discriminate.
  - intros id. vm_compute. intros [= <-]. reflexivity.
Defined.

(** *** The reset collection along a run *)

Lemma In_insert {A} (l : list A) i x y :
  In x (<[i := y]> l) -> x = y \/ In x l.
Proof.
  revert i. induction l as [| a l IH]; intros [| i]; cbn; try tauto.
  - intros [<- | H]; tauto.
  - intros [<- | H]; [tauto |]. destruct (IH i H); tauto.
Qed.

Lemma In_invalidate uid rs r' :
  In r' (invalidate uid rs) ->
  exists r, In r rs /\ tokenHash r' = tokenHash r /\ pr_userId r' = pr_userId r
            /\ (used r' = true \/ (r' = r /\ pr_userId r <> uid)).
Proof.
  unfold invalidate. rewrite in_map_iff. intros (r & <- & Hin).
  exists r. split; [done |].
  destruct (Nat.eqb_spec (pr_userId r) uid) as [Heq | Hne]; cbn.
  - destruct (used r) eqn:Hu; cbn; [rewrite Hu |]; tauto.
  - tauto.
Qed.

Section DigestInvariants.
Variable X : Collaborators.
Variable h : string.

Lemma Dead_step c rs rs' :
  ResetsStep X c rs rs' -> mayIssue X c <> Some h -> Dead h rs -> Dead h rs'.
Proof.
  intros Hstep Hfresh Hdead.
  destruct Hstep as [c rs | c rs i r Hi | env req rs u | c rs t]; intros r' Hin Hh.
  - by apply Hdead.
  - apply In_insert in Hin as [-> | Hin]; [reflexivity | by apply Hdead].
  - apply in_app_iff in Hin as [Hin | [<- | []]].
    + apply In_invalidate in Hin as (r0 & Hin0 & Hh0 & _ & [Hu | [-> _]]);
        [done |]. by apply Hdead.
    + cbn in Hh. cbn in Hfresh. congruence.
  - apply filter_In in Hin as [Hin _]. by apply Hdead.
Qed.

Lemma OwnedBy_step uid c rs rs' :
  ResetsStep X c rs rs' -> mayIssue X c <> Some h ->
  OwnedBy h uid rs -> OwnedBy h uid rs'.
Proof.
  intros Hstep Hfresh Hown.
  destruct Hstep as [c rs | c rs i r Hi | env req rs u | c rs t]; intros r' Hin Hh.
  - by apply Hown.
  - apply In_insert in Hin as [-> | Hin]; [| by apply Hown].
    cbn in *. apply Hown; [| done].
    apply list_elem_of_In. by eapply list_elem_of_lookup_2.
  - apply in_app_iff in Hin as [Hin | [<- | []]].
    + apply In_invalidate in Hin as (r0 & Hin0 & Hh0 & Hid0 & _).
      rewrite Hid0. apply Hown; [done | congruence].
    + cbn in Hh. cbn in Hfresh. congruence.
  - apply filter_In in Hin as [Hin _]. by apply Hown.
Qed.

Lemma Dead_run cs : forall w,
  Forall (fun c => mayIssue X c <> Some h) cs ->
  Dead h (passwordResets w) -> Dead h (passwordResets (run X cs w)).
Proof.
  induction cs as [| c cs IH]; intros w Hall Hdead; [done |].
  inversion Hall as [| ? ? Hc Hcs]; subst. cbn [run]. apply IH; [done |].
  eapply Dead_step; [apply step_resets | done | done].
Qed.

Lemma OwnedBy_run uid cs : forall w,
  Forall (fun c => mayIssue X c <> Some h) cs ->
  OwnedBy h uid (passwordResets w) -> OwnedBy h uid (passwordResets (run X cs w)).
Proof.
  induction cs as [| c cs IH]; intros w Hall Hown; [done |].
  inversion Hall as [| ? ? Hc Hcs]; subst. cbn [run]. apply IH; [done |].
  eapply OwnedBy_step; [apply step_resets | done | done].
Qed.

Lemma Dead_findFirst t rs :
  Dead h rs -> findFirst (validReset h t) rs = None.
Proof.
  intros Hdead. apply findFirst_None. intros r Hin. unfold validReset.
  destruct (String.eqb_spec (tokenHash r) h) as [Hh | _]; [| done].
  by rewrite (Hdead r Hin Hh).
Qed.

(** Issuing to the owner of digest [h] a token with another digest
    leaves no usable document for [h]. *)
Lemma Dead_reissue env u rs :
  OwnedBy h (_id u) rs -> digestOf X env <> h ->
  Dead h (invalidate (_id u) rs ++ [issuedReset X env u]).
Proof.
  intros Hown Hne r' Hin Hh.
  apply in_app_iff in Hin as [Hin | [<- | []]]; [| cbn in Hh; congruence].
  apply In_invalidate in Hin as (r0 & Hin0 & Hh0 & _ & [Hu | [-> Hid]]); [done |].
  exfalso. apply Hid. by apply Hown.
Qed.

Lemma OwnedBy_issue env u rs :
  digestOf X env = h ->
  (forall r, In r rs -> tokenHash r <> h) ->
  OwnedBy h (_id u) (invalidate (_id u) rs ++ [issuedReset X env u]).
Proof.
  intros Hh Hfresh r' Hin Hh'.
  apply in_app_iff in Hin as [Hin | [<- | []]]; [| reflexivity].
  apply In_invalidate in Hin as (r0 & Hin0 & Hh0 & _).
  exfalso. apply (Hfresh r0 Hin0). congruence.
Qed.

Lemma holders_nil rs r :
  holders h rs = [] -> In r rs -> tokenHash r <> h.
Proof.
  intros Hnil Hin Hh.
  assert (In r (holders h rs)) as Hbad.
  { apply filter_In. split; [done |]. by apply String.eqb_eq. }
  rewrite Hnil in Hbad. destruct Hbad.
Qed.

(** Consuming the document found for [h], when no other document
    carries [h], leaves no usable document for [h]. *)
Lemma Dead_consume t rs : forall i r,
  findFirst (validReset h t) rs = Some (i, r) ->
  (length (holders h rs) <= 1)%nat ->
  Dead h (<[i := markUsed r]> rs).
Proof.
  induction rs as [| a l IH]; intros i r Hf Hone; [discriminate |].
  cbn in Hf. destruct (validReset h t a) eqn:Hva.
  - injection Hf as <- <-. cbn.
    assert (tokenHash a = h) as Ha.
    { unfold validReset in Hva. apply andb_true_iff in Hva as [Hva _].
      apply andb_true_iff in Hva as [Hva _]. by apply String.eqb_eq. }
    cbn in Hone. rewrite (proj2 (String.eqb_eq _ _) Ha) in Hone. cbn in Hone.
    assert (holders h l = []) as Hnil
      by (unfold holders; destruct (List.filter _ l); [done | cbn in Hone; lia]).
    intros r' [<- | Hin] Hh; [reflexivity |].
    exfalso. by eapply holders_nil.
  - destruct (findFirst (validReset h t) l) as [[k y] |] eqn:Hrest; [| discriminate].
    injection Hf as <- <-. cbn.
    assert (tokenHash y = h /\ In y l) as [Hy Hyin].
    { split; [| by eapply findFirst_In].
      apply findFirst_Some in Hrest as (_ & Hp & _). unfold validReset in Hp.
      apply andb_true_iff in Hp as [Hp _]. apply andb_true_iff in Hp as [Hp _].
      by apply String.eqb_eq. }
    cbn in Hone. intros r' [<- | Hin] Hh.
    + exfalso. rewrite (proj2 (String.eqb_eq _ _) Hh) in Hone. cbn in Hone.
      assert (holders h l = []) as Hnil
        by (unfold holders; destruct (List.filter _ l); [done | cbn in Hone; lia]).
      by eapply holders_nil.
    + apply (IH k y eq_refl); [| done | done].
      destruct (String.eqb (tokenHash a) h); cbn in Hone; unfold holders; lia.
Qed.

End DigestInvariants.

(** *** One-shot consumption *)

Lemma validReset_true h t r :
  validReset h t r = true -> tokenHash r = h /\ used r = false /\ t < pr_expiresAt r.
Proof.
  unfold validReset. intros H.
  apply andb_true_iff in H as [H Ht]. apply andb_true_iff in H as [Hh Hu].
  apply String.eqb_eq in Hh. apply negb_true_iff in Hu. apply Z.ltb_lt in Ht. done.
Qed.

(** C2.  Reset-password succeeds only on a reset document that carries
    the digest of the submitted token, has [used = false] and expires
    strictly after the time of the call, and it leaves that document
    with [used = true].  No later call sets [used] back: when the digest
    identifies at most one document (tokens are random) and no later
    forgot-password call draws a token with the same digest, then after
    any run of further calls a reset-password request with the same
    token is answered 400 with the generic invalid-or-expired error and
    leaves every user document, hence the password, as it was. *)
Theorem reset_token_one_shot X env req w :
  status (resetPassword X env req w).1 = 200 ->
  let h := sha256hex X (body_token req) in
  let w1 := (resetPassword X env req w).2 in
  (exists i r,
      findFirst (validReset h (now env)) (passwordResets w) = Some (i, r)
      /\ passwordResets w !! i = Some r
      /\ tokenHash r = h /\ used r = false /\ now env < pr_expiresAt r
      /\ passwordResets w1 !! i = Some (markUsed r))
  /\ ((length (holders h (passwordResets w)) <= 1)%nat ->
      forall cs, Forall (fun c => mayIssue X c <> Some h) cs ->
      forall env2 req2, body_token req2 = body_token req -> hasErrors req2 = false ->
        let w2 := run X cs w1 in
        (resetPassword X env2 req2 w2).1 = statusJson 400 (JError invalidTokenError)
        /\ users (resetPassword X env2 req2 w2).2 = users w2).
Proof.
  intros Hok. cbv zeta.
  destruct (resetPassword_success X env req w Hok) as (Hv & i & r & j & u & Hrec & Hu).
  destruct (resetPassword_found X env req w i r j u Hv Hrec Hu) as (_ & _ & Hpr & _).
  pose proof (findFirst_Some _ _ _ _ Hrec) as (Hi & Hvalid & _).
  apply validReset_true in Hvalid as (Hh & Hused & Hexp).
  split.
  - exists i, r. repeat split; try done.
    rewrite Hpr. apply list_lookup_insert_eq. by eapply lookup_lt_Some.
  - intros Hone cs Hcs env2 req2 Htok Hv2.
    assert (Dead (sha256hex X (body_token req))
                 (passwordResets (run X cs (resetPassword X env req w).2))) as Hdead.
    { apply Dead_run; [done |]. rewrite Hpr. by eapply Dead_consume. }
    destruct (resetPassword_not_found X env2 req2
                (run X cs (resetPassword X env req w).2) Hv2) as (Hr & Hus & _).
    + rewrite Htok. by apply Dead_findFirst.
    + by split.
Qed.

Lemma reset_token_one_shot_witness :
  let token := "2a2a2a2a2a2a2a2a2a2a2a2a2a2a2a2a2a2a2a2a2a2a2a2a2a2a2a2a2a2a2a2a" in
  let doc := {| pr_userId := 1%nat; tokenHash := "sha256:" ++ token;
                pr_expiresAt := 901000; used := false |} in
  let w := {| users := [Sample.asha; Sample.ravi]; refreshTokens := [];
              passwordResets := [doc]; console := []; outbox := []; ops := [] |} in
  let req := Sample.withPassword "password2" (Sample.withToken token Sample.request) in
  let again := Sample.withPassword "password3" (Sample.withToken token Sample.request) in
  let w1 := (resetPassword Sample.X (Sample.env 2000 Byte.x00 true None) req w).2 in
  let between :=
    [CallVerifyResetToken (Sample.env 2500 Byte.x00 true None) req;
     CallForgotPassword (Sample.env 3000 Byte.x07 true None)
       (Sample.withEmail "asha@mictech.edu.in" Sample.request)] in
  let w2 := run Sample.X between w1 in
  (resetPassword Sample.X (Sample.env 4000 Byte.x00 true None) again w2).1
    = statusJson 400 (JError invalidTokenError)
  /\ users (resetPassword Sample.X (Sample.env 4000 Byte.x00 true None) again w2).2
      = users w2.
Proof.
  cbv zeta.
  eapply (reset_token_one_shot Sample.X (Sample.env 2000 Byte.x00 true None)).
  - vm_compute. reflexivity.
  - vm_compute. lia.
  - repeat constructor; vm_compute; discriminate.
  - reflexivity.
  - reflexivity.
Defined.

(** *** At most one active reset token per user *)

Lemma active_le_unused uid t rs :
  (length (activeResets uid t rs) <= length (unusedResets uid rs))%nat.
Proof.
  unfold activeResets, unusedResets. induction rs as [| r rs IH]; cbn; [lia |].
  destruct (Nat.eqb (pr_userId r) uid && negb (used r)); cbn; [| lia].
  destruct (t <? pr_expiresAt r); cbn; lia.
Qed.

Lemma unused_invalidate_same uid rs :
  unusedResets uid (invalidate uid rs) = [].
Proof.
  unfold unusedResets, invalidate. induction rs as [| r rs IH]; cbn; [done |].
  destruct (Nat.eqb (pr_userId r) uid && negb (used r)) eqn:Hr; cbn.
  - by rewrite andb_false_r.
  - by rewrite Hr.
Qed.

Lemma unused_invalidate_other uid uid' rs :
  uid <> uid' -> unusedResets uid (invalidate uid' rs) = unusedResets uid rs.
Proof.
  intros Hne. unfold unusedResets, invalidate.
  induction rs as [| r rs IH]; cbn; [done |]. rewrite IH.
  destruct (Nat.eqb_spec (pr_userId r) uid') as [Heq | _]; cbn; [| done].
  assert ((pr_userId r =? uid)%nat = false) as Hother
    by (apply Nat.eqb_neq; congruence).
  destruct (used r); cbn; by rewrite Hother.
Qed.

Lemma unused_consume uid rs : forall i r,
  rs !! i = Some r ->
  (length (unusedResets uid (<[i := markUsed r]> rs)) <= length (unusedResets uid rs))%nat.
Proof.
  unfold unusedResets. induction rs as [| a l IH]; intros [| i] r Hi;
    try discriminate.
  - injection Hi as ->. change (<[0%nat := markUsed r]> (r :: l)) with (markUsed r :: l).
    cbn [List.filter markUsed used pr_userId]. rewrite andb_false_r.
    destruct (Nat.eqb (pr_userId r) uid && negb (used r)); cbn [length]; lia.
  - change (<[S i := markUsed r]> (a :: l)) with (a :: <[i := markUsed r]> l).
    change ((a :: l) !! S i) with (l !! i) in Hi.
    specialize (IH i r Hi). cbn [List.filter].
    destruct (Nat.eqb (pr_userId a) uid && negb (used a)); cbn [length]; lia.
Qed.

Lemma unused_purge uid (p : PasswordReset -> bool) rs :
  (length (unusedResets uid (List.filter p rs)) <= length (unusedResets uid rs))%nat.
Proof.
  unfold unusedResets. induction rs as [| a l IH]; cbn; [lia |].
  destruct (p a); cbn; destruct (Nat.eqb (pr_userId a) uid && negb (used a)); cbn; lia.
Qed.

Lemma unused_issue X env u rs :
  unusedResets (_id u) (invalidate (_id u) rs ++ [issuedReset X env u])
    = [issuedReset X env u].
Proof.
  unfold unusedResets. rewrite List.filter_app. fold (unusedResets (_id u) (invalidate (_id u) rs)).
  rewrite unused_invalidate_same. cbn. by rewrite Nat.eqb_refl.
Qed.

Lemma single_step X uid c rs rs' :
  ResetsStep X c rs rs' ->
  (length (unusedResets uid rs) <= 1)%nat -> (length (unusedResets uid rs') <= 1)%nat.
Proof.
  intros Hstep Hone.
  destruct Hstep as [c rs | c rs i r Hi | env req rs u | c rs t].
  - done.
  - pose proof (unused_consume uid rs i r Hi). lia.
  - destruct (Nat.eq_dec uid (_id u)) as [-> | Hne].
    + by rewrite unused_issue.
    + unfold unusedResets. rewrite List.filter_app, length_app.
      fold (unusedResets uid (invalidate (_id u) rs)).
      rewrite unused_invalidate_other by done. cbn.
      destruct (Nat.eqb_spec (_id u) uid); [congruence |]. cbn.
      lia.
  - pose proof (unused_purge uid (fun r => t <? pr_expiresAt r) rs). lia.
Qed.

Lemma single_run X uid cs : forall w,
  (length (unusedResets uid (passwordResets w)) <= 1)%nat ->
  (length (unusedResets uid (passwordResets (run X cs w))) <= 1)%nat.
Proof.
  induction cs as [| c cs IH]; intros w Hone; [done |].
  cbn [run]. apply IH. eapply single_step; [apply step_resets | done].
Qed.

Lemma invalidate_lookup uid rs i r :
  rs !! i = Some r -> pr_userId r = uid ->
  exists r', invalidate uid rs !! i = Some r'
             /\ used r' = true /\ tokenHash r' = tokenHash r.
Proof.
  revert i. unfold invalidate.
  induction rs as [| a l IH]; intros [| i] Hi Hid; try discriminate.
  - injection Hi as ->. cbn. eexists. split; [reflexivity |].
    rewrite Hid, Nat.eqb_refl. cbn. destruct (used r) eqn:Hu; cbn; done.
  - apply (IH i Hi Hid).
Qed.

Lemma verifyResetToken_dead X env token w :
  jsLength token = 64%nat ->
  Dead (sha256hex X token) (passwordResets w) ->
  (verifyResetToken X env (withParamsToken token) w).1
    = statusJson 400 (JValid false (Some "Invalid or expired reset token"))
  /\ exists w', verifyToken X env token w = (Returned None, w').
Proof.
  intros Hlen Hdead. unfold verifyResetToken, verifyToken. cbn [params_token withParamsToken].
  destruct (String.eqb_spec token EmptyString) as [-> | _]; [discriminate |].
  rewrite Hlen. unfold_store. step_handler.
  rewrite (Dead_findFirst _ _ _ Hdead). cbn. eauto.
Qed.

Lemma createReset_issues X env uid w :
  exists w',
    createReset X env uid w
      = (Returned ({| pr_userId := uid; tokenHash := digestOf X env;
                      pr_expiresAt := now env + 15 * 60 * 1000; used := false |},
                   plainTokenOf env), w')
    /\ passwordResets w'
        = (invalidate uid (passwordResets w)
           ++ [ {| pr_userId := uid; tokenHash := digestOf X env;
                   pr_expiresAt := now env + 15 * 60 * 1000; used := false |} ])%list.
Proof.
  unfold createReset. unfold_store. step_handler. eexists. split; reflexivity.
Qed.

(** C1.  A forgot-password request that issues a token for user [u]
    (and likewise the model's [createReset]) first marks every unused
    reset document of [u] as used and then appends the new document,
    which is the only unused document of [u] afterwards.  Once a user
    has at most one unused document, which holds right after an
    issuance, the user has at most one unused and unexpired document
    after any run of calls, at any time.  When the same user is issued
    a later token, verification of the earlier plaintext token fails
    from then on, provided its digest was new when it was issued and no
    later forgot-password call draws a token with the same digest
    (tokens are 32 random bytes). *)
Theorem single_active_reset_token X :
  (forall env req w u,
      issuesFor req w = Some u ->
      let w1 := (forgotPassword X env req w).2 in
      passwordResets w1
        = (invalidate (_id u) (passwordResets w) ++ [issuedReset X env u])%list
      /\ (forall i r, passwordResets w !! i = Some r -> pr_userId r = _id u ->
            exists r', passwordResets w1 !! i = Some r'
                       /\ used r' = true /\ tokenHash r' = tokenHash r)
      /\ unusedResets (_id u) (passwordResets w1) = [issuedReset X env u])
  /\ (forall env uid w,
        passwordResets (createReset X env uid w).2
          = (invalidate uid (passwordResets w)
             ++ [ {| pr_userId := uid; tokenHash := digestOf X env;
                     pr_expiresAt := now env + 15 * 60 * 1000; used := false |} ])%list)
  /\ (forall uid cs w t,
        (length (unusedResets uid (passwordResets w)) <= 1)%nat ->
        (length (activeResets uid t (passwordResets (run X cs w))) <= 1)%nat)
  /\ (forall env req w u cs env2 req2 u2 cs',
        let h := digestOf X env in
        let w1 := (forgotPassword X env req w).2 in
        issuesFor req w = Some u ->
        issuesFor req2 (run X cs w1) = Some u2 -> _id u2 = _id u ->
        (forall r, In r (passwordResets w) -> tokenHash r <> h) ->
        Forall (fun c => mayIssue X c <> Some h)
               (cs ++ CallForgotPassword env2 req2 :: cs') ->
        let w4 := run X cs' (forgotPassword X env2 req2 (run X cs w1)).2 in
        forall env',
          (verifyResetToken X env' (withParamsToken (plainTokenOf env)) w4).1
            = statusJson 400 (JValid false (Some "Invalid or expired reset token"))
          /\ exists w5, verifyToken X env' (plainTokenOf env) w4 = (Returned None, w5)).
Proof.
  split; [| split; [| split]].
  - intros env req w u Hissue. cbv zeta.
    destruct (forgotPassword_issues X env req w u Hissue) as (_ & _ & Hpr).
    split; [exact Hpr |]. split.
    + intros i r Hi Hid. rewrite Hpr.
      destruct (invalidate_lookup (_id u) (passwordResets w) i r Hi Hid)
        as (r' & Hr' & Hu & Hh).
      exists r'. split; [| done]. by apply lookup_app_l_Some.
    + rewrite Hpr. apply unused_issue.
  - intros env uid w.
    destruct (createReset_issues X env uid w) as (w' & -> & Hpr). exact Hpr.
  - intros uid cs w t Hone.
    pose proof (active_le_unused uid t (passwordResets (run X cs w))) as Hle.
    pose proof (single_run X uid cs w Hone). lia.
  - intros env req w u cs env2 req2 u2 cs'. cbv zeta.
    intros Hissue Hissue2 Hsame Hfresh Hall env'.
    destruct (forgotPassword_issues X env req w u Hissue) as (_ & _ & Hpr).
    apply Forall_app in Hall as [Hcs Hall].
    inversion Hall as [| ? ? Hc2 Hcs']; subst.
    apply verifyResetToken_dead; [apply plainTokenOf_jsLength |].
    apply Dead_run; [exact Hcs' |].
    destruct (forgotPassword_issues X env2 req2 _ u2 Hissue2) as (_ & _ & ->).
    apply Dead_reissue; [| intros Heq; apply Hc2; cbn [mayIssue]; by rewrite Heq].
    rewrite Hsame. apply OwnedBy_run; [exact Hcs |].
    rewrite Hpr. by apply OwnedBy_issue.
Qed.

Lemma single_active_reset_token_witness :
  let ask := Sample.withEmail "asha@mictech.edu.in" Sample.request in
  let first := Sample.env 1000 Byte.x2a true None in
  let second := Sample.env 2000 Byte.x07 true None in
  let w1 := (forgotPassword Sample.X first ask Sample.world0).2 in
  let peek := [CallVerifyResetToken (Sample.env 1500 Byte.x00 true None)
                 (withParamsToken (plainTokenOf first))] in
  let w3 := (forgotPassword Sample.X second ask (run Sample.X peek w1)).2 in
  unusedResets (_id Sample.asha) (passwordResets w1)
    = [issuedReset Sample.X first Sample.asha]
  /\ (length (activeResets (_id Sample.asha) 2500
                (passwordResets (run Sample.X [CallForgotPassword second ask] w1)))
       <= 1)%nat
  /\ (verifyResetToken Sample.X (Sample.env 2500 Byte.x00 true None)
        (withParamsToken (plainTokenOf first)) (run Sample.X [] w3)).1
      = statusJson 400 (JValid false (Some "Invalid or expired reset token")).
Proof.
  cbv zeta.
  destruct (single_active_reset_token Sample.X) as (Hissue & _ & Hactive & Hearlier).
  destruct (Hissue (Sample.env 1000 Byte.x2a true None)
              (Sample.withEmail "asha@mictech.edu.in" Sample.request)
              Sample.world0 Sample.asha)
    as (_ & _ & Hunused); [vm_compute; reflexivity |].
  split; [exact Hunused |]. split.
  - apply Hactive. rewrite Hunused. cbn. lia.
  - apply (Hearlier _ _ _ Sample.asha _ (Sample.env 2000 Byte.x07 true None)
             (Sample.withEmail "asha@mictech.edu.in" Sample.request) Sample.asha []).
    + vm_compute. reflexivity.
    + vm_compute. reflexivity.
    + reflexivity.
    + intros r [].
    + repeat constructor; vm_compute; discriminate.
Defined.

(** *** The end-to-end scenario

    Login, forgot-password, reset-password with the mailed token, then
    the old refresh token no longer refreshes, the old password no longer
    logs in and the new one does. *)
Example end_to_end :
  let credentials p := Sample.withPassword p
                         (Sample.withEmail "asha@mictech.edu.in" Sample.request) in
  let '(r1, w1) := login Sample.X (Sample.env 1000 Byte.x00 true None)
                     (credentials "password1") Sample.world0 in
  let '(r2, w2) := forgotPassword Sample.X (Sample.env 2000 Byte.x2a true None)
                     (credentials EmptyString) w1 in
  let token := match outbox w2 with
               | [m] => substring 48 64 (mail_resetUrl m)
               | _ => EmptyString
               end in
  let '(r3, w3) := resetPassword Sample.X (Sample.env 3000 Byte.x00 true None)
                     (Sample.withPassword "password2"
                        (Sample.withToken token Sample.request)) w2 in
  let '(r4, w4) := refreshAccessToken Sample.X (Sample.env 4000 Byte.x00 true None)
                     (Sample.withRefreshToken "refresh:asha@mictech.edu.in"
                        Sample.request) w3 in
  let '(r5, w5) := login Sample.X (Sample.env 5000 Byte.x00 true None)
                     (credentials "password1") w4 in
  let '(r6, w6) := login Sample.X (Sample.env 6000 Byte.x00 true None)
                     (credentials "password2") w5 in
  List.map status [r1; r2; r3; r4; r5; r6] = [200; 200; 200; 401; 401; 200]
  /\ token = plainTokenOf (Sample.env 2000 Byte.x2a true None)
  /\ List.map used (passwordResets w6) = [true]
  /\ List.map rt_userId (refreshTokens w3) = [].
Proof. vm_compute. repeat split. Qed.

End AuthFacts.

(* ===================================================================== *)
(** ** Further properties of the rate limiter                            *)
(* ===================================================================== *)

Module RateLimiterCoverage.
Import RateLimiter RateLimiterRuns RateLimiterFacts.

Lemma decisions_in_window opts key times : forall store e,
  store !! key = Some e ->
  Forall (fun now => now <= resetTime e) times ->
  decisions opts key times store
    = List.map (fun k => count e + 1 + Z.of_nat k <=? maxRequests opts)
               (seq 0 (length times)).
Proof.
  induction times as [| now rest IH]; intros store e Hk Hall; [reflexivity |].
  inversion Hall as [| ? ? Hnow Hrest]; subst.
  destruct (rateLimit_counted opts key now store e Hk Hnow) as (Hs & Hadm & _).
  cbn [decisions length seq List.map]. f_equal.
  - destruct (admitted (rateLimit opts key now store)) eqn:Ha.
    + symmetry. apply Z.leb_le. assert (count e + 1 <= maxRequests opts) by by apply Hadm.
      lia.
    + symmetry. apply Z.leb_gt.
      destruct (Z.le_gt_cases (count e + 1) (maxRequests opts)) as [Hle | Hgt]; [| lia].
      apply Hadm in Hle. discriminate.
  - rewrite (IH _ {| count := count e + 1; resetTime := resetTime e |}).
    + rewrite <- seq_shift, List.map_map. apply List.map_ext. intros k. cbn.
      f_equal. lia.
    + rewrite Hs. apply lookup_insert_eq.
    + exact Hrest.
Qed.

Lemma admittedCount_threshold (m : Z) (n : nat) : forall c : Z,
  (admittedCount (List.map (fun k => (c + Z.of_nat k <=? m)%Z) (seq 0 n))
   <= Z.to_nat (Z.max 0 (m - c + 1)%Z))%nat.
Proof.
  unfold admittedCount. induction n as [| n IH]; intros c; [cbn; lia |].
  cbn [seq List.map]. rewrite <- seq_shift, List.map_map.
  specialize (IH (c + 1)).
  erewrite List.map_ext in IH; [| intros k; reflexivity].
  assert (List.map (fun k => c + Z.of_nat (S k) <=? m) (seq 0 n)
          = List.map (fun k => c + 1 + Z.of_nat k <=? m) (seq 0 n)) as ->.
  { apply List.map_ext. intros k. f_equal. lia. }
  cbn [List.filter]. destruct (Z.leb_spec (c + Z.of_nat 0) m); cbn [length]; lia.
Qed.

(** X1.  Quota of a window.  When a call at [t0] opens a window (the key
    has no entry, or its window is over), that call is admitted, and of
    the following calls made up to the window end [t0 + windowMs] the
    [k]-th call of the window is admitted exactly when [k <= maxRequests];
    so a window admits at most [max 1 maxRequests] calls. *)
Theorem window_quota opts key t0 times store :
  (store !! key = None \/ exists e, store !! key = Some e /\ resetTime e < t0) ->
  Forall (fun now => now <= t0 + windowMs opts) times ->
  decisions opts key (t0 :: times) store
    = true :: List.map (fun k => Z.of_nat k + 2 <=? maxRequests opts)
                       (seq 0 (length times))
  /\ (admittedCount (decisions opts key (t0 :: times) store)
      <= Z.to_nat (Z.max 1%Z (maxRequests opts)))%nat.
Proof.
  intros Hfresh Hall.
  assert (decisions opts key (t0 :: times) store
          = true :: List.map (fun k => Z.of_nat k + 2 <=? maxRequests opts)
                             (seq 0 (length times))) as Hdec.
  { cbn [decisions]. rewrite (rateLimit_fresh _ _ _ _ Hfresh).
    unfold freshWindow at 1. unfold admitted at 1. cbn [outcome]. f_equal.
    rewrite (decisions_in_window opts key times _
               {| count := 1; resetTime := t0 + windowMs opts |}).
    - apply List.map_ext. intros k. cbn. f_equal. lia.
    - unfold freshWindow. cbn. apply lookup_insert_eq.
    - exact Hall. }
  split; [exact Hdec |]. rewrite Hdec.
  pose proof (admittedCount_threshold (maxRequests opts) (length times) 2) as Hc.
  unfold admittedCount in *. cbn [List.filter length].
  erewrite List.map_ext; [| intros k; rewrite Z.add_comm; reflexivity].
  lia.
Qed.

Lemma window_quota_witness :
  decisions forgotPasswordOptions "k" [0; 1000; 2000; 3000; 900000] ∅
    = [true; true; true; false; false]
  /\ (admittedCount
        (decisions forgotPasswordOptions "k" [0; 1000; 2000; 3000; 900000]%Z ∅)
      <= 3)%nat.
Proof.
  destruct (window_quota forgotPasswordOptions "k" 0 [1000; 2000; 3000; 900000] ∅)
    as [Hdec Hcount].
  - left. reflexivity.
  - repeat constructor; cbn; lia.
  - split; [exact Hdec | exact Hcount].
Defined.

(** X2.  The clean-up timer is invisible to callers: whether or not the
    sweep has run at some time [t] before a call at [now >= t], the call
    gets the same decision and the same headers and leaves the same
    entry for its key. *)
Theorem sweep_transparent opts key t now store :
  t <= now ->
  outcome (rateLimit opts key now (sweep t store))
    = outcome (rateLimit opts key now store)
  /\ headers (rateLimit opts key now (sweep t store))
     = headers (rateLimit opts key now store)
  /\ store' (rateLimit opts key now (sweep t store)) !! key
     = store' (rateLimit opts key now store) !! key.
Proof.
  intros Hle. unfold rateLimit. rewrite sweep_lookup.
  destruct (store !! key) as [e |] eqn:Hk; cbn.
  - destruct (Z.ltb_spec (resetTime e) t) as [Hold | Hlive]; cbn.
    + destruct (Z.ltb_spec (resetTime e) now); [| lia]. cbn.
      by rewrite !lookup_insert_eq.
    + destruct (resetTime e <? now); cbn; [by rewrite !lookup_insert_eq |].
      destruct (maxRequests opts <? count e + 1); cbn; by rewrite !lookup_insert_eq.
  - by rewrite !lookup_insert_eq.
Qed.

Lemma sweep_transparent_witness :
  let store : gmap string RateLimitEntry :=
    {[ "k" := mkEntry 3 905000; "old" := mkEntry 7 1000 ]} in
  sweep 60000 store !! "old" = None
  /\ outcome (rateLimit forgotPasswordOptions "k" 61000 (sweep 60000 store))
      = outcome (rateLimit forgotPasswordOptions "k" 61000 store)
  /\ outcome (rateLimit forgotPasswordOptions "old" 61000 (sweep 60000 store))
      = outcome (rateLimit forgotPasswordOptions "old" 61000 store).
Proof.
  cbv zeta. split; [vm_compute; reflexivity |]. split.
  - apply (sweep_transparent forgotPasswordOptions "k" 60000 61000). lia.
  - apply (sweep_transparent forgotPasswordOptions "old" 60000 61000). lia.
Defined.

(** X3.  The decision for a key depends on that key's entry only: two
    stores that agree on the key give the same decision, the same
    headers and the same new entry, whatever they hold for other keys. *)
Theorem rateLimit_local opts key now store1 store2 :
  store1 !! key = store2 !! key ->
  outcome (rateLimit opts key now store1) = outcome (rateLimit opts key now store2)
  /\ headers (rateLimit opts key now store1) = headers (rateLimit opts key now store2)
  /\ store' (rateLimit opts key now store1) !! key
     = store' (rateLimit opts key now store2) !! key.
Proof.
  intros Heq. unfold rateLimit. rewrite <- Heq.
  destruct (store1 !! key) as [e |]; cbn.
  - destruct (resetTime e <? now); cbn; [by rewrite !lookup_insert_eq |].
    destruct (maxRequests opts <? count e + 1); cbn; by rewrite !lookup_insert_eq.
  - by rewrite !lookup_insert_eq.
Qed.

Lemma rateLimit_local_witness :
  let busy : gmap string RateLimitEntry :=
    {[ "k" := mkEntry 3 905000; "other" := mkEntry 99 905000 ]} in
  let quiet : gmap string RateLimitEntry := {[ "k" := mkEntry 3 905000 ]} in
  outcome (rateLimit forgotPasswordOptions "k" 6000 busy)
    = outcome (rateLimit forgotPasswordOptions "k" 6000 quiet).
Proof.
  cbv zeta.
  apply (rateLimit_local forgotPasswordOptions "k" 6000
           {[ "k" := mkEntry 3 905000; "other" := mkEntry 99 905000 ]}
           {[ "k" := mkEntry 3 905000 ]}).
  vm_compute. reflexivity.
Defined.

(** X4.  Response headers.  Every call, admitted or not, reports
    [X-RateLimit-Limit = maxRequests] and [X-RateLimit-Reset] equal to
    the window end now stored for the key; [Retry-After] is present
    exactly on a rejected call and carries the body's [retryAfter]; and
    for a limiter with [maxRequests >= 1] the reported
    [X-RateLimit-Remaining] is [max 0 (maxRequests - count)] for the
    stored count, hence never negative. *)
Theorem rateLimit_headers opts key now store :
  let r := rateLimit opts key now store in
  header "X-RateLimit-Limit" r = Some (maxRequests opts)
  /\ (exists e, store' r !! key = Some e
               /\ header "X-RateLimit-Reset" r = Some (resetTime e)
               /\ (1 <= maxRequests opts ->
                   header "X-RateLimit-Remaining" r
                     = Some (Z.max 0 (maxRequests opts - count e))))
  /\ (forall ra, header "Retry-After" r = Some ra
                 <-> exists msg, outcome r = TooMany msg ra).
Proof.
  cbv zeta. unfold rateLimit, freshWindow, header.
  destruct (store !! key) as [e |] eqn:Hk; cbn.
  - destruct (resetTime e <? now); cbn.
    + split; [done |]. split.
      * eexists. rewrite lookup_insert_eq. split; [done |]. split; [done |].
        intros Hmax. cbn. f_equal. lia.
      * intros ra. split; [discriminate | intros [msg Hm]; discriminate].
    + destruct (maxRequests opts <? count e + 1) eqn:Hover; cbn.
      * split; [done |]. split.
        -- eexists. rewrite lookup_insert_eq. done.
        -- intros ra. split.
           ++ intros [= <-]. by eexists.
           ++ intros [msg [= _ <-]]. done.
      * split; [done |]. split.
        -- eexists. rewrite lookup_insert_eq. done.
        -- intros ra. split; [discriminate | intros [msg Hm]; discriminate].
  - split; [done |]. split.
    + eexists. rewrite lookup_insert_eq. split; [done |]. split; [done |].
      intros Hmax. cbn. f_equal. lia.
    + intros ra. split; [discriminate | intros [msg Hm]; discriminate].
Qed.

Lemma rateLimit_headers_witness :
  let store : gmap string RateLimitEntry := {[ "k" := mkEntry 3 905000 ]} in
  let r := rateLimit forgotPasswordOptions "k" 6000 store in
  header "X-RateLimit-Limit" r = Some 3
  /\ header "X-RateLimit-Remaining" r = Some 0
  /\ header "X-RateLimit-Reset" r = Some 905000
  /\ header "Retry-After" r = Some 899.
Proof.
  cbv zeta.
  destruct (rateLimit_headers forgotPasswordOptions "k" 6000
              {[ "k" := mkEntry 3 905000 ]})
    as (Hlimit & (e & He & Hreset & Hremaining) & Hretry).
  vm_compute in He. injection He as <-.
  split; [exact Hlimit |]. split; [apply Hremaining; cbn; lia |].
  split; [exact Hreset |]. apply Hretry. eexists. vm_compute. reflexivity.
Defined.

Lemma outcome_local opts key now store1 store2 :
  store1 !! key = store2 !! key ->
  outcome (rateLimit opts key now store1) = outcome (rateLimit opts key now store2).
Proof.
  intros Heq. unfold rateLimit. rewrite <- Heq.
  destruct (store1 !! key) as [e |]; cbn; [| done].
  destruct (resetTime e <? now); cbn; [done |].
  by destruct (maxRequests opts <? count e + 1).
Qed.

(** X5.  Limiter keys.  The key spaces of the password-reset limiter and
    of the login limiter are disjoint, whatever the addresses and the
    e-mails: a password-reset key begins with [forgot-password:] and a
    login key with [login:].  So a password-reset call never touches the
    counter of any login key, a login call never touches the counter of
    any password-reset key, and the decision of either limiter is the
    same whether or not a call of the other limiter came before it: the
    two quotas of a client are counted apart. *)
Theorem limiter_keys ip email ip' email' :
  forgotPasswordKey ip email <> loginKey ip' email'
  /\ (forall now store,
        store' (forgotPasswordLimiter ip email now store) !! loginKey ip' email'
          = store !! loginKey ip' email'
        /\ store' (loginLimiter ip' email' now store) !! forgotPasswordKey ip email
           = store !! forgotPasswordKey ip email)
  /\ (forall now later store,
        outcome (loginLimiter ip' email' later
                   (store' (forgotPasswordLimiter ip email now store)))
          = outcome (loginLimiter ip' email' later store)
        /\ outcome (forgotPasswordLimiter ip email later
                      (store' (loginLimiter ip' email' now store)))
           = outcome (forgotPasswordLimiter ip email later store)).
Proof.
  assert (forgotPasswordKey ip email <> loginKey ip' email') as Hne
    by (unfold forgotPasswordKey, loginKey; cbn; discriminate).
  split; [exact Hne |].
  unfold forgotPasswordLimiter, loginLimiter. split.
  - intros now store. split; apply rateLimit_other_keys; congruence.
  - intros now later store.
    split; apply outcome_local, rateLimit_other_keys; congruence.
Qed.

(** X6.  Retry guidance.  In a window that was opened no later than the
    call ([now <= resetTime <= now + windowMs]) a rejected call reports a
    [retryAfter] between 0 and [ceil(windowMs / 1000)] seconds; it is 0
    exactly at the boundary instant [now = resetTime], where the call is
    still counted in the old window. *)
Theorem retryAfter_bounds opts key now store e msg ra :
  store !! key = Some e ->
  now <= resetTime e -> resetTime e <= now + windowMs opts ->
  outcome (rateLimit opts key now store) = TooMany msg ra ->
  0 <= ra <= ceilDiv1000 (windowMs opts) /\ (ra = 0 <-> now = resetTime e).
Proof.
  intros Hk Hlo Hhi Hout.
  destruct (rateLimit_counted opts key now store e Hk Hlo) as (_ & _ & Hrej).
  destruct (Hrej msg ra Hout) as [_ ->].
  split; [split |].
  - change 0 with (ceilDiv1000 0). apply ceilDiv1000_mono. lia.
  - apply ceilDiv1000_mono. lia.
  - split.
    + intros Hz. destruct (Z.eq_dec now (resetTime e)) as [| Hne]; [done |].
      pose proof (ceilDiv1000_pos (resetTime e - now)). lia.
    + intros ->. rewrite Z.sub_diag. reflexivity.
Qed.

Lemma retryAfter_bounds_witness :
  let store : gmap string RateLimitEntry := {[ "k" := mkEntry 3 900000 ]} in
  (0 <= 0 <= ceilDiv1000 (windowMs forgotPasswordOptions))
  /\ (0 = 0 <-> 900000 = resetTime (mkEntry 3 900000)).
Proof.
  cbv zeta.
  apply (retryAfter_bounds forgotPasswordOptions "k" 900000
           {[ "k" := mkEntry 3 900000 ]} (mkEntry 3 900000)
           (message forgotPasswordOptions) 0).
  - vm_compute. reflexivity.
  - cbn. lia.
  - cbn. lia.
  - vm_compute. reflexivity.
Defined.

End RateLimiterCoverage.

(* ===================================================================== *)
(** ** Further properties of the auth handlers                           *)
(* ===================================================================== *)

Module AuthCoverage.
Import Auth AuthSupport AuthFacts.

(** *** More on [findFirst] *)

Lemma findFirst_exists {A} (p : A -> bool) (l : list A) x :
  In x l -> p x = true -> exists i y, findFirst p l = Some (i, y).
Proof.
  intros Hin Hp. destruct (findFirst p l) as [[i y] |] eqn:Hf; [eauto |].
  rewrite (proj1 (findFirst_None p l) Hf x Hin) in Hp. discriminate.
Qed.

Lemma findFirst_app {A} (p : A -> bool) (l1 l2 : list A) y :
  (forall x, In x l1 -> p x = false) -> p y = true ->
  findFirst p (l1 ++ y :: l2) = Some (length l1, y).
Proof.
  induction l1 as [| a l1 IH]; intros Hno Hy; cbn.
  - by rewrite Hy.
  - rewrite (Hno a) by (by left). rewrite IH; [done | | done].
    intros x Hx. apply Hno. by right.
Qed.

Lemma findFirst_insert {A} (p : A -> bool) (l : list A) i x x' :
  findFirst p l = Some (i, x) -> p x' = true ->
  findFirst p (<[i := x']> l) = Some (i, x').
Proof.
  revert i. induction l as [| a l IH]; intros i Hf Hp; [discriminate |].
  cbn in Hf. destruct (p a) eqn:Hpa.
  - injection Hf as <- <-. cbn. by rewrite Hp.
  - destruct (findFirst p l) as [[k y] |] eqn:Hrest; [| discriminate].
    injection Hf as <- <-.
    change (<[S k := x']> (a :: l)) with (a :: <[k := x']> l).
    cbn [findFirst]. rewrite Hpa. by rewrite (IH k eq_refl Hp).
Qed.

Lemma findFirst_ext {A} (p q : A -> bool) (l : list A) :
  (forall x, In x l -> p x = q x) -> findFirst p l = findFirst q l.
Proof.
  induction l as [| a l IH]; intros Heq; [done |]. cbn.
  rewrite (Heq a) by (by left). rewrite IH; [done |].
  intros x Hx. apply Heq. by right.
Qed.

(** *** Logout *)

Lemma rowsWithToken_delete token ts i t :
  findFirst (fun t => String.eqb (rt_token t) token) ts = Some (i, t) ->
  length (rowsWithToken token ts) = S (length (rowsWithToken token (delete i ts)))
  /\ (forall t', In t' ts -> rt_token t' <> token -> In t' (delete i ts))
  /\ (forall t', In t' (delete i ts) -> In t' ts).
Proof.
  unfold rowsWithToken. revert i.
  induction ts as [| a l IH]; intros i Hf; [discriminate |].
  cbn in Hf. destruct (String.eqb (rt_token a) token) eqn:Ha.
  - injection Hf as <- <-. change (delete 0%nat (a :: l)) with l.
    cbn [List.filter]. rewrite Ha. cbn [length]. split; [done |]. split.
    + intros t' [<- | Hin] Hne; [| done]. apply String.eqb_eq in Ha. done.
    + intros t' Hin. by right.
  - destruct (findFirst _ l) as [[k y] |] eqn:Hrest; [| discriminate].
    injection Hf as <- <-. change (delete (S k) (a :: l)) with (a :: delete k l).
    destruct (IH k eq_refl) as (Hlen & Hkeep & Hsub).
    cbn [List.filter]. rewrite Ha. split; [done |]. split.
    + intros t' [<- | Hin] Hne; [by left | right; by apply Hkeep].
    + intros t' [<- | Hin]; [by left | right; by apply Hsub].
Qed.

(** X7.  Logout always answers 200 [Logout successful].  It removes at
    most one refresh-token row, the first one that holds the presented
    token: rows holding another token all survive, no row is added, and
    with an absent token or a token that no row holds nothing is
    removed.  Users, reset documents, console and mail are never
    touched. *)
Theorem logout_effect env req w :
  let w' := (logout env req w).2 in
  let token := body_refreshToken req in
  (logout env req w).1 = json (JMessage "Logout successful")
  /\ users w' = users w /\ passwordResets w' = passwordResets w
  /\ console w' = console w /\ outbox w' = outbox w
  /\ (forall t, In t (refreshTokens w') -> In t (refreshTokens w))
  /\ (forall t, In t (refreshTokens w) -> rt_token t <> token -> In t (refreshTokens w'))
  /\ (token = EmptyString \/ rowsWithToken token (refreshTokens w) = [] ->
      refreshTokens w' = refreshTokens w)
  /\ (token <> EmptyString -> rowsWithToken token (refreshTokens w) <> [] ->
      length (rowsWithToken token (refreshTokens w))
        = S (length (rowsWithToken token (refreshTokens w')))).
Proof.
  cbv zeta. unfold logout.
  destruct (String.eqb_spec (body_refreshToken req) EmptyString) as [Hempty | Hne].
  { step_handler. repeat split; done. }
  unfold_store. step_handler.
  destruct (findFirst _ (refreshTokens w)) as [[i t] |] eqn:Hf; cbn.
  - destruct (rowsWithToken_delete _ _ _ _ Hf) as (Hlen & Hkeep & Hsub).
    repeat split; try done.
    intros [Hbad | Hnil]; [done |]. rewrite Hnil in Hlen. discriminate.
  - repeat split; try done. intros _ Hrows. exfalso. apply Hrows.
    unfold rowsWithToken.
    pose proof (proj1 (findFirst_None _ _) Hf) as Hnone.
    clear Hf Hrows. revert Hnone. generalize (refreshTokens w). intros l.
    induction l as [| a l IH]; intros Hnone; [done |]. cbn.
    rewrite (Hnone a) by (by left). apply IH. intros x Hx. apply Hnone. by right.
Qed.

Lemma refresh_no_token_row X env req w :
  body_refreshToken req <> EmptyString ->
  (forall t, In t (refreshTokens w) -> rt_token t <> body_refreshToken req) ->
  (refreshAccessToken X env req w).1 = statusJson 401 (JError "Invalid refresh token").
Proof.
  intros Hne Hrows. unfold refreshAccessToken.
  destruct (String.eqb_spec (body_refreshToken req) EmptyString); [done |].
  unfold_store. step_handler.
  destruct (verifyRefreshToken X (now env) (body_refreshToken req)) as [id |] eqn:Hjwt;
    step_handler; [| done].
  destruct (findFirst _ (refreshTokens w)) as [[i t] |] eqn:Hrow; cbn; [| done].
  exfalso. pose proof (findFirst_In _ _ _ _ Hrow) as Hin.
  apply findFirst_Some in Hrow as (_ & Hp & _).
  apply andb_true_iff in Hp as [Htok _]. apply String.eqb_eq in Htok.
  by apply (Hrows t Hin).
Qed.

(** X8.  Logout ends the session: when exactly one row holds the
    presented (non-empty) token, then after logout every refresh request
    with that token is answered 401. *)
Theorem logout_then_refresh X env req w :
  body_refreshToken req <> EmptyString ->
  length (rowsWithToken (body_refreshToken req) (refreshTokens w)) = 1%nat ->
  forall env' req', body_refreshToken req' = body_refreshToken req ->
    (refreshAccessToken X env' req' (logout env req w).2).1
      = statusJson 401 (JError "Invalid refresh token").
Proof.
  intros Hne Hone env' req' Htok.
  destruct (logout_effect env req w) as (_ & _ & _ & _ & _ & _ & _ & _ & Hless).
  cbv zeta in Hless. specialize (Hless Hne).
  assert (rowsWithToken (body_refreshToken req) (refreshTokens (logout env req w).2) = [])
    as Hnil.
  { rewrite Hone in Hless.
    destruct (rowsWithToken _ (refreshTokens (logout env req w).2)) as [| a l]; [done |].
    assert (1 = S (length (a :: l)))%nat as Hbad; [| cbn in Hbad; lia].
    apply Hless. intros Hz. rewrite Hz in Hone. discriminate. }
  apply refresh_no_token_row; [by rewrite Htok |].
  intros t Hin Heq.
  assert (In t (rowsWithToken (body_refreshToken req)
                  (refreshTokens (logout env req w).2))) as Hbad.
  { apply filter_In. split; [done |]. apply String.eqb_eq. by rewrite <- Htok. }
  rewrite Hnil in Hbad. destruct Hbad.
Qed.

Lemma logout_then_refresh_witness :
  let session := {| rt_userId := 1%nat; rt_token := "refresh:asha@mictech.edu.in";
                    rt_expiresAt := 604800000 |} in
  let w := {| users := [Sample.asha; Sample.ravi]; refreshTokens := [session];
              passwordResets := []; console := []; outbox := []; ops := [] |} in
  let req := Sample.withRefreshToken "refresh:asha@mictech.edu.in" Sample.request in
  status (refreshAccessToken Sample.X (Sample.env 1500 Byte.x00 true None) req w).1 = 200
  /\ (refreshAccessToken Sample.X (Sample.env 3000 Byte.x00 true None) req
        (logout (Sample.env 2000 Byte.x00 true None) req w).2).1
     = statusJson 401 (JError "Invalid refresh token").
Proof.
  cbv zeta. split; [vm_compute; reflexivity |].
  apply (logout_then_refresh Sample.X).
  - vm_compute. discriminate.
  - vm_compute. reflexivity.
  - reflexivity.
Defined.

(** *** Sessions: login and refresh *)

Lemma login_success X env req w i u :
  hasErrors req = false ->
  findFirst (fun v => String.eqb (email v) (body_email req)) (users w) = Some (i, u) ->
  comparePassword X u (body_password req) = true ->
  (login X env req w).1
    = json (JSession "Login successful" (publicUser u)
              (generateAccessToken X u (now env)) (generateRefreshToken X u (now env)))
  /\ users (login X env req w).2 = users w
  /\ passwordResets (login X env req w).2 = passwordResets w
  /\ refreshTokens (login X env req w).2
     = (refreshTokens w
        ++ [ {| rt_userId := _id u; rt_token := generateRefreshToken X u (now env);
                rt_expiresAt := now env + 7 * 24 * 60 * 60 * 1000 |} ])%list.
Proof.
  intros Hv Hu Hpw. unfold login. rewrite Hv. unfold_store. step_handler.
  rewrite Hu. cbn. rewrite Hpw. cbn. done.
Qed.

Lemma refresh_success X env req w id i t j u :
  body_refreshToken req <> EmptyString ->
  verifyRefreshToken X (now env) (body_refreshToken req) = Some id ->
  findFirst (fun t => String.eqb (rt_token t) (body_refreshToken req)
                      && Nat.eqb (rt_userId t) id) (refreshTokens w) = Some (i, t) ->
  now env <= rt_expiresAt t ->
  findFirst (fun v => Nat.eqb (_id v) id) (users w) = Some (j, u) ->
  (refreshAccessToken X env req w).1
    = json (JAccessToken (generateAccessToken X u (now env)))
  /\ users (refreshAccessToken X env req w).2 = users w
  /\ refreshTokens (refreshAccessToken X env req w).2 = refreshTokens w.
Proof.
  intros Hne Hjwt Hrow Hlive Hu. unfold refreshAccessToken.
  destruct (String.eqb_spec (body_refreshToken req) EmptyString); [done |].
  unfold_store. step_handler. rewrite Hjwt. step_handler. rewrite Hrow. cbn.
  destruct (Z.ltb_spec (rt_expiresAt t) (now env)); [lia |]. cbn.
  rewrite Hu. cbn. done.
Qed.

(** X9.  Login, then refresh.  A successful login stores one row for the
    returned refresh token, expiring 7 days later.  If the token
    verifies to the user (the contract of [utils/jwt]) and no older row
    holds the same token, then a refresh request with the returned token
    at any time up to and including the expiry instant is answered 200
    with a new access token for that user, and the row stays in place. *)
Theorem login_then_refresh X env req w i u env' req' :
  hasErrors req = false ->
  findFirst (fun v => String.eqb (email v) (body_email req)) (users w) = Some (i, u) ->
  comparePassword X u (body_password req) = true ->
  let token := generateRefreshToken X u (now env) in
  let w1 := (login X env req w).2 in
  token <> EmptyString ->
  verifyRefreshToken X (now env') token = Some (_id u) ->
  (forall t, In t (refreshTokens w) -> rt_token t <> token) ->
  body_refreshToken req' = token ->
  now env' <= now env + 7 * 24 * 60 * 60 * 1000 ->
  exists j u',
    findFirst (fun v => Nat.eqb (_id v) (_id u)) (users w) = Some (j, u')
    /\ (refreshAccessToken X env' req' w1).1
       = json (JAccessToken (generateAccessToken X u' (now env')))
    /\ refreshTokens (refreshAccessToken X env' req' w1).2 = refreshTokens w1.
Proof.
  intros Hv Hu Hpw token w1 Hne Hjwt Hfresh Htok Hlive. subst token w1.
  destruct (login_success X env req w i u Hv Hu Hpw) as (_ & Hus & _ & Hrt).
  destruct (findFirst_exists (fun v => Nat.eqb (_id v) (_id u)) (users w) u)
    as (j & u' & Hj); [by eapply findFirst_In | apply Nat.eqb_refl |].
  exists j, u'. split; [exact Hj |].
  edestruct (refresh_success X env' req' (login X env req w).2 (_id u)) as (Hr & _ & Hsame).
  - by rewrite Htok.
  - by rewrite Htok.
  - rewrite Hrt, Htok. apply findFirst_app.
    + intros t Hin. apply andb_false_iff. left. apply String.eqb_neq. by apply Hfresh.
    + cbn. by rewrite String.eqb_refl, Nat.eqb_refl.
  - cbn. exact Hlive.
  - rewrite Hus. exact Hj.
  - by split.
Qed.

Lemma login_then_refresh_witness :
  let credentials := Sample.withPassword "password1"
                       (Sample.withEmail "asha@mictech.edu.in" Sample.request) in
  let at1000 := Sample.env 1000 Byte.x00 true None in
  let week := Sample.env 604801000 Byte.x00 true None in
  let w1 := (login Sample.X at1000 credentials Sample.world0).2 in
  let again := Sample.withRefreshToken "refresh:asha@mictech.edu.in" Sample.request in
  exists j u',
    findFirst (fun v => Nat.eqb (_id v) (_id Sample.asha)) (users Sample.world0)
      = Some (j, u')
    /\ (refreshAccessToken Sample.X week again w1).1
       = json (JAccessToken (generateAccessToken Sample.X u' (now week)))
    /\ refreshTokens (refreshAccessToken Sample.X week again w1).2 = refreshTokens w1.
Proof.
  cbv zeta.
  apply (login_then_refresh Sample.X (Sample.env 1000 Byte.x00 true None)
           (Sample.withPassword "password1"
              (Sample.withEmail "asha@mictech.edu.in" Sample.request))
           Sample.world0 0%nat Sample.asha).
  - reflexivity.
  - reflexivity.
  - reflexivity.
  - vm_compute. discriminate.
  - reflexivity.
  - intros t [].
  - reflexivity.
  - vm_compute. discriminate.
Defined.

Lemma refresh_response_stores X env req w1 w2 :
  users w1 = users w2 -> refreshTokens w1 = refreshTokens w2 ->
  (refreshAccessToken X env req w1).1 = (refreshAccessToken X env req w2).1.
Proof.
  intros Hus Hrt. unfold refreshAccessToken.
  destruct (String.eqb (body_refreshToken req) EmptyString); [by step_handler |].
  unfold_store. step_handler.
  destruct (verifyRefreshToken X (now env) (body_refreshToken req)); step_handler;
    [| done].
  rewrite Hrt. destruct (findFirst _ (refreshTokens w2)) as [[i t] |]; cbn; [| done].
  destruct (rt_expiresAt t <? now env); cbn; [done |].
  rewrite Hus. destruct (findFirst _ (users w2)) as [[j u] |]; cbn; done.
Qed.

Lemma refresh_rows X env req w :
  let r := (refreshAccessToken X env req w).1 in
  let w' := (refreshAccessToken X env req w).2 in
  users w' = users w /\ passwordResets w' = passwordResets w /\ outbox w' = outbox w
  /\ ((r = statusJson 401 (JError "Refresh token expired")
       /\ exists i t, refreshTokens w !! i = Some t
                      /\ rt_token t = body_refreshToken req
                      /\ rt_expiresAt t < now env
                      /\ refreshTokens w' = delete i (refreshTokens w))
      \/ (r <> statusJson 401 (JError "Refresh token expired")
          /\ refreshTokens w' = refreshTokens w)).
Proof.
  cbv zeta. unfold refreshAccessToken.
  destruct (String.eqb (body_refreshToken req) EmptyString).
  { step_handler. repeat split; try done. right. by split. }
  unfold_store. step_handler.
  destruct (verifyRefreshToken X (now env) (body_refreshToken req)) as [id |];
    step_handler.
  2: { repeat split; try done. right. by split. }
  destruct (findFirst _ (refreshTokens w)) as [[i t] |] eqn:Hrow; cbn.
  2: { repeat split; try done. right. by split. }
  destruct (Z.ltb_spec (rt_expiresAt t) (now env)); cbn.
  { repeat split; try done. left. split; [done |].
    apply findFirst_Some in Hrow as (Hi & Hp & _).
    apply andb_true_iff in Hp as [Htok _]. apply String.eqb_eq in Htok.
    exists i, t. done. }
  destruct (findFirst _ (users w)) as [[j u] |]; cbn;
    repeat split; try done; right; by split.
Qed.

(** X10.  Refresh never creates, rewrites or rotates a row.  Users, reset
    documents and mail are untouched, and the refresh-token collection
    is unchanged except in one case: the answer 401
    [Refresh token expired], where exactly the matching expired row is
    deleted.  In particular a successful refresh leaves the presented
    token valid: the same request, repeated, gets the same answer. *)
Theorem refresh_store_effect X env req w :
  let r := (refreshAccessToken X env req w).1 in
  let w' := (refreshAccessToken X env req w).2 in
  users w' = users w /\ passwordResets w' = passwordResets w /\ outbox w' = outbox w
  /\ ((r = statusJson 401 (JError "Refresh token expired")
       /\ exists i t, refreshTokens w !! i = Some t
                      /\ rt_token t = body_refreshToken req
                      /\ rt_expiresAt t < now env
                      /\ refreshTokens w' = delete i (refreshTokens w))
      \/ (r <> statusJson 401 (JError "Refresh token expired")
          /\ refreshTokens w' = refreshTokens w
          /\ (refreshAccessToken X env req w').1 = r)).
Proof.
  cbv zeta.
  destruct (refresh_rows X env req w) as (Hus & Hpr & Hout & [Hexpired | [Hother Hrt]]).
  - repeat split; try done. by left.
  - repeat split; try done. right. split; [done |]. split; [done |].
    by apply refresh_response_stores.
Qed.

(** *** Verification of reset tokens *)

Lemma verifyResetToken_lookup X env req w :
  jsLength (params_token req) = 64%nat ->
  (verifyResetToken X env req w).1
    = match findFirst (validReset (sha256hex X (params_token req)) (now env))
                      (passwordResets w) with
      | Some _ => json (JValid true None)
      | None => statusJson 400 (JValid false (Some "Invalid or expired reset token"))
      end.
Proof.
  intros Hlen. by rewrite (verifyResetToken_hashed X env req w Hlen).
Qed.

Lemma verifyToken_lookup X env token w :
  exists w', verifyToken X env token w
             = (Returned (findFirst (validReset (sha256hex X token) (now env))
                                    (passwordResets w)), w')
             /\ passwordResets w' = passwordResets w.
Proof. unfold verifyToken. unfold_store. step_handler. eauto. Qed.

(** X11.  Verify-reset-token only looks.  Whatever the token, it changes
    no user, session or reset document.  It answers [valid: true]
    exactly when the token's JavaScript length is 64 and the store holds
    an unused, unexpired document for the token's digest: for a token of
    that length, the same condition under which the model's
    [verifyToken] returns a document and under which reset-password,
    asked at the same instant with a valid body, does not answer with
    the invalid-or-expired error. *)
Theorem verifyResetToken_agrees X env req w :
  let valid := (verifyResetToken X env req w).1 = json (JValid true None) in
  let w' := (verifyResetToken X env req w).2 in
  let wellFormed := jsLength (params_token req) = 64%nat in
  (users w' = users w /\ refreshTokens w' = refreshTokens w
   /\ passwordResets w' = passwordResets w)
  /\ (valid <-> wellFormed /\ exists i r,
         findFirst (validReset (sha256hex X (params_token req)) (now env))
                   (passwordResets w) = Some (i, r))
  /\ (valid <-> wellFormed /\ exists d w0,
         verifyToken X env (params_token req) w = (Returned (Some d), w0))
  /\ (forall req2, body_token req2 = params_token req -> hasErrors req2 = false ->
        (valid <-> wellFormed
                   /\ (resetPassword X env req2 w).1
                        <> statusJson 400 (JError invalidTokenError))).
Proof.
  cbv zeta. split.
  { unfold verifyResetToken.
    destruct (String.eqb (params_token req) EmptyString || _); [by step_handler |].
    unfold_store. step_handler.
    destruct (findFirst _ (passwordResets w)) as [[i r] |]; cbn; done. }
  destruct (Nat.eq_dec (jsLength (params_token req)) 64%nat) as [Hlen | Hlen];
    [| rewrite (verifyResetToken_format X env req w Hlen); cbn [fst];
       split; [| split; [| intros req2 _ _]];
       (split; [discriminate | by intros [? _]])].
  rewrite (verifyResetToken_lookup X env req w Hlen).
  destruct (verifyToken_lookup X env (params_token req) w) as (w0 & Hvt & _).
  destruct (findFirst (validReset (sha256hex X (params_token req)) (now env))
                      (passwordResets w)) as [[i r] |] eqn:Hf.
  - split; [split; [eauto | done] |]. split; [split; [eauto | done] |].
    intros req2 Htok Hv2. split; [| done]. intros _. split; [done |].
    rewrite <- Htok in Hf.
    destruct (findFirst (fun v => Nat.eqb (_id v) (pr_userId r)) (users w))
      as [[j u] |] eqn:Hu.
    + destruct (resetPassword_found X env req2 w i r j u Hv2 Hf Hu) as (-> & _).
      discriminate.
    + destruct (resetPassword_no_user X env req2 w i r Hv2 Hf Hu) as (-> & _).
      discriminate.
  - split; [split; [discriminate | intros (_ & i & r & Hbad); discriminate] |].
    split.
    + split; [discriminate |]. intros (_ & d & w1 & Hbad). rewrite Hvt in Hbad.
      discriminate.
    + intros req2 Htok Hv2. split; [discriminate |]. intros [_ Hne]. exfalso. apply Hne.
      rewrite <- Htok in Hf.
      by destruct (resetPassword_not_found X env req2 w Hv2 Hf) as (-> & _).
Qed.

Lemma verifyResetToken_agrees_witness :
  let token := "2a2a2a2a2a2a2a2a2a2a2a2a2a2a2a2a2a2a2a2a2a2a2a2a2a2a2a2a2a2a2a2a" in
  let doc := {| pr_userId := 1%nat; tokenHash := "sha256:" ++ token;
                pr_expiresAt := 901000; used := false |} in
  let w := {| users := [Sample.asha]; refreshTokens := []; passwordResets := [doc];
              console := []; outbox := []; ops := [] |} in
  let e := Sample.env 2000 Byte.x00 true None in
  (verifyResetToken Sample.X e (withParamsToken token) w).1 = json (JValid true None)
  <-> jsLength (params_token (withParamsToken token)) = 64%nat
      /\ (resetPassword Sample.X e (withBodyToken token "password2") w).1
           <> statusJson 400 (JError invalidTokenError).
Proof.
  cbv zeta.
  eapply (verifyResetToken_agrees Sample.X (Sample.env 2000 Byte.x00 true None)
            (withParamsToken _)).
  - reflexivity.
  - reflexivity.
Defined.

(** *** Life time of an issued token *)

Lemma invalidate_digest uid rs r' :
  In r' (invalidate uid rs) -> exists r, In r rs /\ tokenHash r' = tokenHash r.
Proof.
  intros Hin. apply In_invalidate in Hin as (r & Hin & Hh & _). eauto.
Qed.

Lemma issued_lookup X env u rs t :
  (forall r, In r rs -> tokenHash r <> digestOf X env) ->
  findFirst (validReset (digestOf X env) t)
            (invalidate (_id u) rs ++ [issuedReset X env u])
    = if t <? now env + 15 * 60 * 1000
      then Some (length rs, issuedReset X env u) else None.
Proof.
  intros Hfresh.
  assert (forall x, In x (invalidate (_id u) rs) ->
                    validReset (digestOf X env) t x = false) as Hno.
  { intros x Hx. apply invalidate_digest in Hx as (r & Hin & Hh).
    unfold validReset. rewrite Hh.
    destruct (String.eqb_spec (tokenHash r) (digestOf X env)); [| done].
    by destruct (Hfresh r Hin). }
  destruct (t <? now env + 15 * 60 * 1000) eqn:Ht.
  - rewrite findFirst_app; [| exact Hno |].
    + unfold invalidate. by rewrite length_map.
    + unfold validReset. cbn. by rewrite String.eqb_refl, Ht.
  - apply findFirst_None. intros x Hx.
    apply in_app_iff in Hx as [Hx | [<- | []]]; [by apply Hno |].
    unfold validReset. cbn. by rewrite Ht, andb_false_r.
Qed.

(** X12.  Life time of a reset token.  The token issued by a
    forgot-password request at time [t] is accepted by verify-reset-token
    at every instant strictly before [t + 15 minutes].  From
    [t + 15 minutes] on it is rejected with the generic error, although
    still unused, provided its digest was new when it was issued. *)
Theorem issued_token_lifetime X env req w u :
  issuesFor req w = Some u ->
  let w1 := (forgotPassword X env req w).2 in
  let probe := withParamsToken (plainTokenOf env) in
  (forall env', now env' < now env + 15 * 60 * 1000 ->
     (verifyResetToken X env' probe w1).1 = json (JValid true None))
  /\ ((forall r, In r (passwordResets w) -> tokenHash r <> digestOf X env) ->
      forall env', now env + 15 * 60 * 1000 <= now env' ->
        (verifyResetToken X env' probe w1).1
          = statusJson 400 (JValid false (Some "Invalid or expired reset token"))
        /\ unusedResets (_id u) (passwordResets w1) = [issuedReset X env u]).
Proof.
  intros Hissue. cbv zeta.
  destruct (forgotPassword_issues X env req w u Hissue) as (_ & _ & Hpr).
  pose proof (plainTokenOf_jsLength env) as Hlen.
  split.
  - intros env' Hlive. rewrite verifyResetToken_lookup by exact Hlen.
    cbn [params_token withParamsToken]. rewrite Hpr.
    destruct (findFirst_exists
                (validReset (sha256hex X (plainTokenOf env)) (now env'))
                (invalidate (_id u) (passwordResets w) ++ [issuedReset X env u])
                (issuedReset X env u)) as (i & y & ->); [| | done].
    + apply in_app_iff. right. by left.
    + unfold validReset, issuedReset, digestOf. cbn.
      rewrite String.eqb_refl. cbn. by apply Z.ltb_lt.
  - intros Hfresh env' Hdead. split; [| rewrite Hpr; apply unused_issue].
    rewrite verifyResetToken_lookup by exact Hlen.
    cbn [params_token withParamsToken]. rewrite Hpr.
    change (sha256hex X (plainTokenOf env)) with (digestOf X env).
    rewrite (issued_lookup X env u _ (now env') Hfresh).
    destruct (Z.ltb_spec (now env') (now env + 15 * 60 * 1000)); [lia | done].
Qed.

Lemma issued_token_lifetime_witness :
  let ask := Sample.withEmail "asha@mictech.edu.in" Sample.request in
  let e := Sample.env 1000 Byte.x2a true None in
  let w1 := (forgotPassword Sample.X e ask Sample.world0).2 in
  let probe := withParamsToken (plainTokenOf e) in
  (verifyResetToken Sample.X (Sample.env 900999 Byte.x00 true None) probe w1).1
    = json (JValid true None)
  /\ (verifyResetToken Sample.X (Sample.env 901000 Byte.x00 true None) probe w1).1
     = statusJson 400 (JValid false (Some "Invalid or expired reset token")).
Proof.
  cbv zeta.
  destruct (issued_token_lifetime Sample.X (Sample.env 1000 Byte.x2a true None)
              (Sample.withEmail "asha@mictech.edu.in" Sample.request)
              Sample.world0 Sample.asha) as [Hlive Hdead]; [vm_compute; reflexivity |].
  split.
  - apply Hlive. vm_compute. reflexivity.
  - apply Hdead; [intros r [] | vm_compute; discriminate].
Defined.

(** *** From the mailed token to the new password *)

Lemma insert_last {A} (l : list A) (x y : A) :
  <[length l := y]> (l ++ [x])%list = (l ++ [y])%list.
Proof.
  induction l as [| a l IH]; [done |].
  change (<[length (a :: l) := y]> ((a :: l) ++ [x])%list)
    with (a :: <[length l := y]> (l ++ [x])%list).
  by rewrite IH.
Qed.

(** X13.  Forgot-password, then reset-password.  When a token is issued
    for user [u] with a digest new to the store, a reset-password request
    that carries the token and passes validation, made before the 15
    minutes are over, succeeds: the user document with [u]'s id gets the
    hash of the new password, the user is left without any unused reset
    document, and no refresh-token row of the user remains. *)
Theorem forgot_then_reset X env req w u env2 req2 :
  issuesFor req w = Some u ->
  (forall r, In r (passwordResets w) -> tokenHash r <> digestOf X env) ->
  hasErrors req2 = false ->
  body_token req2 = plainTokenOf env ->
  now env2 < now env + 15 * 60 * 1000 ->
  let w1 := (forgotPassword X env req w).2 in
  let w2 := (resetPassword X env2 req2 w1).2 in
  (resetPassword X env2 req2 w1).1 = json successBody
  /\ (exists j u',
        findFirst (fun v => Nat.eqb (_id v) (_id u)) (users w) = Some (j, u')
        /\ users w2 = <[j := setPassword u' (bcryptHash X (body_password req2))]> (users w))
  /\ unusedResets (_id u) (passwordResets w2) = []
  /\ (forall t, In t (refreshTokens w2) -> rt_userId t <> _id u).
Proof.
  intros Hissue Hfresh Hv2 Htok Hlive. cbv zeta.
  destruct (forgotPassword_issues X env req w u Hissue) as (Hus & Hrt & Hpr).
  destruct (issuesFor_Some req w u Hissue) as (_ & (i & Hu) & _).
  destruct (findFirst_exists (fun v => Nat.eqb (_id v) (_id u)) (users w) u)
    as (j & u' & Hj); [by eapply findFirst_In | apply Nat.eqb_refl |].
  assert (_id u' = _id u) as Hid.
  { apply findFirst_Some in Hj as (_ & Hp & _). by apply Nat.eqb_eq in Hp. }
  assert (findFirst (validReset (sha256hex X (body_token req2)) (now env2))
                    (passwordResets (forgotPassword X env req w).2)
          = Some (length (passwordResets w), issuedReset X env u)) as Hrec.
  { rewrite Htok, Hpr. change (sha256hex X (plainTokenOf env)) with (digestOf X env).
    rewrite (issued_lookup X env u _ (now env2) Hfresh).
    destruct (Z.ltb_spec (now env2) (now env + 15 * 60 * 1000)); [done | lia]. }
  destruct (resetPassword_found X env2 req2 (forgotPassword X env req w).2
              (length (passwordResets w)) (issuedReset X env u) j u' Hv2 Hrec)
    as (Hr & Hus2 & Hpr2 & Hrt2); [by rewrite Hus |].
  split; [exact Hr |]. split; [| split].
  - exists j, u'. split; [exact Hj |]. by rewrite Hus2, Hus.
  - rewrite Hpr2, Hpr.
    replace (length (passwordResets w))
      with (length (invalidate (_id u) (passwordResets w)))
      by (unfold invalidate; apply length_map).
    rewrite insert_last. unfold unusedResets. rewrite List.filter_app.
    fold (unusedResets (_id u) (invalidate (_id u) (passwordResets w))).
    rewrite unused_invalidate_same. cbn. by rewrite andb_false_r.
  - intros t Hin. rewrite Hrt2 in Hin. apply filter_In in Hin as [_ Hne].
    apply negb_true_iff, Nat.eqb_neq in Hne. by rewrite <- Hid.
Qed.

Lemma forgot_then_reset_witness :
  let ask := Sample.withEmail "asha@mictech.edu.in" Sample.request in
  let e := Sample.env 1000 Byte.x2a true None in
  let w1 := (forgotPassword Sample.X e ask Sample.world0).2 in
  let req2 := withBodyToken (plainTokenOf e) "password2" in
  (resetPassword Sample.X (Sample.env 2000 Byte.x00 true None) req2 w1).1
    = json successBody.
Proof.
  cbv zeta.
  apply (forgot_then_reset Sample.X (Sample.env 1000 Byte.x2a true None)
           (Sample.withEmail "asha@mictech.edu.in" Sample.request)
           Sample.world0 Sample.asha).
  - vm_compute. reflexivity.
  - intros r [].
  - reflexivity.
  - reflexivity.
  - vm_compute. reflexivity.
Defined.

(** X14.  After a reset, the new password logs in.  When reset-password
    succeeds on the document of a user who is the first user with that
    e-mail, and [comparePassword] accepts the password whose hash a
    document holds (the contract of the [User] model), then a login with
    that e-mail and the new password is answered 200 and opens a
    session for that user. *)
Theorem reset_then_login X env req w i r j u env3 req3 :
  hasErrors req = false ->
  findFirst (validReset (sha256hex X (body_token req)) (now env)) (passwordResets w)
    = Some (i, r) ->
  findFirst (fun v => Nat.eqb (_id v) (pr_userId r)) (users w) = Some (j, u) ->
  (forall v p, passwordHash v = Some (bcryptHash X p) -> comparePassword X v p = true) ->
  hasErrors req3 = false ->
  body_password req3 = body_password req ->
  findFirst (fun v => String.eqb (email v) (body_email req3)) (users w) = Some (j, u) ->
  let w1 := (resetPassword X env req w).2 in
  status (login X env3 req3 w1).1 = 200
  /\ exists t, In t (refreshTokens (login X env3 req3 w1).2) /\ rt_userId t = _id u.
Proof.
  intros Hv Hrec Hu Hcontract Hv3 Hpw Hmail. cbv zeta.
  destruct (resetPassword_found X env req w i r j u Hv Hrec Hu) as (_ & Hus & _ & _).
  pose (u1 := setPassword u (bcryptHash X (body_password req))).
  assert (findFirst (fun v => String.eqb (email v) (body_email req3))
                    (users (resetPassword X env req w).2) = Some (j, u1)) as Hfound.
  { rewrite Hus. apply (findFirst_insert _ _ _ u); [exact Hmail |].
    apply findFirst_Some in Hmail as (_ & Hp & _). exact Hp. }
  destruct (login_success X env3 req3 (resetPassword X env req w).2 j u1 Hv3 Hfound)
    as (Hr & _ & _ & Hrt).
  { apply Hcontract. by rewrite Hpw. }
  split; [by rewrite Hr |].
  eexists. split; [rewrite Hrt; apply in_app_iff; right; by left | done].
Qed.

Lemma reset_then_login_witness :
  let token := "2a2a2a2a2a2a2a2a2a2a2a2a2a2a2a2a2a2a2a2a2a2a2a2a2a2a2a2a2a2a2a2a" in
  let doc := {| pr_userId := 1%nat; tokenHash := "sha256:" ++ token;
                pr_expiresAt := 901000; used := false |} in
  let w := {| users := [Sample.asha; Sample.ravi]; refreshTokens := [];
              passwordResets := [doc]; console := []; outbox := []; ops := [] |} in
  let w1 := (resetPassword Sample.X (Sample.env 2000 Byte.x00 true None)
               (withBodyToken token "password2") w).2 in
  let credentials := Sample.withPassword "password2"
                       (Sample.withEmail "asha@mictech.edu.in" Sample.request) in
  status (login Sample.X (Sample.env 3000 Byte.x00 true None) credentials w1).1 = 200.
Proof.
  cbv zeta.
  eapply (reset_then_login Sample.X (Sample.env 2000 Byte.x00 true None) _ _
            0%nat _ 0%nat Sample.asha).
  - reflexivity.
  - vm_compute. reflexivity.
  - vm_compute. reflexivity.
  - intros v p Hh. cbn. rewrite Hh. apply String.eqb_refl.
  - reflexivity.
  - reflexivity.
  - vm_compute. reflexivity.
Defined.

(** X15.  A token whose user is gone.  When the reset document matches
    but no user document has its [userId], reset-password answers 400
    [User not found]; nothing is written: the token is not consumed and
    no password or session is changed, so the token stays valid until it
    expires. *)
Theorem reset_without_user X env req w i r :
  hasErrors req = false ->
  findFirst (validReset (sha256hex X (body_token req)) (now env)) (passwordResets w)
    = Some (i, r) ->
  (forall v, In v (users w) -> _id v <> pr_userId r) ->
  let w' := (resetPassword X env req w).2 in
  (resetPassword X env req w).1 = statusJson 400 (JError "User not found")
  /\ users w' = users w /\ passwordResets w' = passwordResets w
  /\ refreshTokens w' = refreshTokens w
  /\ findFirst (validReset (sha256hex X (body_token req)) (now env)) (passwordResets w')
     = Some (i, r).
Proof.
  intros Hv Hrec Hgone. cbv zeta.
  destruct (resetPassword_no_user X env req w i r Hv Hrec) as (Hr & Hus & Hpr & Hrt).
  { apply findFirst_None. intros v Hin. apply Nat.eqb_neq. by apply Hgone. }
  repeat split; try done. by rewrite Hpr.
Qed.

Lemma reset_without_user_witness :
  let token := "2a2a2a2a2a2a2a2a2a2a2a2a2a2a2a2a2a2a2a2a2a2a2a2a2a2a2a2a2a2a2a2a" in
  let doc := {| pr_userId := 9%nat; tokenHash := "sha256:" ++ token;
                pr_expiresAt := 901000; used := false |} in
  let w := {| users := [Sample.asha; Sample.ravi]; refreshTokens := [];
              passwordResets := [doc]; console := []; outbox := []; ops := [] |} in
  let e := Sample.env 2000 Byte.x00 true None in
  let w' := (resetPassword Sample.X e (withBodyToken token "password2") w).2 in
  (resetPassword Sample.X e (withBodyToken token "password2") w).1
    = statusJson 400 (JError "User not found")
  /\ users w' = users w /\ passwordResets w' = passwordResets w
  /\ refreshTokens w' = refreshTokens w
  /\ findFirst (validReset (sha256hex Sample.X
                              (body_token (withBodyToken token "password2")))
                           (now e)) (passwordResets w')
     = Some (0%nat, doc).
Proof.
  cbv zeta. apply (reset_without_user Sample.X).
  - reflexivity.
  - vm_compute. reflexivity.
  - intros v [<- | [<- | []]]; vm_compute; discriminate.
Defined.

(** X16.  What a successful reset writes.  Exactly one user document
    changes, and in it only the password hash, which becomes the hash of
    the submitted password (identity, e-mail and federated identity are
    kept); exactly one reset document changes, the consumed one, which
    becomes used; nothing is logged and no mail is sent. *)
Theorem reset_writes X env req w i r j u :
  hasErrors req = false ->
  findFirst (validReset (sha256hex X (body_token req)) (now env)) (passwordResets w)
    = Some (i, r) ->
  findFirst (fun v => Nat.eqb (_id v) (pr_userId r)) (users w) = Some (j, u) ->
  let w' := (resetPassword X env req w).2 in
  (users w' !! j = Some (setPassword u (bcryptHash X (body_password req)))
   /\ (forall k, k <> j -> users w' !! k = users w !! k)
   /\ length (users w') = length (users w))
  /\ (passwordResets w' !! i = Some (markUsed r)
      /\ (forall k, k <> i -> passwordResets w' !! k = passwordResets w !! k)
      /\ length (passwordResets w') = length (passwordResets w))
  /\ console w' = console w /\ outbox w' = outbox w.
Proof.
  intros Hv Hrec Hu. cbv zeta.
  destruct (resetPassword_found X env req w i r j u Hv Hrec Hu) as (_ & Hus & Hpr & _).
  pose proof (findFirst_Some _ _ _ _ Hrec) as (Hi & _ & _).
  pose proof (findFirst_Some _ _ _ _ Hu) as (Hj & _ & _).
  rewrite Hus, Hpr. split; [| split].
  - split; [apply list_lookup_insert_eq; by eapply lookup_lt_Some |].
    split; [intros k Hk; by apply list_lookup_insert_ne | apply length_insert].
  - split; [apply list_lookup_insert_eq; by eapply lookup_lt_Some |].
    split; [intros k Hk; by apply list_lookup_insert_ne | apply length_insert].
  - unfold resetPassword. rewrite Hv. unfold_store. step_handler.
    rewrite Hrec. cbn. rewrite Hu. cbn. done.
Qed.

Lemma reset_writes_witness :
  let token := "2a2a2a2a2a2a2a2a2a2a2a2a2a2a2a2a2a2a2a2a2a2a2a2a2a2a2a2a2a2a2a2a" in
  let doc := {| pr_userId := 2%nat; tokenHash := "sha256:" ++ token;
                pr_expiresAt := 901000; used := false |} in
  let w := {| users := [Sample.asha; Sample.ravi]; refreshTokens := [];
              passwordResets := [doc]; console := []; outbox := []; ops := [] |} in
  let req := withBodyToken token "password2" in
  let w' := (resetPassword Sample.X (Sample.env 2000 Byte.x00 true None) req w).2 in
  users w' !! 1%nat = Some (setPassword Sample.ravi "bcrypt:password2")
  /\ users w' !! 0%nat = Some Sample.asha.
Proof.
  cbv zeta.
  edestruct (reset_writes Sample.X (Sample.env 2000 Byte.x00 true None)
               (withBodyToken
                  "2a2a2a2a2a2a2a2a2a2a2a2a2a2a2a2a2a2a2a2a2a2a2a2a2a2a2a2a2a2a2a2a"
                  "password2")
               {| users := [Sample.asha; Sample.ravi]; refreshTokens := [];
                  passwordResets :=
                    [ {| pr_userId := 2%nat;
                         tokenHash := "sha256:" ++
                           "2a2a2a2a2a2a2a2a2a2a2a2a2a2a2a2a2a2a2a2a2a2a2a2a2a2a2a2a2a2a2a2a";
                         pr_expiresAt := 901000; used := false |} ];
                  console := []; outbox := []; ops := [] |}
               0%nat
               {| pr_userId := 2%nat;
                  tokenHash := "sha256:" ++
                    "2a2a2a2a2a2a2a2a2a2a2a2a2a2a2a2a2a2a2a2a2a2a2a2a2a2a2a2a2a2a2a2a";
                  pr_expiresAt := 901000; used := false |}
               1%nat Sample.ravi) as ((Hnew & Hother & _) & _).
  - reflexivity.
  - vm_compute. reflexivity.
  - vm_compute. reflexivity.
  - split; [exact Hnew |]. rewrite (Hother 0%nat) by discriminate. reflexivity.
Defined.

(** *** Forgot-password without an issuance, and the mailer *)

(** X17.  A forgot-password request that passes validation but names no
    registered e-mail, or a federated-only account, has one effect only:
    a single user lookup.  No reset document is created or invalidated,
    no mail is sent and nothing is written to the console. *)
Theorem forgotPassword_silent X env req w :
  hasErrors req = false -> issuesFor req w = None ->
  forgotPassword X env req w
    = (json (JMessage successMessage),
       {| users := users w; refreshTokens := refreshTokens w;
          passwordResets := passwordResets w; console := console w;
          outbox := outbox w; ops := (ops w ++ [OpFind Users])%list |}).
Proof.
  intros Hv. unfold issuesFor, forgotPassword. rewrite Hv.
  unfold_store. step_handler.
  destruct (findFirst _ (users w)) as [[i v] |]; cbn; [| done].
  destruct (truthy (googleId v) && negb (truthy (passwordHash v))); [done |].
  discriminate.
Qed.

Lemma forgotPassword_silent_witness :
  let w' := (forgotPassword Sample.X (Sample.env 1000 Byte.x2a true None)
               (Sample.withEmail "ravi@mictech.edu.in" Sample.request)
               Sample.world0).2 in
  passwordResets w' = [] /\ outbox w' = [] /\ console w' = []
  /\ ops w' = [OpFind Users].
Proof.
  cbv zeta.
  rewrite (forgotPassword_silent Sample.X (Sample.env 1000 Byte.x2a true None)
             (Sample.withEmail "ravi@mictech.edu.in" Sample.request) Sample.world0);
    [| reflexivity | vm_compute; reflexivity].
  cbn. repeat split.
Defined.

(** X18.  The mailer.  [sendPasswordResetEmail] always returns (a failing
    transport is caught) and never touches users, sessions or reset
    documents.  It returns [false] exactly when a configured transporter
    rejects the message.  It hands one message to the transporter exactly
    when a transporter is configured and accepts it; that message goes to
    the given address and its link is the front-end base URL, the reset
    path and the token. *)
Theorem sendPasswordResetEmail_contract env email token userName w :
  exists ok w',
    sendPasswordResetEmail env email token userName w = (Returned ok, w')
    /\ users w' = users w /\ refreshTokens w' = refreshTokens w
    /\ passwordResets w' = passwordResets w
    /\ (ok = false <-> transporter env = true /\ sendMailError env <> None)
    /\ outbox w'
       = (outbox w
          ++ (if transporter env
              then match sendMailError env with
                   | None => [ {| mail_to := email;
                                  mail_subject := "Password Reset Request - NoteMitra";
                                  mail_userName := userName;
                                  mail_resetUrl :=
                                    baseUrl env ++ "/auth/reset-password?token=" ++ token |} ]
                   | Some _ => []
                   end
              else []))%list.
Proof.
  unfold sendPasswordResetEmail, resetUrlFor.
  destruct (transporter env); cbn; [destruct (sendMailError env) |]; step_handler;
    eexists _, _; (split; [reflexivity |]); cbn; rewrite ?app_nil_r;
    repeat split; try done; try (intros [? ?]; done); try (intros [? Hbad]; done).
Qed.

(** *** Hex tokens *)

Lemma fromHex_byte b :
  hexValue (hexDigit (Byte.to_N b / 16)) = Some (Byte.to_N b / 16)%N
  /\ hexValue (hexDigit (Byte.to_N b mod 16)) = Some (Byte.to_N b mod 16)%N
  /\ Byte.of_N (16 * (Byte.to_N b / 16) + Byte.to_N b mod 16) = Some b.
Proof. destruct b; repeat split; reflexivity. Qed.

Lemma fromHex_toHex bytes : fromHex (toHex bytes) = Some bytes.
Proof.
  induction bytes as [| b rest IH]; [reflexivity |].
  cbn [toHex fromHex]. destruct (fromHex_byte b) as (-> & -> & Hb).
  rewrite IH, Hb. reflexivity.
Qed.

(** X19.  Hex encoding loses nothing.  Decoding the hex form of a byte
    sequence gives the bytes back, so different byte sequences have
    different hex forms; in particular two forgot-password requests
    generate the same plaintext token only if their 32 random bytes are
    the same. *)
Theorem hex_round_trip :
  (forall bytes, fromHex (toHex bytes) = Some bytes)
  /\ (forall a b, toHex a = toHex b -> a = b)
  /\ (forall env1 env2, plainTokenOf env1 = plainTokenOf env2 ->
        forall k, (k < 32)%nat -> rng env1 k = rng env2 k).
Proof.
  split; [exact fromHex_toHex |].
  assert (forall a b, toHex a = toHex b -> a = b) as Hinj.
  { intros a b Heq. pose proof (fromHex_toHex a) as Ha. rewrite Heq, fromHex_toHex in Ha.
    by injection Ha. }
  split; [exact Hinj |].
  intros env1 env2 Heq k Hk. apply Hinj in Heq.
  assert (List.nth_error (List.map (rng env1) (seq 0 32)) k
          = List.nth_error (List.map (rng env2) (seq 0 32)) k) as Hnth by by rewrite Heq.
  rewrite !List.nth_error_map in Hnth.
  assert (List.nth_error (seq 0 32) k = Some k) as Hs.
  { rewrite List.nth_error_nth' with (d := O) by (rewrite length_seq; lia).
    by rewrite List.seq_nth. }
  rewrite Hs in Hnth. cbn in Hnth. by injection Hnth.
Qed.

(** *** The statics of the [PasswordReset] model *)

(** X20.  [createReset], then [verifyToken].  [createReset] returns the
    created document together with a plaintext token of 64 hex
    characters whose digest the document holds.  When that digest is new
    to the store, [verifyToken] on the returned token finds exactly the
    created document at every instant strictly before its expiry, 15
    minutes after creation, and finds nothing from the expiry on. *)
Theorem createReset_then_verifyToken X env uid w :
  (forall r, In r (passwordResets w) -> tokenHash r <> digestOf X env) ->
  exists doc plain w1,
    createReset X env uid w = (Returned (doc, plain), w1)
    /\ String.length plain = 64%nat
    /\ doc = {| pr_userId := uid; tokenHash := sha256hex X plain;
                pr_expiresAt := now env + 15 * 60 * 1000; used := false |}
    /\ (forall env', exists w2,
          verifyToken X env' plain w1
            = (Returned (if now env' <? now env + 15 * 60 * 1000
                         then Some (length (passwordResets w), doc) else None), w2)).
Proof.
  intros Hfresh.
  destruct (createReset_issues X env uid w) as (w1 & Hcr & Hpr).
  eexists _, _, w1. split; [exact Hcr |].
  split; [apply plainTokenOf_format |]. split; [reflexivity |].
  intros env'. destruct (verifyToken_lookup X env' (plainTokenOf env) w1) as (w2 & -> & _).
  exists w2. f_equal. f_equal. rewrite Hpr.
  pose (u := {| _id := uid; name := EmptyString; email := EmptyString;
                passwordHash := None; googleId := None; role := EmptyString;
                section := EmptyString; branch := EmptyString;
                profilePic := EmptyString; reputation := 0 |}).
  exact (issued_lookup X env u (passwordResets w) (now env') Hfresh).
Qed.

Lemma createReset_then_verifyToken_witness :
  exists doc plain w1,
    createReset Sample.X (Sample.env 1000 Byte.x2a true None) 1%nat Sample.world0
      = (Returned (doc, plain), w1)
    /\ String.length plain = 64%nat
    /\ doc = {| pr_userId := 1%nat; tokenHash := sha256hex Sample.X plain;
                pr_expiresAt := now (Sample.env 1000 Byte.x2a true None) + 15 * 60 * 1000;
                used := false |}
    /\ (forall env', exists w2,
          verifyToken Sample.X env' plain w1
            = (Returned (if now env' <? now (Sample.env 1000 Byte.x2a true None)
                                         + 15 * 60 * 1000
                         then Some (length (passwordResets Sample.world0), doc)
                         else None), w2)).
Proof.
  apply (createReset_then_verifyToken Sample.X (Sample.env 1000 Byte.x2a true None)
           1%nat Sample.world0).
  intros r [].
Defined.

(** *** Validation of a reset request *)

Lemma check_nil ok msg : check ok msg = [] <-> ok = true.
Proof. destruct ok; cbn; split; intros; done. Qed.

(** X21.  What the reset-password validation accepts.  A request that
    arrives without errors passes [validateResetPassword] exactly when
    [isLength({ min: 64, max: 64 })] accepts the token,
    [isLength({ min: 8 })] accepts the password, and the confirmation
    equals the password.  The three [notEmpty] checks never decide,
    because [isLength] with a positive minimum rejects the empty string.
    The chain changes no field of the request. *)
Theorem validateResetPassword_accepts X req :
  validationErrors req = [] ->
  isLength X 64 (Some 64%nat) EmptyString = false ->
  isLength X 8 None EmptyString = false ->
  (validationErrors (validateResetPassword X req) = []
   <-> isLength X 64 (Some 64%nat) (body_token req) = true
       /\ isLength X 8 None (body_password req) = true
       /\ body_confirmPassword req = body_password req)
  /\ body_token (validateResetPassword X req) = body_token req
  /\ body_password (validateResetPassword X req) = body_password req
  /\ body_confirmPassword (validateResetPassword X req) = body_confirmPassword req
  /\ body_email (validateResetPassword X req) = body_email req.
Proof.
  intros Hclean Htoken0 Hpassword0. split; [| done].
  unfold validateResetPassword. cbn [validationErrors sanitized]. rewrite Hclean.
  cbn [app]. rewrite !app_nil, !check_nil.
  rewrite !negb_true_iff, String.eqb_eq.
  split.
  - intros (_ & Hlen & _ & Hpw & _ & Hconfirm). done.
  - intros (Hlen & Hpw & Hconfirm). repeat split; try done.
    + apply String.eqb_neq. intros He. rewrite He in Hlen. congruence.
    + apply String.eqb_neq. intros He. rewrite He in Hpw. congruence.
    + apply String.eqb_neq. intros He. rewrite Hconfirm in He. rewrite He in Hpw.
      congruence.
Qed.

Lemma validateResetPassword_accepts_witness :
  validationErrors
    (validateResetPassword Sample.X
       (withBodyToken Sample.eToken "password2")) = []
  <-> isLength Sample.X 64 (Some 64%nat)
        (body_token (withBodyToken Sample.eToken "password2")) = true
      /\ isLength Sample.X 8 None
           (body_password (withBodyToken Sample.eToken "password2")) = true
      /\ body_confirmPassword (withBodyToken Sample.eToken "password2")
          = body_password (withBodyToken Sample.eToken "password2").
Proof.
  apply (validateResetPassword_accepts Sample.X
           (withBodyToken Sample.eToken "password2")).
  - reflexivity.
  - vm_compute. reflexivity.
  - vm_compute. reflexivity.
Defined.

(** *** Passive expiry *)

Lemma findFirst_filter {A} (p q : A -> bool) (l : list A) :
  (forall x, p x = true -> q x = true) ->
  option_map snd (findFirst p (List.filter q l)) = option_map snd (findFirst p l).
Proof.
  intros Hpq. induction l as [| a l IH]; [done |]. cbn.
  destruct (p a) eqn:Hpa.
  - rewrite (Hpq a Hpa). cbn. by rewrite Hpa.
  - destruct (q a); cbn; [rewrite Hpa |].
    + destruct (findFirst p (List.filter q l)) as [[i x] |],
               (findFirst p l) as [[k y] |]; cbn in *; congruence.
    + rewrite IH. by destruct (findFirst p l) as [[k y] |].
Qed.

Lemma resetPassword_response X env req w :
  hasErrors req = false ->
  (resetPassword X env req w).1
    = match option_map snd (findFirst (validReset (sha256hex X (body_token req)) (now env))
                                      (passwordResets w)) with
      | None => statusJson 400 (JError invalidTokenError)
      | Some r =>
          match findFirst (fun v => Nat.eqb (_id v) (pr_userId r)) (users w) with
          | None => statusJson 400 (JError "User not found")
          | Some _ => json successBody
          end
      end.
Proof.
  intros Hv. unfold resetPassword. rewrite Hv. unfold_store. step_handler.
  destruct (findFirst _ (passwordResets w)) as [[i r] |]; cbn; [| done].
  destruct (findFirst _ (users w)) as [[j u] |]; cbn; done.
Qed.

(** X22.  Passive expiry is invisible.  Whether or not the store has
    dropped the reset documents that expired by some time [t], a
    verify-reset-token or reset-password request handled at a time
    [now >= t] gets the same answer; the purge keeps every document that
    has not expired by [t] and touches no user or session. *)
Theorem ttlPurge_transparent X t env req w :
  t <= now env ->
  (verifyResetToken X env req (ttlPurge t w)).1 = (verifyResetToken X env req w).1
  /\ (resetPassword X env req (ttlPurge t w)).1 = (resetPassword X env req w).1
  /\ (forall r, In r (passwordResets w) -> t < pr_expiresAt r ->
        In r (passwordResets (ttlPurge t w)))
  /\ users (ttlPurge t w) = users w /\ refreshTokens (ttlPurge t w) = refreshTokens w.
Proof.
  intros Hle.
  assert (forall h,
            option_map snd (findFirst (validReset h (now env))
                                      (passwordResets (ttlPurge t w)))
            = option_map snd (findFirst (validReset h (now env)) (passwordResets w)))
    as Hsame.
  { intros h. unfold ttlPurge. cbn [passwordResets]. apply findFirst_filter.
    intros x Hx. apply validReset_true in Hx as (_ & _ & Hx). apply Z.ltb_lt. lia. }
  split; [| split; [| split]].
  - unfold verifyResetToken.
    destruct (String.eqb (params_token req) EmptyString || _); [by step_handler |].
    unfold_store. step_handler.
    specialize (Hsame (sha256hex X (params_token req))). cbn [passwordResets ttlPurge] in *.
    destruct (findFirst _ (List.filter _ (passwordResets w))) as [[i r] |],
             (findFirst _ (passwordResets w)) as [[k y] |]; cbn in *; congruence.
  - destruct (hasErrors req) eqn:Hv.
    { by rewrite !resetPassword_invalid. }
    rewrite !resetPassword_response by done. by rewrite Hsame.
  - intros r Hin Hlive. unfold ttlPurge. cbn. apply filter_In. split; [done |].
    by apply Z.ltb_lt.
  - done.
Qed.

Lemma ttlPurge_transparent_witness :
  let token := "2a2a2a2a2a2a2a2a2a2a2a2a2a2a2a2a2a2a2a2a2a2a2a2a2a2a2a2a2a2a2a2a" in
  let stale := {| pr_userId := 2%nat; tokenHash := "sha256:old";
                  pr_expiresAt := 1500; used := false |} in
  let doc := {| pr_userId := 1%nat; tokenHash := "sha256:" ++ token;
                pr_expiresAt := 901000; used := false |} in
  let w := {| users := [Sample.asha; Sample.ravi]; refreshTokens := [];
              passwordResets := [stale; doc]; console := []; outbox := []; ops := [] |} in
  let e := Sample.env 2000 Byte.x00 true None in
  passwordResets (ttlPurge 1800 w) = [doc]
  /\ (verifyResetToken Sample.X e (withParamsToken token) (ttlPurge 1800 w)).1
     = (verifyResetToken Sample.X e (withParamsToken token) w).1.
Proof.
  cbv zeta. split; [vm_compute; reflexivity |].
  apply (ttlPurge_transparent Sample.X 1800 (Sample.env 2000 Byte.x00 true None)).
  cbn. lia.
Defined.

End AuthCoverage.

(* ===================================================================== *)
(** ** Limited routes                                                    *)
(* ===================================================================== *)

Module RouteCoverage.
Import Auth Serving RateLimiterFacts.

Lemma limited_rejects opts key (h : Handler) now sv e :
  rateLimitStore sv !! key = Some e ->
  RateLimiter.maxRequests opts <= RateLimiter.count e ->
  now <= RateLimiter.resetTime e ->
  exists st,
    limited (RateLimiter.rateLimit opts key now (rateLimitStore sv)) h sv
      = (statusJson 429 (JThrottled (RateLimiter.message opts)
                           (RateLimiter.ceilDiv1000 (RateLimiter.resetTime e - now))),
         {| rateLimitStore := st; world := world sv |})
    /\ st !! key = Some {| RateLimiter.count := RateLimiter.count e + 1;
                           RateLimiter.resetTime := RateLimiter.resetTime e |}.
Proof.
  intros Hk Hfull Hlive. unfold limited, RateLimiter.rateLimit. rewrite Hk.
  destruct (Z.ltb_spec (RateLimiter.resetTime e) now); [lia |]. cbn.
  destruct (Z.ltb_spec (RateLimiter.maxRequests opts) (RateLimiter.count e + 1)); [| lia].
  cbn. eexists. split; [reflexivity |]. apply lookup_insert_eq.
Qed.

Lemma serve_locked opts (keyOf : Request -> string) (h : Env -> Request -> Handler)
    (key : string) (reqs : list (Env * Request)) : forall sv e,
  rateLimitStore sv !! key = Some e ->
  RateLimiter.maxRequests opts <= RateLimiter.count e ->
  Forall (fun er => keyOf er.2 = key /\ now er.1 <= RateLimiter.resetTime e) reqs ->
  (serve (fun env req sv =>
            limited (RateLimiter.rateLimit opts (keyOf req) (now env) (rateLimitStore sv))
                    (h env req) sv) reqs sv).1
    = List.map (fun er => statusJson 429
                  (JThrottled (RateLimiter.message opts)
                     (RateLimiter.ceilDiv1000 (RateLimiter.resetTime e - now er.1)))) reqs
  /\ world (serve (fun env req sv =>
                     limited (RateLimiter.rateLimit opts (keyOf req) (now env)
                                (rateLimitStore sv))
                             (h env req) sv) reqs sv).2 = world sv.
Proof.
  induction reqs as [| [env req] rest IH]; intros sv e Hk Hfull Hall; [done |].
  inversion Hall as [| ? ? [Hkey Hlive] Hrest]; subst. cbn in Hlive.
  cbn [serve]. cbn [snd] in *.
  destruct (limited_rejects opts (keyOf req) (h env req) (now env) sv e Hk Hfull Hlive)
    as (st & -> & Hst).
  specialize (IH {| rateLimitStore := st; world := world sv |}
                 {| RateLimiter.count := RateLimiter.count e + 1;
                    RateLimiter.resetTime := RateLimiter.resetTime e |}).
  cbn [rateLimitStore world RateLimiter.count RateLimiter.resetTime] in IH.
  destruct IH as [IH1 IH2]; [exact Hst | lia | exact Hrest |].
  destruct (serve _ rest _) as [more sv2]. cbn in *. by rewrite IH1, IH2.
Qed.

(** X23.  Lock-out.  Once the counter of a login key has reached the
    limit of 10 and its window is still open, every further login
    request for that address and e-mail, whatever its password and
    whether or not it would pass validation, is answered 429 with the
    limiter's message and the seconds left; none of them reaches the
    handler, so the world is exactly as before.  The same holds for the
    forgot-password route with its limit of 3. *)
Theorem lockout X key e reqs sv :
  rateLimitStore sv !! key = Some e ->
  Forall (fun er => now er.1 <= RateLimiter.resetTime e) reqs ->
  (10 <= RateLimiter.count e ->
   Forall (fun er => RateLimiter.loginKey (ip er.2) (body_email er.2) = key) reqs ->
   (serve (postLogin X) reqs sv).1
     = List.map (fun er => statusJson 429
                   (JThrottled "Too many login attempts. Please try again in 15 minutes."
                      (RateLimiter.ceilDiv1000 (RateLimiter.resetTime e - now er.1)))) reqs
   /\ world (serve (postLogin X) reqs sv).2 = world sv)
  /\ (3 <= RateLimiter.count e ->
      Forall (fun er => RateLimiter.forgotPasswordKey (ip er.2) (body_email er.2) = key)
             reqs ->
      (serve (postForgotPassword X) reqs sv).1
        = List.map (fun er => statusJson 429
                      (JThrottled
                         "Too many password reset requests. Please try again in 15 minutes."
                         (RateLimiter.ceilDiv1000 (RateLimiter.resetTime e - now er.1))))
                   reqs
      /\ world (serve (postForgotPassword X) reqs sv).2 = world sv).
Proof.
  intros Hk Hlive. split; intros Hfull Hkeys.
  - apply (serve_locked RateLimiter.loginOptions
             (fun req => RateLimiter.loginKey (ip req) (body_email req))
             (fun env req => login X env (validateLogin X req)) key reqs sv e Hk Hfull).
    apply Forall_forall. intros er Hin. split.
    + by apply (proj1 (Forall_forall _ _) Hkeys).
    + by apply (proj1 (Forall_forall _ _) Hlive).
  - apply (serve_locked RateLimiter.forgotPasswordOptions
             (fun req => RateLimiter.forgotPasswordKey (ip req) (body_email req))
             (fun env req => forgotPassword X env (validateForgotPassword X req))
             key reqs sv e Hk Hfull).
    apply Forall_forall. intros er Hin. split.
    + by apply (proj1 (Forall_forall _ _) Hkeys).
    + by apply (proj1 (Forall_forall _ _) Hlive).
Qed.

Lemma lockout_witness :
  let sv := {| rateLimitStore :=
                 {[ RateLimiter.loginKey "10.0.0.7" "asha@mictech.edu.in"
                    := RateLimiter.mkEntry 10 900000 ]};
               world := Sample.world0 |} in
  let attempt t p := (Sample.env t Byte.x00 true None,
                      Sample.withPassword p
                        (Sample.withEmail "Asha@mictech.edu.in" Sample.request)) in
  let reqs := [attempt 1000 "password1"; attempt 2000 "guess"] in
  (serve (postLogin Sample.X) reqs sv).1
    = List.map (fun er => statusJson 429
                  (JThrottled "Too many login attempts. Please try again in 15 minutes."
                     (RateLimiter.ceilDiv1000
                        (RateLimiter.resetTime (RateLimiter.mkEntry 10 900000)
                         - now er.1)))) reqs
  /\ world (serve (postLogin Sample.X) reqs sv).2 = world sv.
Proof.
  cbv zeta.
  eapply (lockout Sample.X (RateLimiter.loginKey "10.0.0.7" "asha@mictech.edu.in")).
  - vm_compute. reflexivity.
  - repeat constructor; cbn; lia.
  - cbn. lia.
  - repeat constructor.
Defined.

End RouteCoverage.

(* ===================================================================== *)
(** ** Properties of registration                                        *)
(* ===================================================================== *)

Module RegistrationFacts.
Import Auth Registration AuthFacts AuthCoverage.

Ltac signup_steps :=
  unfold tryCatchSignup, User_create; unfold_store; step_handler.

Lemma signup_success X L c env req w :
  su_hasErrors req = false ->
  endsWith (su_email req) "@mictech.edu.in" = true ->
  findFirst (fun v => String.eqb (email v) (su_email req)) (users w) = None ->
  su_status (signup X L c env req w).1 = 201
  /\ users (signup X L c env req w).2 = (users w ++ [newUser X c req])%list
  /\ refreshTokens (signup X L c env req w).2
     = (refreshTokens w
        ++ [ {| rt_userId := new_id c;
                rt_token := generateRefreshToken X (newUser X c req) (now env);
                rt_expiresAt := now env + 7 * 24 * 60 * 60 * 1000 |} ])%list
  /\ passwordResets (signup X L c env req w).2 = passwordResets w.
Proof.
  intros Hv Hdom Hfree. unfold signup. rewrite Hv, Hdom. cbn [negb].
  signup_steps. rewrite Hfree. cbn. done.
Qed.

Lemma signup_rejected X L c env req w :
  su_hasErrors req = true
  \/ endsWith (su_email req) "@mictech.edu.in" = false
  \/ (exists i v, findFirst (fun v => String.eqb (email v) (su_email req)) (users w)
                  = Some (i, v)) ->
  su_status (signup X L c env req w).1 <> 201
  /\ users (signup X L c env req w).2 = users w
  /\ refreshTokens (signup X L c env req w).2 = refreshTokens w
  /\ passwordResets (signup X L c env req w).2 = passwordResets w
  /\ console (signup X L c env req w).2 = console w
  /\ outbox (signup X L c env req w).2 = outbox w.
Proof.
  unfold signup. destruct (su_hasErrors req).
  { intros _. signup_steps. repeat split; done. }
  destruct (endsWith (su_email req) "@mictech.edu.in").
  2: { intros _. signup_steps. repeat split; done. }
  intros [Hbad | [Hbad | (i & v & Hf)]]; try discriminate.
  cbn [negb]. signup_steps. rewrite Hf. cbn. repeat split; done.
Qed.

(** X24.  A signup creates an account exactly when the request has no
    validation error, the e-mail ends with the college domain and no
    user holds the e-mail; then the answer is 201 and one user document,
    holding the hash of the password, and one refresh-token row are
    appended.  Every other signup is rejected with nothing written: no
    user, session, reset document, mail or console line. *)
Theorem signup_outcome X L c env req w :
  let ok := negb (su_hasErrors req)
            && endsWith (su_email req) "@mictech.edu.in"
            && negb (List.existsb (fun v => String.eqb (email v) (su_email req))
                                  (users w)) in
  let r := (signup X L c env req w).1 in
  let w' := (signup X L c env req w).2 in
  (su_status r = 201 <-> ok = true)
  /\ (ok = true ->
      users w' = (users w ++ [newUser X c req])%list
      /\ passwordHash (newUser X c req) = Some (bcryptHash X (su_password req))
      /\ refreshTokens w'
         = (refreshTokens w
            ++ [ {| rt_userId := new_id c;
                    rt_token := generateRefreshToken X (newUser X c req) (now env);
                    rt_expiresAt := now env + 7 * 24 * 60 * 60 * 1000 |} ])%list)
  /\ (ok = false ->
      users w' = users w /\ refreshTokens w' = refreshTokens w
      /\ passwordResets w' = passwordResets w
      /\ console w' = console w /\ outbox w' = outbox w).
Proof.
  cbv zeta.
  assert (List.existsb (fun v => String.eqb (email v) (su_email req)) (users w) = false
          <-> findFirst (fun v => String.eqb (email v) (su_email req)) (users w) = None)
    as Hfree.
  { rewrite findFirst_None. split.
    - intros Hex v Hin. destruct (String.eqb (email v) (su_email req)) eqn:Hv; [| done].
      assert (List.existsb (fun v => String.eqb (email v) (su_email req)) (users w) = true)
        as Hbad by (apply List.existsb_exists; eauto).
      congruence.
    - intros Hnone. destruct (List.existsb _ (users w)) eqn:Hex; [| done].
      apply List.existsb_exists in Hex as (v & Hin & Hv). rewrite (Hnone v Hin) in Hv.
      discriminate. }
  destruct (su_hasErrors req) eqn:Hv; cbn [negb andb].
  { destruct (signup_rejected X L c env req w) as (Hr & Hw); [by left |].
    split; [split; [done | discriminate] |]. split; [discriminate | done]. }
  destruct (endsWith (su_email req) "@mictech.edu.in") eqn:Hdom; cbn [negb andb].
  2: { destruct (signup_rejected X L c env req w) as (Hr & Hw); [right; by left |].
       split; [split; [done | discriminate] |]. split; [discriminate | done]. }
  destruct (List.existsb _ (users w)) eqn:Hex; cbn [negb].
  - destruct (signup_rejected X L c env req w) as (Hr & Hw).
    { right; right. apply List.existsb_exists in Hex as (v & Hin & Hm).
      destruct (findFirst_exists (fun v => String.eqb (email v) (su_email req))
                  (users w) v Hin Hm) as (i & y & Hf). eauto. }
    split; [split; [done | discriminate] |]. split; [discriminate | done].
  - destruct (signup_success X L c env req w Hv Hdom) as (Hr & Hus & Hrt & _);
      [by apply Hfree |].
    split; [done |]. split; [done | discriminate].
Qed.

Lemma signup_outcome_witness :
  let w' := (signup Sample.X SampleSignup.L SampleSignup.created
               (Sample.env 1000 Byte.x00 true None) SampleSignup.meera
               Sample.world0).2 in
  users w' = (users Sample.world0
              ++ [newUser Sample.X SampleSignup.created SampleSignup.meera])%list
  /\ passwordHash (newUser Sample.X SampleSignup.created SampleSignup.meera)
     = Some (bcryptHash Sample.X (su_password SampleSignup.meera))
  /\ refreshTokens w'
     = (refreshTokens Sample.world0
        ++ [ {| rt_userId := new_id SampleSignup.created;
                rt_token := generateRefreshToken Sample.X
                              (newUser Sample.X SampleSignup.created SampleSignup.meera)
                              (now (Sample.env 1000 Byte.x00 true None));
                rt_expiresAt := now (Sample.env 1000 Byte.x00 true None)
                                + 7 * 24 * 60 * 60 * 1000 |} ])%list.
Proof.
  cbv zeta.
  destruct (signup_outcome Sample.X SampleSignup.L SampleSignup.created
              (Sample.env 1000 Byte.x00 true None) SampleSignup.meera Sample.world0)
    as (_ & Hcreated & _).
  apply Hcreated. vm_compute. reflexivity.
Defined.

(** X25.  Signup, then login.  After a successful signup, a login with
    the same e-mail and password is answered 200 and opens a session
    for the new user, provided [comparePassword] accepts the password
    whose hash a document holds (the contract of the [User] model). *)
Theorem signup_then_login X L c env req w env' req' :
  su_status (signup X L c env req w).1 = 201 ->
  (forall v p, passwordHash v = Some (bcryptHash X p) -> comparePassword X v p = true) ->
  hasErrors req' = false ->
  body_email req' = su_email req -> body_password req' = su_password req ->
  let w1 := (signup X L c env req w).2 in
  status (login X env' req' w1).1 = 200
  /\ exists t, In t (refreshTokens (login X env' req' w1).2)
               /\ rt_userId t = new_id c
               /\ rt_expiresAt t = now env' + 7 * 24 * 60 * 60 * 1000.
Proof.
  intros Hcreated Hcontract Hv Hmail Hpw. cbv zeta.
  destruct (signup_outcome X L c env req w) as (Hiff & Hok & _). cbv zeta in *.
  apply Hiff in Hcreated. pose proof (Hok Hcreated) as (Hus & Hhash & _).
  apply andb_true_iff in Hcreated as [_ Hfree]. apply negb_true_iff in Hfree.
  assert (findFirst (fun v => String.eqb (email v) (body_email req'))
                    (users (signup X L c env req w).2)
          = Some (length (users w), newUser X c req)) as Hfound.
  { rewrite Hus, Hmail. apply findFirst_app.
    - intros v Hin. destruct (String.eqb (email v) (su_email req)) eqn:Hm; [| done].
      assert (List.existsb (fun v => String.eqb (email v) (su_email req)) (users w) = true)
        as Hbad by (apply List.existsb_exists; eauto).
      congruence.
    - cbn. apply String.eqb_refl. }
  destruct (login_success X env' req' _ _ _ Hv Hfound) as (Hr & _ & _ & Hrt).
  { apply Hcontract. by rewrite Hpw. }
  split; [by rewrite Hr |].
  eexists. split; [rewrite Hrt; apply in_app_iff; right; by left |]. done.
Qed.

Lemma signup_then_login_witness :
  let w1 := (signup Sample.X SampleSignup.L SampleSignup.created
               (Sample.env 1000 Byte.x00 true None) SampleSignup.meera
               Sample.world0).2 in
  let credentials := Sample.withPassword "password1"
                       (Sample.withEmail "meera@mictech.edu.in" Sample.request) in
  status (login Sample.X (Sample.env 2000 Byte.x00 true None) credentials w1).1 = 200.
Proof.
  cbv zeta.
  apply (signup_then_login Sample.X SampleSignup.L SampleSignup.created
           (Sample.env 1000 Byte.x00 true None) SampleSignup.meera Sample.world0).
  - vm_compute. reflexivity.
  - intros v p Hh. cbn. rewrite Hh. apply String.eqb_refl.
  - reflexivity.
  - reflexivity.
  - reflexivity.
Defined.

Lemma signup_conflict X L c env req w i v :
  su_hasErrors req = false ->
  endsWith (su_email req) "@mictech.edu.in" = true ->
  findFirst (fun v => String.eqb (email v) (su_email req)) (users w) = Some (i, v) ->
  su_status (signup X L c env req w).1 = 409
  /\ users (signup X L c env req w).2 = users w
  /\ refreshTokens (signup X L c env req w).2 = refreshTokens w.
Proof.
  intros Hv Hdom Hf. unfold signup. rewrite Hv, Hdom. cbn [negb]. signup_steps.
  rewrite Hf. cbn. done.
Qed.

(** *** Accounts along a run *)

Lemma login_users X env req w : users (login X env req w).2 = users w.
Proof.
  unfold login. destruct (hasErrors req); [by step_handler |].
  unfold_store. step_handler.
  destruct (findFirst _ (users w)) as [[i u] |]; cbn; [| done].
  destruct (comparePassword X u (body_password req)); cbn; done.
Qed.

Lemma verifyResetToken_users X env req w :
  users (verifyResetToken X env req w).2 = users w.
Proof.
  unfold verifyResetToken.
  destruct (String.eqb (params_token req) EmptyString || _); [by step_handler |].
  unfold_store. step_handler.
  destruct (findFirst _ (passwordResets w)) as [[i r] |]; cbn; done.
Qed.

Lemma map_insert_same {A B} (f : A -> B) (l : list A) i x y :
  l !! i = Some x -> f y = f x -> List.map f (<[i := y]> l) = List.map f l.
Proof.
  revert i. induction l as [| a l IH]; intros [| i] Hi Hf; try done.
  - injection Hi as ->. cbn. by rewrite Hf.
  - change (<[S i := y]> (a :: l)) with (a :: <[i := y]> l). cbn. f_equal.
    by apply IH.
Qed.

Lemma map_lookup {A B} (f : A -> B) (l : list A) i x :
  l !! i = Some x -> List.map f l !! i = Some (f x).
Proof.
  revert i. induction l as [| a l IH]; intros [| i] Hi; try done.
  - by injection Hi as ->.
  - by apply IH.
Qed.

Lemma step_accounts {B} X (f : User -> B) c w :
  (forall u h, f (setPassword u h) = f u) ->
  List.map f (users (step X c w)) = List.map f (users w).
Proof.
  intros Hf.
  destruct c as [env req | env req | env req | env req | env req | env req | t];
    cbn [step].
  - by rewrite login_users.
  - by destruct (refresh_rows X env req w) as (-> & _).
  - by destruct (logout_effect env req w) as (_ & -> & _).
  - destruct (issuesFor req w) as [u |] eqn:Hissue.
    + by destruct (forgotPassword_issues X env req w u Hissue) as (-> & _).
    + by destruct (forgotPassword_no_issue X env req w Hissue) as (-> & _).
  - destruct (hasErrors req) eqn:Hv.
    { by rewrite resetPassword_invalid. }
    destruct (findFirst (validReset (sha256hex X (body_token req)) (now env))
                        (passwordResets w)) as [[i r] |] eqn:Hrec.
    + destruct (findFirst (fun v => Nat.eqb (_id v) (pr_userId r)) (users w))
        as [[j u] |] eqn:Hu.
      * destruct (resetPassword_found X env req w i r j u Hv Hrec Hu) as (_ & -> & _).
        apply map_insert_same with (x := u); [| apply Hf].
        by apply findFirst_Some in Hu as (? & _).
      * by destruct (resetPassword_no_user X env req w i r Hv Hrec Hu) as (_ & -> & _).
    + by destruct (resetPassword_not_found X env req w Hv Hrec) as (_ & -> & _).
  - by rewrite verifyResetToken_users.
  - done.
Qed.

(** X26.  Accounts are stable.  Along any run of login, refresh, logout,
    forgot-password, reset-password and verify-reset-token requests and
    of store purges, the list of accounts stays as it is: no user
    document is added, removed or moved, and every field of every
    document other than the password hash (id, name, e-mail, federated
    identity, role, section, branch, picture, reputation) is kept.  So
    two documents at the same position before and after the run differ
    in the password hash at most. *)
Theorem accounts_stable X cs w :
  List.map withoutPasswordHash (users (run X cs w))
    = List.map withoutPasswordHash (users w)
  /\ length (users (run X cs w)) = length (users w)
  /\ (forall i u u', users w !! i = Some u -> users (run X cs w) !! i = Some u' ->
        _id u' = _id u /\ name u' = name u /\ email u' = email u
        /\ googleId u' = googleId u /\ role u' = role u
        /\ section u' = section u /\ branch u' = branch u
        /\ profilePic u' = profilePic u /\ reputation u' = reputation u).
Proof.
  assert (List.map withoutPasswordHash (users (run X cs w))
            = List.map withoutPasswordHash (users w)) as Hmap.
  { revert w. induction cs as [| c cs IH]; intros w; [done |].
    cbn [run]. rewrite IH. by apply step_accounts. }
  split; [exact Hmap |]. split.
  - apply (f_equal length) in Hmap. by rewrite !length_map in Hmap.
  - intros i u u' Hu Hu'.
    assert (List.map withoutPasswordHash (users w) !! i
              = Some (withoutPasswordHash u)) as H1
      by (by apply map_lookup).
    assert (List.map withoutPasswordHash (users (run X cs w)) !! i
              = Some (withoutPasswordHash u')) as H2
      by (by apply map_lookup).
    rewrite Hmap, H1 in H2. injection H2 as -> -> -> -> -> -> -> -> ->. done.
Qed.

Lemma accounts_stable_witness :
  let token := "2a2a2a2a2a2a2a2a2a2a2a2a2a2a2a2a2a2a2a2a2a2a2a2a2a2a2a2a2a2a2a2a" in
  let doc := {| pr_userId := 1%nat; tokenHash := "sha256:" ++ token;
                pr_expiresAt := 901000; used := false |} in
  let w := {| users := [Sample.asha]; refreshTokens := []; passwordResets := [doc];
              console := []; outbox := []; ops := [] |} in
  let e := Sample.env 2000 Byte.x00 true None in
  let u' := setPassword Sample.asha "bcrypt:password2" in
  _id u' = _id Sample.asha /\ name u' = name Sample.asha
  /\ email u' = email Sample.asha /\ googleId u' = googleId Sample.asha
  /\ role u' = role Sample.asha /\ section u' = section Sample.asha
  /\ branch u' = branch Sample.asha /\ profilePic u' = profilePic Sample.asha
  /\ reputation u' = reputation Sample.asha.
Proof.
  cbv zeta.
  destruct (accounts_stable Sample.X
              [CallResetPassword (Sample.env 2000 Byte.x00 true None)
                 (AuthSupport.withBodyToken
                    "2a2a2a2a2a2a2a2a2a2a2a2a2a2a2a2a2a2a2a2a2a2a2a2a2a2a2a2a2a2a2a2a"
                    "password2")]
              {| users := [Sample.asha]; refreshTokens := [];
                 passwordResets :=
                   [ {| pr_userId := 1%nat;
                        tokenHash := "sha256:" ++ "2a2a2a2a2a2a2a2a2a2a2a2a2a2a2a2a2a2a2a2a2a2a2a2a2a2a2a2a2a2a2a2a";
                        pr_expiresAt := 901000; used := false |} ];
                 console := []; outbox := []; ops := [] |})
    as (_ & _ & Hfields).
  apply (Hfields 0%nat Sample.asha (setPassword Sample.asha "bcrypt:password2")).
  - reflexivity.
  - vm_compute. reflexivity.
Defined.

(** X27.  E-mails stay unique.  If no two user documents share an
    e-mail, this still holds after any signup; and once an e-mail is
    registered, a further signup with it, whatever its other fields, is
    answered 409 and writes nothing. *)
Theorem signup_keeps_emails_unique X L c env req w :
  (NoDup (List.map email (users w)) ->
   NoDup (List.map email (users (signup X L c env req w).2)))
  /\ (forall c' env' req',
        su_status (signup X L c env req w).1 = 201 ->
        su_hasErrors req' = false ->
        endsWith (su_email req') "@mictech.edu.in" = true ->
        su_email req' = su_email req ->
        let w1 := (signup X L c env req w).2 in
        su_status (signup X L c' env' req' w1).1 = 409
        /\ users (signup X L c' env' req' w1).2 = users w1
        /\ refreshTokens (signup X L c' env' req' w1).2 = refreshTokens w1).
Proof.
  destruct (signup_outcome X L c env req w) as (Hiff & Hok & Hrej). cbv zeta in *.
  split.
  - intros Hnodup.
    destruct (negb (su_hasErrors req) && endsWith (su_email req) "@mictech.edu.in"
              && negb (List.existsb (fun v => String.eqb (email v) (su_email req))
                                    (users w))) eqn:Hcase.
    + destruct (Hok eq_refl) as (-> & _).
      rewrite List.map_app. cbn. apply NoDup_app. split; [done |].
      split; [| apply NoDup_singleton].
      intros e He Hin. apply list_elem_of_In in He. apply list_elem_of_In in Hin.
      destruct Hin as [<- | []]. apply in_map_iff in He as (v & Hv & Hin).
      apply andb_true_iff in Hcase as [_ Hfree]. apply negb_true_iff in Hfree.
      assert (List.existsb (fun v => String.eqb (email v) (su_email req)) (users w) = true)
        as Hbad.
      { apply List.existsb_exists. exists v. split; [done |]. by apply String.eqb_eq. }
      congruence.
    + destruct (Hrej eq_refl) as (-> & _). done.
  - intros c' env' req' Hcreated Hv' Hdom' Hmail.
    apply Hiff in Hcreated. destruct (Hok Hcreated) as (Hus & _).
    assert (exists i v,
              findFirst (fun v => String.eqb (email v) (su_email req'))
                        (users (signup X L c env req w).2) = Some (i, v)) as Hheld.
    { apply (findFirst_exists _ _ (newUser X c req)).
      - rewrite Hus. apply in_app_iff. right. by left.
      - cbn. rewrite Hmail. apply String.eqb_refl. }
    destruct Hheld as (i & v & Hf).
    by apply (signup_conflict X L c' env' req' _ i v).
Qed.

Lemma signup_keeps_emails_unique_witness :
  NoDup (List.map email
           (users (signup Sample.X SampleSignup.L SampleSignup.created
                     (Sample.env 1000 Byte.x00 true None) SampleSignup.meera
                     Sample.world0).2)).
Proof.
  apply (signup_keeps_emails_unique Sample.X SampleSignup.L).
  apply (bool_decide_unpack _). vm_compute. reflexivity.
Defined.

(** *** The signup route *)

Lemma validateSignup_domain X L req :
  su_errors (validateSignup X L req) = [] ->
  endsWith (su_email (validateSignup X L req)) "@mictech.edu.in" = true
  /\ isLength X 8 None (su_password req) = true.
Proof.
  unfold validateSignup. cbn [su_errors su_email su_password].
  rewrite !app_nil, !check_nil.
  intros (_ & _ & _ & _ & _ & Hdom & _ & Hpw & _). by split.
Qed.

Lemma signup_domain_error X L c env req w :
  su_body (signup X L c env req w).1
    = SError "Email must be a valid college email (@mictech.edu.in)" ->
  su_hasErrors req = false /\ endsWith (su_email req) "@mictech.edu.in" = false.
Proof.
  unfold signup. destruct (su_hasErrors req).
  { signup_steps. discriminate. }
  destruct (endsWith (su_email req) "@mictech.edu.in"); [| done].
  cbn [negb]. signup_steps.
  destruct (findFirst _ (users w)) as [[i v] |]; cbn; discriminate.
Qed.

(** X28.  Defence in depth on the signup route.  Behind
    [validateSignup], the handler's own check of the college domain
    never decides: the route never answers with the handler's domain
    error, and a request that passes validation is answered 409 or 201,
    where 201 stores the hash of a password that [isLength({ min: 8 })]
    accepted. *)
Theorem signup_route_domain X L c env req sv :
  su_body (postSignup X L c env req sv).1
    <> SError "Email must be a valid college email (@mictech.edu.in)"
  /\ (su_errors (validateSignup X L req) = [] ->
      (su_status (postSignup X L c env req sv).1 = 409
       /\ users (world (postSignup X L c env req sv).2) = users (world sv))
      \/ (su_status (postSignup X L c env req sv).1 = 201
          /\ users (world (postSignup X L c env req sv).2)
             = (users (world sv) ++ [newUser X c (validateSignup X L req)])%list
          /\ isLength X 8 None (su_password req) = true)).
Proof.
  unfold postSignup. split.
  - pose proof (signup_domain_error X L c env (validateSignup X L req) (world sv)) as Hd.
    destruct (signup X L c env (validateSignup X L req) (world sv)) as [res w'].
    cbn [fst] in *. intros Hbad. destruct (Hd Hbad) as [Hv Hdom].
    assert (su_errors (validateSignup X L req) = []) as Herrs.
    { unfold su_hasErrors in Hv. by destruct (su_errors (validateSignup X L req)). }
    destruct (validateSignup_domain X L req Herrs) as [Hok _]. congruence.
  - intros Herrs. destruct (validateSignup_domain X L req Herrs) as [Hdom Hpw].
    assert (su_hasErrors (validateSignup X L req) = false) as Hv
      by (unfold su_hasErrors; by rewrite Herrs).
    destruct (findFirst (fun v => String.eqb (email v)
                                    (su_email (validateSignup X L req)))
                        (users (world sv))) as [[i v] |] eqn:Hf.
    + destruct (signup_conflict X L c env _ (world sv) i v Hv Hdom Hf) as (Hs & Hus & _).
      destruct (signup X L c env (validateSignup X L req) (world sv)) as [res w'].
      cbn in *. left. by split.
    + destruct (signup_success X L c env _ (world sv) Hv Hdom Hf) as (Hs & Hus & _).
      destruct (signup X L c env (validateSignup X L req) (world sv)) as [res w'].
      cbn in *. right. by repeat split.
Qed.

Lemma signup_route_domain_witness :
  let sv := {| rateLimitStore := ∅; world := Sample.world0 |} in
  let r := (postSignup Sample.X SampleSignup.L SampleSignup.created
              (Sample.env 1000 Byte.x00 true None) SampleSignup.meera sv) in
  (su_status r.1 = 409 /\ users (world r.2) = users (world sv))
  \/ (su_status r.1 = 201
      /\ users (world r.2)
         = (users (world sv)
            ++ [newUser Sample.X SampleSignup.created
                  (validateSignup Sample.X SampleSignup.L SampleSignup.meera)])%list
      /\ isLength Sample.X 8 None (su_password SampleSignup.meera) = true).
Proof.
  cbv zeta.
  apply (signup_route_domain Sample.X SampleSignup.L SampleSignup.created
           (Sample.env 1000 Byte.x00 true None) SampleSignup.meera
           {| rateLimitStore := ∅; world := Sample.world0 |}).
  vm_compute. reflexivity.
Defined.

End RegistrationFacts.
